(** * Sevens & Melds: the rules engine, embedded from the TypeScript sources

    The development follows the sources file by file:
    - [types.ts] and [constants.ts]: suits, ranks, cards, players, the
      per-suit board sequences and the game state;
    - [utils/gameLogic.ts]: [canPlayOnBoard], [calculateHandPoints],
      [applyFinalScores], and further down [resolveRoundScores],
      [shuffle] and [createDeck];
    - [App.tsx]: the event handlers of the component ([playSelectedCards],
      [confirmSingleJokerMove], [doPong], [handleKnock], [startNextRound])
      and the bot turn, as functions on the component state; further down
      [startGame], [handleCardClick], [drawCard], [discardCard], the
      effect on the pending discard and [confirmMeldWithJokers];
    - [components/Board.tsx]: [createVisualCard].

    Numbers are JavaScript numbers holding integers; they are modelled by
    [Z] (scores, point values, sort values, sequence bounds) and by [nat]
    where the source uses them as array indices or counters.  A property
    access on [undefined] throws a [TypeError]; handlers that can throw
    return a [Result]. *)

From Stdlib Require Import ZArith Lia List Bool.
From stdpp Require Import base decidable list strings pretty.
From Stdlib Require Import Sorted.

Open Scope Z_scope.

(** Decidable equality of a record or enumeration, field by field. *)
Ltac record_eq_dec :=
  unfold EqDecision, Decision; decide equality;
  apply (_ : EqDecision _).

(* ================================================================== *)
(** ** types.ts *)
(* ================================================================== *)

Module Suit.
Inductive t : Type := HEARTS | DIAMONDS | CLUBS | SPADES | JOKER.

#[global] Instance Suit_eq_dec : EqDecision t.
Proof. record_eq_dec. Defined.

(** The enum values, as they are interpolated into log lines. *)
Definition str (s : t) : string :=
  match s with
  | HEARTS => "♥" | DIAMONDS => "♦" | CLUBS => "♣" | SPADES => "♠"
  | JOKER => "★"
  end.
End Suit.

Module Rank.
Inductive t : Type :=
  | ACE | TWO | THREE | FOUR | FIVE | SIX | SEVEN | EIGHT | NINE | TEN
  | JACK | QUEEN | KING | JOKER.

#[global] Instance Rank_eq_dec : EqDecision t.
Proof. record_eq_dec. Defined.

Definition str (r : t) : string :=
  match r with
  | ACE => "A" | TWO => "2" | THREE => "3" | FOUR => "4" | FIVE => "5"
  | SIX => "6" | SEVEN => "7" | EIGHT => "8" | NINE => "9" | TEN => "10"
  | JACK => "J" | QUEEN => "Q" | KING => "K" | JOKER => "JOKER"
  end.
End Rank.

(** [a === b] on enum values and strings. *)
Notation "a === b" := (bool_decide (a = b)) (at level 70, no associativity).
Notation "a !== b" := (negb (bool_decide (a = b))) (at level 70, no associativity).

Module Card.
(** The optional [representedCard] field is never written or read by the
    sources and is left out. *)
Record t : Type := mk {
  id : string;
  suit : Suit.t;
  rank : Rank.t;
  value : Z;
  sortValue : Z;
  isJoker : bool
}.

#[global] Instance Card_eq_dec : EqDecision t.
Proof. record_eq_dec. Defined.
End Card.

Module BoardSequence.
Record t : Type := mk {
  suit : Suit.t;
  low : Z;
  high : Z;
  hasSeven : bool
}.

#[global] Instance BoardSequence_eq_dec : EqDecision t.
Proof. record_eq_dec. Defined.

(** [seq.high = v], [seq.low = v], [seq.hasSeven = b] *)
Definition set_high (v : Z) (seq : t) : t := mk (suit seq) (low seq) v (hasSeven seq).
Definition set_low (v : Z) (seq : t) : t := mk (suit seq) v (high seq) (hasSeven seq).
Definition set_hasSeven (b : bool) (seq : t) : t := mk (suit seq) (low seq) (high seq) b.
End BoardSequence.

Module Sequences.
(** [Record<Suit, BoardSequence>]: one entry per value of the enum. *)
Record t : Type := mk {
  hearts : BoardSequence.t;
  diamonds : BoardSequence.t;
  clubs : BoardSequence.t;
  spades : BoardSequence.t;
  joker : BoardSequence.t
}.

#[global] Instance Sequences_eq_dec : EqDecision t.
Proof. record_eq_dec. Defined.

(** [sequences[s]] *)
Definition get (m : t) (s : Suit.t) : BoardSequence.t :=
  match s with
  | Suit.HEARTS => hearts m
  | Suit.DIAMONDS => diamonds m
  | Suit.CLUBS => clubs m
  | Suit.SPADES => spades m
  | Suit.JOKER => joker m
  end.

(** The entry of [s] replaced; the handlers mutate the entry object in
    place and then publish the map that holds it, which comes to this. *)
Definition set (s : Suit.t) (v : BoardSequence.t) (m : t) : t :=
  match s with
  | Suit.HEARTS => mk v (diamonds m) (clubs m) (spades m) (joker m)
  | Suit.DIAMONDS => mk (hearts m) v (clubs m) (spades m) (joker m)
  | Suit.CLUBS => mk (hearts m) (diamonds m) v (spades m) (joker m)
  | Suit.SPADES => mk (hearts m) (diamonds m) (clubs m) v (joker m)
  | Suit.JOKER => mk (hearts m) (diamonds m) (clubs m) (spades m) v
  end.
End Sequences.

Module JokerDeclaration.
Record t : Type := mk {
  cardId : string;
  representedSuit : Suit.t;
  representedRank : Rank.t
}.

#[global] Instance JokerDeclaration_eq_dec : EqDecision t.
Proof. record_eq_dec. Defined.
End JokerDeclaration.

Module Player.
Record t : Type := mk {
  id : nat;
  name : string;
  hand : list Card.t;
  isHuman : bool;
  score : Z;
  hasKnocked : bool;
  melds : list (list Card.t)
}.

#[global] Instance Player_eq_dec : EqDecision t.
Proof. record_eq_dec. Defined.

Definition set_hand (h : list Card.t) (p : t) : t :=
  mk (id p) (name p) h (isHuman p) (score p) (hasKnocked p) (melds p).
Definition set_melds (m : list (list Card.t)) (p : t) : t :=
  mk (id p) (name p) (hand p) (isHuman p) (score p) (hasKnocked p) m.
Definition set_score (s : Z) (p : t) : t :=
  mk (id p) (name p) (hand p) (isHuman p) s (hasKnocked p) (melds p).
End Player.

Inductive TurnPhase : Type := ACTION | DRAW | DISCARD | GAME_OVER | ROUND_OVER.

#[global] Instance TurnPhase_eq_dec : EqDecision TurnPhase.
Proof. record_eq_dec. Defined.

Module PendingPong.
Record t : Type := mk { card : Card.t; discarderIndex : nat }.

#[global] Instance PendingPong_eq_dec : EqDecision t.
Proof. record_eq_dec. Defined.
End PendingPong.

(* ================================================================== *)
(** ** constants.ts *)
(* ================================================================== *)

Definition MAX_SCORE : Z := 250.

Definition SUITS : list Suit.t :=
  [Suit.HEARTS; Suit.DIAMONDS; Suit.CLUBS; Suit.SPADES].

Definition RANKS : list Rank.t :=
  [Rank.ACE; Rank.TWO; Rank.THREE; Rank.FOUR; Rank.FIVE; Rank.SIX;
   Rank.SEVEN; Rank.EIGHT; Rank.NINE; Rank.TEN; Rank.JACK; Rank.QUEEN;
   Rank.KING].

(** [RANKS.indexOf(rank)]: the position of the first occurrence, [-1]
    when there is none. *)
Fixpoint indexOf (rank : Rank.t) (l : list Rank.t) : Z :=
  match l with
  | [] => -1
  | r :: l' =>
      if r === rank then 0
      else let i := indexOf rank l' in if i <? 0 then -1 else i + 1
  end.

Definition getSortValue (rank : Rank.t) : Z :=
  if rank === Rank.JOKER then 99
  else indexOf rank RANKS + 1.

(** [RANKS[i]] for a number [i]: [undefined] outside [0 .. 12]. *)
Definition RANKS_at (i : Z) : option Rank.t :=
  if i <? 0 then None else RANKS !! Z.to_nat i.

(** [parseInt] on the numeral ranks, the only ones [getPoints] passes. *)
Definition getPoints (rank : Rank.t) : Z :=
  match rank with
  | Rank.JOKER => 30
  | Rank.SEVEN => 15
  | Rank.JACK | Rank.QUEEN | Rank.KING => 10
  | Rank.ACE => 1
  | Rank.TWO => 2 | Rank.THREE => 3 | Rank.FOUR => 4 | Rank.FIVE => 5
  | Rank.SIX => 6 | Rank.EIGHT => 8 | Rank.NINE => 9 | Rank.TEN => 10
  end.

(* ================================================================== *)
(** ** utils/gameLogic.ts *)
(* ================================================================== *)

(** [mkCard] of [setupTutorialGame], the shape in which [createDeck] too
    builds a card; the identifier, random in the source, is an argument. *)
Definition mkCard (id : string) (suit : Suit.t) (rank : Rank.t)
    (isJoker : bool) : Card.t :=
  Card.mk id suit rank (getPoints rank) (getSortValue rank) isJoker.

Definition canPlayOnBoard (card : Card.t) (sequences : Sequences.t) : bool :=
  if Card.isJoker card then true
  else if Card.rank card === Rank.SEVEN then
    negb (BoardSequence.hasSeven (Sequences.get sequences (Card.suit card)))
  else
    let seq := Sequences.get sequences (Card.suit card) in
    if negb (BoardSequence.hasSeven seq) then false
    else
      let val := Card.sortValue card in
      (val =? BoardSequence.high seq + 1) || (val =? BoardSequence.low seq - 1).

Definition getPlayableCards (hand : list Card.t) (sequences : Sequences.t)
  : list Card.t :=
  List.filter (fun c => canPlayOnBoard c sequences) hand.

Definition calculateHandPoints (hand : list Card.t) : Z :=
  fold_left (fun sum card => sum + Card.value card) hand 0.

(** [jokerDeclarations.some(decl => decl.representedRank === card.rank &&
    decl.representedSuit === card.suit)] *)
Definition isDeclared (jokerDeclarations : list JokerDeclaration.t)
    (card : Card.t) : bool :=
  existsb
    (fun decl =>
       (JokerDeclaration.representedRank decl === Card.rank card)
       && (JokerDeclaration.representedSuit decl === Card.suit card))
    jokerDeclarations.

(** The callback of [players.map] that builds [roundScores]. *)
Definition roundScore (jokerDeclarations : list JokerDeclaration.t)
    (p : Player.t) : Z :=
  fold_left
    (fun pts card =>
       if negb (Card.isJoker card) then
         if isDeclared jokerDeclarations card then pts + 30 else pts
       else pts)
    (Player.hand p) (calculateHandPoints (Player.hand p)).

(** [x <= knockerScore] where [knockerScore] is [roundScores[knockerIndex]]:
    out of range it is [undefined], and a comparison with it is false. *)
Definition leScore (x : Z) (knockerScore : option Z) : bool :=
  match knockerScore with
  | Some k => x <=? k
  | None => false
  end.

(** The undercut scan: [players.forEach((p, i) => { if (i !== knockerIndex
    && roundScores[i] <= knockerScore) undercut = true; })]. *)
Definition checkUndercut (roundScores : list Z) (knockerIndex : nat) : bool :=
  let knockerScore := roundScores !! knockerIndex in
  fold_left
    (fun undercut '(i, s) =>
       if (negb (Nat.eqb i knockerIndex)) && leScore s knockerScore
       then true else undercut)
    (imap pair roundScores) false.

(** [newPlayers] is a copy of the player objects, field by field.  In the
    undercut branch [newPlayers[knockerIndex]] is an element of the array
    (see [checkUndercut_in_range] below), so the update by index never
    meets [undefined]; in the other branch [roundScores[i]] is there for
    every index of [newPlayers], the two arrays being of one length. *)
Definition applyFinalScores (players : list Player.t) (knockerIndex : nat)
    (jokerDeclarations : list JokerDeclaration.t) : list Player.t :=
  let roundScores := map (roundScore jokerDeclarations) players in
  let undercut := checkUndercut roundScores knockerIndex in
  let newPlayers := map (fun p => p) players in
  if undercut then
    let totalPoints := fold_left (fun a b => a + b) roundScores 0 in
    alter (fun p => Player.set_score (Player.score p + totalPoints) p)
      knockerIndex newPlayers
  else
    imap
      (fun i p =>
         match roundScores !! i with
         | Some s => Player.set_score (Player.score p + s) p
         | None => p
         end)
      newPlayers.

(* ================================================================== *)
(** ** App.tsx: the component state *)
(* ================================================================== *)

Module GameState.
(** [isTutorial] is optional in the source and only tested for truth:
    [undefined] is [false] here.  [tutorialStep] is optional too and is
    read as [tutorialStep || 0]. *)
Record t : Type := mk {
  players : list Player.t;
  currentPlayerIndex : nat;
  deck : list Card.t;
  discardPile : list Card.t;
  boardSequences : Sequences.t;
  turnPhase : TurnPhase;
  round : nat;
  winner : option Player.t;
  logs : list string;
  pendingPong : option PendingPong.t;
  jokerDeclarations : list JokerDeclaration.t;
  isTutorial : bool;
  tutorialStep : option nat
}.

Definition set_players (v : list Player.t) (g : t) : t :=
  mk v (currentPlayerIndex g) (deck g) (discardPile g) (boardSequences g)
     (turnPhase g) (round g) (winner g) (logs g) (pendingPong g)
     (jokerDeclarations g) (isTutorial g) (tutorialStep g).
Definition set_currentPlayerIndex (v : nat) (g : t) : t :=
  mk (players g) v (deck g) (discardPile g) (boardSequences g)
     (turnPhase g) (round g) (winner g) (logs g) (pendingPong g)
     (jokerDeclarations g) (isTutorial g) (tutorialStep g).
Definition set_deck (v : list Card.t) (g : t) : t :=
  mk (players g) (currentPlayerIndex g) v (discardPile g) (boardSequences g)
     (turnPhase g) (round g) (winner g) (logs g) (pendingPong g)
     (jokerDeclarations g) (isTutorial g) (tutorialStep g).
Definition set_discardPile (v : list Card.t) (g : t) : t :=
  mk (players g) (currentPlayerIndex g) (deck g) v (boardSequences g)
     (turnPhase g) (round g) (winner g) (logs g) (pendingPong g)
     (jokerDeclarations g) (isTutorial g) (tutorialStep g).
Definition set_boardSequences (v : Sequences.t) (g : t) : t :=
  mk (players g) (currentPlayerIndex g) (deck g) (discardPile g) v
     (turnPhase g) (round g) (winner g) (logs g) (pendingPong g)
     (jokerDeclarations g) (isTutorial g) (tutorialStep g).
Definition set_turnPhase (v : TurnPhase) (g : t) : t :=
  mk (players g) (currentPlayerIndex g) (deck g) (discardPile g)
     (boardSequences g) v (round g) (winner g) (logs g) (pendingPong g)
     (jokerDeclarations g) (isTutorial g) (tutorialStep g).
Definition set_winner (v : option Player.t) (g : t) : t :=
  mk (players g) (currentPlayerIndex g) (deck g) (discardPile g)
     (boardSequences g) (turnPhase g) (round g) v (logs g) (pendingPong g)
     (jokerDeclarations g) (isTutorial g) (tutorialStep g).
Definition set_logs (v : list string) (g : t) : t :=
  mk (players g) (currentPlayerIndex g) (deck g) (discardPile g)
     (boardSequences g) (turnPhase g) (round g) (winner g) v (pendingPong g)
     (jokerDeclarations g) (isTutorial g) (tutorialStep g).
Definition set_pendingPong (v : option PendingPong.t) (g : t) : t :=
  mk (players g) (currentPlayerIndex g) (deck g) (discardPile g)
     (boardSequences g) (turnPhase g) (round g) (winner g) (logs g) v
     (jokerDeclarations g) (isTutorial g) (tutorialStep g).
Definition set_jokerDeclarations (v : list JokerDeclaration.t) (g : t) : t :=
  mk (players g) (currentPlayerIndex g) (deck g) (discardPile g)
     (boardSequences g) (turnPhase g) (round g) (winner g) (logs g)
     (pendingPong g) v (isTutorial g) (tutorialStep g).
Definition set_tutorialStep (v : option nat) (g : t) : t :=
  mk (players g) (currentPlayerIndex g) (deck g) (discardPile g)
     (boardSequences g) (turnPhase g) (round g) (winner g) (logs g)
     (pendingPong g) (jokerDeclarations g) (isTutorial g) v.
End GameState.

Inductive MeldActionType : Type := MELD | PONG.

Module PendingMeldAction.
Record t : Type := mk {
  type : MeldActionType;
  cards : list Card.t;
  naturalRank : option Rank.t;
  jokersCount : nat
}.
End PendingMeldAction.

Module RoundSummary.
Record t : Type := mk {
  roundPoints : list Z;
  previousScores : list Z;
  updatedPlayers : list Player.t;
  knockerIndex : nat
}.
End RoundSummary.

Module App.
(** The [useState] cells of the component that the handlers below read or
    write.  [pendingSingleJokerMove] keeps the card only: its [context]
    is the constant ['SEQUENCE'].  The hint cells, the player count of
    the start screen and the countdown of the claim dialog are not part
    of the rules and are left out. *)
Record t : Type := mk {
  gameState : option GameState.t;
  selectedCards : list string;
  showPongModal : bool;
  showSingleJokerModal : bool;
  pendingSingleJokerMove : option Card.t;
  pendingMeldAction : option PendingMeldAction.t;
  roundSummary : option RoundSummary.t;
  gameStarted : bool
}.

Definition setGameState (v : option GameState.t) (a : t) : t :=
  mk v (selectedCards a) (showPongModal a) (showSingleJokerModal a)
     (pendingSingleJokerMove a) (pendingMeldAction a) (roundSummary a)
     (gameStarted a).
Definition setSelectedCards (v : list string) (a : t) : t :=
  mk (gameState a) v (showPongModal a) (showSingleJokerModal a)
     (pendingSingleJokerMove a) (pendingMeldAction a) (roundSummary a)
     (gameStarted a).
Definition setShowPongModal (v : bool) (a : t) : t :=
  mk (gameState a) (selectedCards a) v (showSingleJokerModal a)
     (pendingSingleJokerMove a) (pendingMeldAction a) (roundSummary a)
     (gameStarted a).
Definition setShowSingleJokerModal (v : bool) (a : t) : t :=
  mk (gameState a) (selectedCards a) (showPongModal a) v
     (pendingSingleJokerMove a) (pendingMeldAction a) (roundSummary a)
     (gameStarted a).
Definition setPendingSingleJokerMove (v : option Card.t) (a : t) : t :=
  mk (gameState a) (selectedCards a) (showPongModal a)
     (showSingleJokerModal a) v (pendingMeldAction a) (roundSummary a)
     (gameStarted a).
Definition setPendingMeldAction (v : option PendingMeldAction.t) (a : t) : t :=
  mk (gameState a) (selectedCards a) (showPongModal a)
     (showSingleJokerModal a) (pendingSingleJokerMove a) v (roundSummary a)
     (gameStarted a).
Definition setRoundSummary (v : option RoundSummary.t) (a : t) : t :=
  mk (gameState a) (selectedCards a) (showPongModal a)
     (showSingleJokerModal a) (pendingSingleJokerMove a)
     (pendingMeldAction a) v (gameStarted a).
Definition setGameStarted (v : bool) (a : t) : t :=
  mk (gameState a) (selectedCards a) (showPongModal a)
     (showSingleJokerModal a) (pendingSingleJokerMove a)
     (pendingMeldAction a) (roundSummary a) v.

(** [setGameState(prev => prev ? f(prev) : null)] *)
Definition updateGameState (f : GameState.t → GameState.t) (a : t) : t :=
  setGameState (f <$> gameState a) a.
End App.

(** What a handler comes to: the component state it leaves, or the
    exception it throws on reading a property of [undefined]; [OutOfFuel]
    is the answer of a loop that was not given enough iterations. *)
Inductive Result (A : Type) : Type :=
  | Ok (a : A)
  | TypeError
  | OutOfFuel.
Arguments Ok {A} a.
Arguments TypeError {A}.
Arguments OutOfFuel {A}.

Module Action.
(** The [action] strings of the tutorial script. *)
Inductive t : Type :=
  | PLAY_7 | PLAY_8 | DRAW | DISCARD_K | WAIT | PONG | PLAY_JOKER | KNOCK.

#[global] Instance Action_eq_dec : EqDecision t.
Proof. record_eq_dec. Defined.
End Action.

(** The [action] fields of [TUTORIAL_STEPS]; titles and texts are display
    only. *)
Definition TUTORIAL_STEPS : list Action.t :=
  [Action.PLAY_7; Action.PLAY_8; Action.DRAW; Action.DISCARD_K; Action.WAIT;
   Action.PONG; Action.PLAY_JOKER; Action.KNOCK].

(** [TUTORIAL_STEPS[gameState.tutorialStep || 0]] *)
Definition tutorialStepOf (gs : GameState.t) : option Action.t :=
  TUTORIAL_STEPS !! default 0%nat (GameState.tutorialStep gs).

(** [gameState.isTutorial ? (gameState.tutorialStep || 0) + 1
                          : gameState.tutorialStep] *)
Definition nextStep (gs : GameState.t) : option nat :=
  if GameState.isTutorial gs
  then Some (default 0%nat (GameState.tutorialStep gs) + 1)%nat
  else GameState.tutorialStep gs.

(** [logs.slice(-4)]: the last four entries. *)
Definition lastFour (logs : list string) : list string :=
  drop (length logs - 4) logs.

Definition addLog (msg : string) (a : App.t) : App.t :=
  App.updateGameState
    (fun prev => GameState.set_logs (lastFour (GameState.logs prev) ++ [msg]) prev)
    a.

(** [array.includes(x)] on strings. *)
Definition includes (l : list string) (x : string) : bool :=
  existsb (fun y => y === x) l.

Definition initialSequences : Sequences.t :=
  Sequences.mk
    (BoardSequence.mk Suit.HEARTS 7 7 false)
    (BoardSequence.mk Suit.DIAMONDS 7 7 false)
    (BoardSequence.mk Suit.CLUBS 7 7 false)
    (BoardSequence.mk Suit.SPADES 7 7 false)
    (BoardSequence.mk Suit.JOKER 0 0 false).

(** [SUITS.filter(s => s !== Suit.JOKER && sequences[s].hasSeven)] *)
Definition suitsWithSeven (sequences : Sequences.t) : list Suit.t :=
  List.filter
    (fun s => (s !== Suit.JOKER)
              && BoardSequence.hasSeven (Sequences.get sequences s))
    SUITS.

(** The two updates that the play paths share:
    [if (val === seq.high + 1) seq.high = val;
     if (val === seq.low - 1) seq.low = val;] *)
Definition extendBounds (val : Z) (seq : BoardSequence.t) : BoardSequence.t :=
  let seq1 :=
    if val =? BoardSequence.high seq + 1 then BoardSequence.set_high val seq
    else seq in
  if val =? BoardSequence.low seq1 - 1 then BoardSequence.set_low val seq1
  else seq1.

(** The board part of a single natural card, as [playSelectedCards] and
    the bot loop both write it: the seven of a suit that has none opens
    the suit, otherwise [canPlayOnBoard] decides and the bounds move.
    [None] is [valid] left [false]. *)
Definition placeCard (card : Card.t) (sequences : Sequences.t)
  : option Sequences.t :=
  let seq := Sequences.get sequences (Card.suit card) in
  if (Card.rank card === Rank.SEVEN) && negb (BoardSequence.hasSeven seq) then
    Some (Sequences.set (Card.suit card)
            (BoardSequence.set_hasSeven true seq) sequences)
  else if canPlayOnBoard card sequences then
    Some (Sequences.set (Card.suit card)
            (extendBounds (Card.sortValue card) seq) sequences)
  else None.

(** [players.map((p, i) => i === idx ? f(p) : p)] *)
Definition mapPlayer (idx : nat) (f : Player.t → Player.t)
    (players : list Player.t) : list Player.t :=
  imap (fun i p => if Nat.eqb i idx then f p else p) players.

(** [hand.filter(c => c.id !== id)] *)
Definition withoutId (id : string) (hand : list Card.t) : list Card.t :=
  List.filter (fun c => Card.id c !== id) hand.

(* ================================================================== *)
(** ** App.tsx: the handlers of the human player *)
(* ================================================================== *)

(** A handler reads the [gameState] of the render it was created in and
    either returns without writing, or queues writes to the state cells;
    the answer is the component state once the writes are applied.  The
    human player is [players[0]] throughout. *)

(** The tutorial interception that opens [playSelectedCards]: [Some r]
    when the handler returns (or throws) there, [None] when it goes on. *)
Definition tutorialInterception (a : App.t) (gameState : GameState.t)
    (selected0 : string) : option (Result App.t) :=
  if negb (GameState.isTutorial gameState) then None
  else
    let step := tutorialStepOf gameState in
    match GameState.players gameState !! 0%nat with
    | None => Some TypeError
    | Some p0 =>
        match List.find (fun c => Card.id c === selected0) (Player.hand p0) with
        | None => Some (Ok a)
        | Some card =>
            match step with
            | None => Some TypeError
            | Some action =>
                if action === Action.PLAY_7 then
                  if (Card.rank card !== Rank.SEVEN)
                     || (Card.suit card !== Suit.HEARTS)
                  then Some (Ok (addLog "Tutorial: Please play the Heart 7." a))
                  else None
                else if action === Action.PLAY_8 then
                  if (Card.rank card !== Rank.EIGHT)
                     || (Card.suit card !== Suit.HEARTS)
                  then Some (Ok (addLog "Tutorial: Please play the Heart 8." a))
                  else None
                else if action === Action.PLAY_JOKER then
                  if negb (Card.isJoker card)
                  then Some (Ok (addLog "Tutorial: Please play the Joker." a))
                  else None
                else Some (Ok (addLog "Tutorial: Follow the instructions!" a))
            end
        end
    end.

(** Case B of [playSelectedCards], three selected cards. *)
Definition playMeld (a : App.t) (gameState : GameState.t) (player : Player.t)
    (cardsToPlay : list Card.t) : Result App.t :=
  if GameState.isTutorial gameState then
    Ok (addLog "Tutorial: Let's stick to single cards for now." a)
  else
    let nonJokers := List.filter (fun c => negb (Card.isJoker c)) cardsToPlay in
    let jokers := List.filter (fun c => Card.isJoker c) cardsToPlay in
    match nonJokers with
    | first :: _ =>
        let targetRank := Card.rank first in
        if negb (forallb (fun c => Card.rank c === targetRank) nonJokers) then
          Ok (addLog "Invalid Meld: ranks do not match." a)
        else if (targetRank === Rank.SEVEN) && (0 <? length jokers)%nat then
          Ok (addLog "Invalid Meld: Joker cannot be used as a 7." a)
        else if (0 <? length jokers)%nat then
          Ok (App.setPendingMeldAction
                (Some (PendingMeldAction.mk MELD cardsToPlay (Some targetRank)
                         (length jokers))) a)
        else
          let newHand :=
            List.filter (fun c => negb (includes (App.selectedCards a) (Card.id c)))
              (Player.hand player) in
          let newMelds := Player.melds player ++ [cardsToPlay] in
          let gs' :=
            GameState.set_logs
              (GameState.logs gameState
                 ++ ["You melded three " +:+ Rank.str targetRank +:+ "s"])
              (GameState.set_players
                 (mapPlayer 0
                    (fun p => Player.set_melds newMelds (Player.set_hand newHand p))
                    (GameState.players gameState))
                 gameState) in
          Ok (App.setSelectedCards [] (App.setGameState (Some gs') a))
    | [] =>
        Ok (App.setPendingMeldAction
              (Some (PendingMeldAction.mk MELD cardsToPlay None 3)) a)
    end.

(** Case A of [playSelectedCards], one selected card; a natural card that
    is not valid falls through to the final ["Invalid move!"]. *)
Definition playSingle (a : App.t) (gameState : GameState.t) (player : Player.t)
    (card : Card.t) : Result App.t :=
  if Card.isJoker card then
    let playableSuits := suitsWithSeven (GameState.boardSequences gameState) in
    if Nat.eqb (length playableSuits) 0 then
      Ok (addLog "Jokers cannot be played as 7s. No sequences to extend." a)
    else
      Ok (App.setShowSingleJokerModal true
            (App.setPendingSingleJokerMove (Some card) a))
  else
    match placeCard card (GameState.boardSequences gameState) with
    | Some newSequences =>
        let newHand := withoutId (Card.id card) (Player.hand player) in
        let gs' :=
          GameState.set_tutorialStep (nextStep gameState)
            (GameState.set_logs
               (GameState.logs gameState
                  ++ ["You played " +:+ Rank.str (Card.rank card) +:+ " of "
                        +:+ Suit.str (Card.suit card)])
               (GameState.set_boardSequences newSequences
                  (GameState.set_players
                     (mapPlayer 0 (Player.set_hand newHand)
                        (GameState.players gameState))
                     gameState))) in
        Ok (App.setSelectedCards [] (App.setGameState (Some gs') a))
    | None => Ok (addLog "Invalid move!" a)
    end.

Definition playSelectedCards (a : App.t) : Result App.t :=
  match App.gameState a, App.selectedCards a with
  | None, _ => Ok a
  | Some _, [] => Ok a
  | Some gameState, selected0 :: _ =>
      match tutorialInterception a gameState selected0 with
      | Some r => r
      | None =>
          match GameState.players gameState !! 0%nat with
          | None => TypeError
          | Some player =>
              let cardsToPlay :=
                List.filter (fun c => includes (App.selectedCards a) (Card.id c))
                  (Player.hand player) in
              match cardsToPlay with
              | [card] => playSingle a gameState player card
              | [_; _; _] => playMeld a gameState player cardsToPlay
              | _ => Ok (addLog "Invalid move!" a)
              end
          end
      end
  end.

(** The board part of [confirmSingleJokerMove]: the entry of the declared
    suit after the two conditional updates. *)
Definition declareOnBoard (declaredSuit : Suit.t) (declaredRank : Rank.t)
    (sequences : Sequences.t) : Sequences.t :=
  Sequences.set declaredSuit
    (extendBounds (getSortValue declaredRank)
       (Sequences.get sequences declaredSuit))
    sequences.

Definition confirmSingleJokerMove (declaredSuit : Suit.t)
    (declaredRank : Rank.t) (a : App.t) : Result App.t :=
  match App.gameState a, App.pendingSingleJokerMove a with
  | None, _ => Ok a
  | Some _, None => Ok a
  | Some gameState, Some card =>
      if declaredRank === Rank.SEVEN then Ok a
      else
        let newSequences :=
          declareOnBoard declaredSuit declaredRank
            (GameState.boardSequences gameState) in
        match GameState.players gameState !! 0%nat with
        | None => TypeError
        | Some player =>
            let newHand := withoutId (Card.id card) (Player.hand player) in
            let newDeclaration :=
              JokerDeclaration.mk (Card.id card) declaredSuit declaredRank in
            let gs' :=
              GameState.set_tutorialStep (nextStep gameState)
                (GameState.set_logs
                   (GameState.logs gameState
                      ++ ["You played Joker as " +:+ Rank.str declaredRank
                            +:+ " " +:+ Suit.str declaredSuit])
                   (GameState.set_jokerDeclarations
                      (GameState.jokerDeclarations gameState ++ [newDeclaration])
                      (GameState.set_boardSequences newSequences
                         (GameState.set_players
                            (mapPlayer 0 (Player.set_hand newHand)
                               (GameState.players gameState))
                            gameState)))) in
            Ok (App.setSelectedCards []
                  (App.setPendingSingleJokerMove None
                     (App.setShowSingleJokerModal false
                        (App.setGameState (Some gs') a))))
        end
  end.

(** The identities the declaration dialog offers for a single wild card,
    one button each: for every suit with its seven down, the rank below
    [low] and the rank above [high] when they exist, sevens filtered out. *)
Definition singleJokerOptions (sequences : Sequences.t)
  : list (Suit.t * Rank.t) :=
  flat_map
    (fun s =>
       let seq := Sequences.get sequences s in
       let lowVal := BoardSequence.low seq - 1 in
       let highVal := BoardSequence.high seq + 1 in
       let opts :=
         (if 1 <=? lowVal then option_list (RANKS_at (lowVal - 1)) else [])
         ++ (if highVal <=? 13 then option_list (RANKS_at (highVal - 1)) else [])
       in
       map (fun r => (s, r)) (List.filter (fun r => r !== Rank.SEVEN) opts))
    (suitsWithSeven sequences).

(** [cancelPong]; in the tutorial it also arms a timer that reopens the
    dialog a second later, which is outside this model. *)
Definition cancelPong (a : App.t) : App.t :=
  let a1 := App.setShowPongModal false a in
  match App.gameState a with
  | None => a1
  | Some gameState =>
      if GameState.isTutorial gameState then
        addLog "Tutorial: You should Pong to clear your hand!" a1
      else
        App.updateGameState (GameState.set_pendingPong None) a1
  end.

(** The cards [doPong] takes from the hand, each with its position in the
    hand: the cards of a hand are distinct objects, and [includes] on cards
    compares objects, so a position stands for the object.  [None] is the
    array [[naturalMatches[0], undefined]] that arises when one natural
    match and no joker is held. *)
Definition cardsToUse (hand : list Card.t) (discard : Card.t)
  : option (list (nat * Card.t)) :=
  let naturalMatches :=
    List.filter
      (fun ic => (Card.rank ic.2 === Card.rank discard) && negb (Card.isJoker ic.2))
      (imap pair hand) in
  let jokers := List.filter (fun ic => Card.isJoker ic.2) (imap pair hand) in
  if (2 <=? length naturalMatches)%nat then Some (take 2 naturalMatches)
  else
    match naturalMatches, jokers with
    | [n], j :: _ => Some [n; j]
    | [_], [] => None
    | _, _ => Some (take 2 jokers)
    end.

Definition doPong (a : App.t) : Result App.t :=
  match App.gameState a with
  | None => Ok a
  | Some gameState =>
      match GameState.pendingPong gameState with
      | None => Ok a
      | Some pending =>
          match GameState.players gameState !! 0%nat with
          | None => TypeError
          | Some human =>
              let discard := PendingPong.card pending in
              match cardsToUse (Player.hand human) discard with
              | None => TypeError
              | Some used =>
                  let jokersInvolved :=
                    List.filter (fun ic => Card.isJoker ic.2) used in
                  let totalCards := map snd used ++ [discard] in
                  if (Card.rank discard === Rank.SEVEN)
                     && (0 <? length jokersInvolved)%nat
                  then Ok (cancelPong (addLog "Cannot use Joker to Pong a 7." a))
                  else if (0 <? length jokersInvolved)%nat then
                    Ok (App.setShowPongModal false
                          (App.setPendingMeldAction
                             (Some (PendingMeldAction.mk PONG totalCards
                                      (Some (Card.rank discard))
                                      (length jokersInvolved))) a))
                  else
                    let newHand :=
                      map snd
                        (List.filter
                           (fun ic => negb (existsb (fun u => Nat.eqb u.1 ic.1) used))
                           (imap pair (Player.hand human))) in
                    let newMeld := totalCards in
                    let gs' :=
                      GameState.set_tutorialStep (nextStep gameState)
                        (GameState.set_logs
                           (GameState.logs gameState
                              ++ ["You Ponged the " +:+ Rank.str (Card.rank discard)
                                    +:+ "! Turn is yours."])
                           (GameState.set_pendingPong None
                              (GameState.set_turnPhase ACTION
                                 (GameState.set_currentPlayerIndex 0
                                    (GameState.set_discardPile
                                       (drop 1 (GameState.discardPile gameState))
                                       (GameState.set_players
                                          (mapPlayer 0
                                             (fun p =>
                                                Player.set_melds
                                                  (Player.melds p ++ [newMeld])
                                                  (Player.set_hand newHand p))
                                             (GameState.players gameState))
                                          gameState)))))) in
                    Ok (App.setShowPongModal false
                          (App.setGameState (Some gs') a))
              end
          end
      end
  end.

(* ------------------------------------------------------------------ *)
(** *** Round end *)

Definition processRoundEnd (currentPlayers : list Player.t) (knockerIdx : nat)
    (a : App.t) : Result App.t :=
  match App.gameState a with
  | None => Ok a
  | Some gameState =>
      let previousScores := map Player.score currentPlayers in
      let updatedPlayers :=
        applyFinalScores currentPlayers knockerIdx
          (GameState.jokerDeclarations gameState) in
      let roundPoints :=
        zip_with (fun p prev => Player.score p - prev)
          updatedPlayers previousScores in
      match currentPlayers !! knockerIdx with
      | None => TypeError
      | Some knocker =>
          let a1 :=
            App.updateGameState
              (fun prev =>
                 GameState.set_logs
                   (GameState.logs prev
                      ++ [Player.name knocker +:+ " knocked with "
                            +:+ pretty (calculateHandPoints (Player.hand knocker))
                            +:+ " points!"])
                   (GameState.set_turnPhase ROUND_OVER
                      (GameState.set_players updatedPlayers prev)))
              a in
          Ok (App.setRoundSummary
                (Some (RoundSummary.mk roundPoints previousScores
                         updatedPlayers knockerIdx)) a1)
      end
  end.

Definition handleKnock (a : App.t) : Result App.t :=
  match App.gameState a with
  | None => Ok a
  | Some gameState =>
      match GameState.players gameState !! 0%nat with
      | None => TypeError
      | Some player =>
          let points := calculateHandPoints (Player.hand player) in
          if GameState.isTutorial gameState then
            match tutorialStepOf gameState with
            | None => TypeError
            | Some action =>
                if action !== Action.KNOCK
                then Ok (addLog "Tutorial: Not time to knock yet." a)
                else processRoundEnd (GameState.players gameState) 0 a
            end
          else if 5 <? points then
            Ok (addLog ("Cannot knock! You have " +:+ pretty points +:+ " points.") a)
          else processRoundEnd (GameState.players gameState) 0 a
      end
  end.

(** [cards.sort((a, b) => a.sortValue - b.sortValue)]: the sort of the
    language is stable; insertion from the right keeps equal keys in their
    order. *)
Fixpoint insertBySortValue (c : Card.t) (sorted : list Card.t) : list Card.t :=
  match sorted with
  | [] => [c]
  | d :: rest =>
      if Card.sortValue c <=? Card.sortValue d then c :: d :: rest
      else d :: insertBySortValue c rest
  end.

Definition sortBySortValue (cards : list Card.t) : list Card.t :=
  fold_right insertBySortValue [] cards.

(** [updatedPlayers.forEach(p => { p.hand = newDeck.splice(0, 7).sort(..);
    p.melds = []; })]: the players in order, each taking the seven cards
    at the front of what is left of the deck (fewer when it runs short). *)
Fixpoint dealHands (players : list Player.t) (newDeck : list Card.t)
  : list Player.t * list Card.t :=
  match players with
  | [] => ([], newDeck)
  | p :: rest =>
      let hand := sortBySortValue (take 7 newDeck) in
      let '(rest', deck') := dealHands rest (drop 7 newDeck) in
      (Player.set_melds [] (Player.set_hand hand p) :: rest', deck')
  end.

(** [updatedPlayers.reduce((prev, curr) => prev.score < curr.score ? prev
    : curr)]: without an initial value the first element starts the fold,
    and an empty array throws. *)
Definition pickWinner (updatedPlayers : list Player.t) : option Player.t :=
  match updatedPlayers with
  | [] => None
  | first :: rest =>
      Some (fold_left
              (fun prev curr =>
                 if Player.score prev <? Player.score curr then prev else curr)
              rest first)
  end.

(** [startNextRound].  [createdDeck] is what [createDeck(updatedPlayers
    .length)] returns: a deck in the order [Math.random] shuffled it into,
    an input of the model.  For an empty player list the source computes
    [round % 0], which is [NaN]; here it is the value of [Nat.modulo]. *)
Definition startNextRound (createdDeck : list Card.t) (a : App.t)
  : Result App.t :=
  match App.gameState a, App.roundSummary a with
  | None, _ => Ok a
  | Some _, None => Ok a
  | Some gameState, Some summary =>
      if GameState.isTutorial gameState then
        Ok (App.setGameStarted false (App.setGameState None a))
      else
        let updatedPlayers := RoundSummary.updatedPlayers summary in
        let isGameOver :=
          existsb (fun p => MAX_SCORE <=? Player.score p) updatedPlayers in
        if isGameOver then
          match pickWinner updatedPlayers with
          | None => TypeError
          | Some winner =>
              let gs' :=
                GameState.set_logs
                  (GameState.logs gameState
                     ++ ["Game Over! Winner: " +:+ Player.name winner])
                  (GameState.set_turnPhase GAME_OVER
                     (GameState.set_winner (Some winner) gameState)) in
              Ok (App.setRoundSummary None (App.setGameState (Some gs') a))
          end
        else
          let '(dealt, newDeck) := dealHands updatedPlayers createdDeck in
          let gs' :=
            GameState.mk
              dealt
              (GameState.round gameState `mod` length updatedPlayers)%nat
              newDeck
              []
              initialSequences
              ACTION
              (GameState.round gameState + 1)%nat
              None
              (GameState.logs gameState
                 ++ ["--- Round " +:+ pretty (GameState.round gameState + 1)%nat
                       +:+ " Started ---"])
              None
              []
              false
              None in
          Ok (App.setRoundSummary None (App.setGameState (Some gs') a))
  end.

(* ================================================================== *)
(** ** App.tsx: the bot turn *)
(* ================================================================== *)

Module BotLoop.
(** The locals of [botTurn] that its greedy loop updates.  [app] is the
    component state with the [addLog] calls of the loop applied. *)
Record t : Type := mk {
  newHand : list Card.t;
  newMelds : list (list Card.t);
  newSequences : Sequences.t;
  newJokerDeclarations : list JokerDeclaration.t;
  movesMade : nat;
  app : App.t
}.
End BotLoop.

(** [rankCounts[r]]: the natural cards of rank [r], in hand order. *)
Definition rankCounts (hand : list Card.t) (r : Rank.t) : list Card.t :=
  List.filter (fun c => negb (Card.isJoker c) && (Card.rank c === r)) hand.

(** The ranks whose names are integer keys of an object, ascending. *)
Definition numeralRanks : list Rank.t :=
  [Rank.TWO; Rank.THREE; Rank.FOUR; Rank.FIVE; Rank.SIX; Rank.SEVEN;
   Rank.EIGHT; Rank.NINE; Rank.TEN].

Definition isNumeral (r : Rank.t) : bool :=
  existsb (fun n => n === r) numeralRanks.

Fixpoint firstOccurrences (seen : list Rank.t) (l : list Rank.t)
  : list Rank.t :=
  match l with
  | [] => []
  | r :: l' =>
      if existsb (fun x => x === r) seen then firstOccurrences seen l'
      else r :: firstOccurrences (r :: seen) l'
  end.

(** The keys of [rankCounts] in the order [for (const r in rankCounts)]
    visits them: integer keys first, ascending, then the other keys in
    the order they were created. *)
Definition rankKeys (hand : list Card.t) : list Rank.t :=
  let present :=
    map Card.rank (List.filter (fun c => negb (Card.isJoker c)) hand) in
  List.filter (fun n => existsb (fun r => r === n) present) numeralRanks
  ++ firstOccurrences [] (List.filter (fun r => negb (isNumeral r)) present).

(** Step 1 of the loop body: the first key with three or more cards. *)
Definition findMeld (hand : list Card.t) : option Rank.t :=
  List.find (fun r => (3 <=? length (rankCounts hand r))%nat) (rankKeys hand).

(** The joker branch of step 2: the first suit of [validSuits] that gives
    a target rank other than the seven; the bound on the side of the
    target moves and the declaration is recorded. *)
Fixpoint placeJokerOn (c : Card.t) (validSuits : list Suit.t)
    (sequences : Sequences.t)
  : option (Sequences.t * JokerDeclaration.t) :=
  match validSuits with
  | [] => None
  | suit :: rest =>
      let seq := Sequences.get sequences suit in
      let targetRank :=
        if BoardSequence.high seq <? 13 then RANKS_at (BoardSequence.high seq)
        else if 1 <? BoardSequence.low seq
             then RANKS_at (BoardSequence.low seq - 2)
             else None in
      match targetRank with
      | Some r =>
          if r !== Rank.SEVEN then
            let seq' :=
              if BoardSequence.high seq <? getSortValue r
              then BoardSequence.set_high (getSortValue r) seq
              else BoardSequence.set_low (getSortValue r) seq in
            Some (Sequences.set suit seq' sequences,
                  JokerDeclaration.mk (Card.id c) suit r)
          else placeJokerOn c rest sequences
      | None => placeJokerOn c rest sequences
      end
  end.

Definition placeJoker (c : Card.t) (sequences : Sequences.t)
  : option (Sequences.t * JokerDeclaration.t) :=
  placeJokerOn c (suitsWithSeven sequences) sequences.

(** One card of the [for (let i = 0; ...)] scan of step 2: the board, the
    declaration (for a joker) and the log line when the card is played. *)
Definition tryCard (botName : string) (c : Card.t) (sequences : Sequences.t)
  : option (Sequences.t * option JokerDeclaration.t * string) :=
  if negb (Card.isJoker c) then
    match placeCard c sequences with
    | Some sequences' =>
        if (Card.rank c === Rank.SEVEN)
           && negb (BoardSequence.hasSeven (Sequences.get sequences (Card.suit c)))
        then Some (sequences', None,
                   botName +:+ " played 7 of " +:+ Suit.str (Card.suit c))
        else Some (sequences', None,
                   botName +:+ " played " +:+ Rank.str (Card.rank c) +:+ " of "
                     +:+ Suit.str (Card.suit c))
    | None => None
    end
  else
    match placeJoker c sequences with
    | Some (sequences', decl) =>
        Some (sequences', Some decl,
              botName +:+ " played Joker as "
                +:+ Rank.str (JokerDeclaration.representedRank decl) +:+ " "
                +:+ Suit.str (JokerDeclaration.representedSuit decl))
    | None => None
    end.

(** The scan itself: the index of the first card that is played, with
    what [tryCard] gives for it. *)
Fixpoint scanHand (botName : string) (i : nat) (cards : list Card.t)
    (sequences : Sequences.t)
  : option (nat * (Sequences.t * option JokerDeclaration.t * string)) :=
  match cards with
  | [] => None
  | c :: rest =>
      match tryCard botName c sequences with
      | Some r => Some (i, r)
      | None => scanHand botName (S i) rest sequences
      end
  end.

(** One pass through the body of [while (played)]: [None] when the pass
    leaves [played] false. *)
Definition botStep (botName : string) (st : BotLoop.t) : option BotLoop.t :=
  let hand := BotLoop.newHand st in
  match findMeld hand with
  | Some r =>
      let meldCards := take 3 (rankCounts hand r) in
      let idsToRemove := map Card.id meldCards in
      Some (BotLoop.mk
              (List.filter (fun c => negb (includes idsToRemove (Card.id c))) hand)
              (BotLoop.newMelds st ++ [meldCards])
              (BotLoop.newSequences st)
              (BotLoop.newJokerDeclarations st)
              (BotLoop.movesMade st + 1)%nat
              (addLog (botName +:+ " melded three " +:+ Rank.str r +:+ "s")
                 (BotLoop.app st)))
  | None =>
      match scanHand botName 0 hand (BotLoop.newSequences st) with
      | Some (i, (sequences', decl, msg)) =>
          Some (BotLoop.mk
                  (delete i hand)
                  (BotLoop.newMelds st)
                  sequences'
                  (BotLoop.newJokerDeclarations st ++ option_list decl)
                  (BotLoop.movesMade st + 1)%nat
                  (addLog msg (BotLoop.app st)))
      | None => None
      end
  end.

(** [while (played) { ... }], with a bound on the number of passes. *)
Fixpoint botLoop (fuel : nat) (botName : string) (st : BotLoop.t)
  : Result BotLoop.t :=
  match fuel with
  | O => OutOfFuel
  | S fuel' =>
      match botStep botName st with
      | None => Ok st
      | Some st' => botLoop fuel' botName st'
      end
  end.

(** The number of passes that [botLoop] makes, the last one included. *)
Fixpoint botPasses (fuel : nat) (botName : string) (st : BotLoop.t) : nat :=
  match fuel with
  | O => 0
  | S fuel' =>
      match botStep botName st with
      | None => 1
      | Some st' => S (botPasses fuel' botName st')
      end
  end.

(** [newHand.forEach((c, i) => { if (c.value > maxVal) { maxVal = c.value;
    discardIndex = i; } })] from [discardIndex = 0], [maxVal = -1]. *)
Definition pickDiscardIndex (hand : list Card.t) : nat :=
  fst (fold_left
         (fun '(discardIndex, maxVal) '(i, c) =>
            if maxVal <? Card.value c then (i, Card.value c)
            else (discardIndex, maxVal))
         (imap pair hand) (0%nat, -1)).

(** The scripted bot of the tutorial. *)
Definition tutorialBot (a : App.t) (gameState : GameState.t) : Result App.t :=
  let botIdx := 1%nat in
  match GameState.players gameState !! botIdx with
  | None => TypeError
  | Some bot =>
      let deck := drop 1 (GameState.deck gameState) in
      let newHand := Player.hand bot ++ take 1 (GameState.deck gameState) in
      let found :=
        match List.find
                (fun c => (Card.rank c === Rank.TWO) && (Card.suit c === Suit.CLUBS))
                newHand with
        | Some c => Some c
        | None => newHand !! 0%nat
        end in
      match found with
      | None => TypeError
      | Some discardCard =>
          let newHand' := withoutId (Card.id discardCard) newHand in
          Ok (App.updateGameState
                (fun prev =>
                   GameState.set_tutorialStep
                     (Some (default 0%nat (GameState.tutorialStep prev) + 1)%nat)
                     (GameState.set_logs
                        (GameState.logs prev ++ ["Bot discarded Club 2"])
                        (GameState.set_pendingPong
                           (Some (PendingPong.mk discardCard botIdx))
                           (GameState.set_currentPlayerIndex 0
                              (GameState.set_turnPhase ACTION
                                 (GameState.set_discardPile
                                    (discardCard :: GameState.discardPile prev)
                                    (GameState.set_players
                                       (mapPlayer botIdx (Player.set_hand newHand')
                                          (GameState.players prev))
                                       (GameState.set_deck deck prev))))))))
                a)
      end
  end.

(** The bot proper.  The loop is given one pass more than the hand has
    cards; [botLoop_terminates] shows that it never needs more. *)
Definition normalBot (a : App.t) (gameState : GameState.t) : Result App.t :=
  let botIdx := GameState.currentPlayerIndex gameState in
  match GameState.players gameState !! botIdx with
  | None => TypeError
  | Some bot =>
      let st0 :=
        BotLoop.mk (Player.hand bot) (Player.melds bot)
          (GameState.boardSequences gameState)
          (GameState.jokerDeclarations gameState) 0 a in
      match botLoop (S (length (Player.hand bot))) (Player.name bot) st0 with
      | OutOfFuel => OutOfFuel
      | TypeError => TypeError
      | Ok st =>
          let newHand := BotLoop.newHand st in
          let newMelds := BotLoop.newMelds st in
          let newSequences := BotLoop.newSequences st in
          let newJokerDeclarations := BotLoop.newJokerDeclarations st in
          let currentPoints := calculateHandPoints newHand in
          if currentPoints <=? 5 then
            let tempPlayers :=
              mapPlayer botIdx
                (fun p => Player.set_melds newMelds (Player.set_hand newHand p))
                (GameState.players gameState) in
            let updatedPlayers :=
              applyFinalScores tempPlayers botIdx newJokerDeclarations in
            let previousScores := map Player.score (GameState.players gameState) in
            let roundPoints :=
              zip_with (fun p prev => Player.score p - prev)
                updatedPlayers previousScores in
            Ok (App.setRoundSummary
                  (Some (RoundSummary.mk roundPoints previousScores
                           updatedPlayers botIdx))
                  (App.updateGameState
                     (fun prev =>
                        GameState.set_logs
                          (GameState.logs prev
                             ++ [Player.name bot +:+ " Knocked! (Points: "
                                   +:+ pretty currentPoints +:+ ")"])
                          (GameState.set_turnPhase ROUND_OVER
                             (GameState.set_jokerDeclarations newJokerDeclarations
                                (GameState.set_boardSequences newSequences
                                   (GameState.set_players updatedPlayers prev)))))
                     (BotLoop.app st)))
          else
            let '(deck, drawnHand, a1) :=
              match GameState.deck gameState with
              | drawnCard :: deck' =>
                  (deck', sortBySortValue (newHand ++ [drawnCard]),
                   addLog (Player.name bot +:+ " drew a card.") (BotLoop.app st))
              | [] =>
                  ([], newHand, addLog "Deck empty." (BotLoop.app st))
              end in
            let discardIndex := pickDiscardIndex drawnHand in
            match drawnHand !! discardIndex with
            | None => TypeError
            | Some discardedCard =>
                let finalHand := delete discardIndex drawnHand in
                let nextPlayer :=
                  ((botIdx + 1) `mod` length (GameState.players gameState))%nat in
                Ok (App.updateGameState
                      (fun prev =>
                         GameState.set_pendingPong
                           (Some (PendingPong.mk discardedCard botIdx))
                           (GameState.set_logs
                              (GameState.logs prev
                                 ++ [Player.name bot +:+ " discarded "
                                       +:+ Rank.str (Card.rank discardedCard) +:+ " "
                                       +:+ Suit.str (Card.suit discardedCard)])
                              (GameState.set_currentPlayerIndex nextPlayer
                                 (GameState.set_discardPile
                                    (discardedCard :: GameState.discardPile prev)
                                    (GameState.set_deck deck
                                       (GameState.set_jokerDeclarations
                                          newJokerDeclarations
                                          (GameState.set_boardSequences newSequences
                                             (GameState.set_players
                                                (mapPlayer botIdx
                                                   (fun p =>
                                                      Player.set_melds newMelds
                                                        (Player.set_hand finalHand p))
                                                   (GameState.players prev))
                                                prev))))))))
                      a1)
            end
      end
  end.

(** The effect that runs the bot: its guards, then, a second later, the
    turn itself, computed from the game state of the render that started
    it.  The turn is taken here as one step from that state. *)
Definition botTurn (a : App.t) : Result App.t :=
  match App.gameState a with
  | None => Ok a
  | Some gameState =>
      if (GameState.turnPhase gameState === GAME_OVER)
         || (GameState.turnPhase gameState === ROUND_OVER)
         || negb (App.gameStarted a)
      then Ok a
      else if Nat.eqb (GameState.currentPlayerIndex gameState) 0 then Ok a
      else if bool_decide (is_Some (GameState.pendingPong gameState)) then Ok a
      else if (GameState.turnPhase gameState !== ACTION)
              && (GameState.turnPhase gameState !== DISCARD)
      then Ok a
      else if GameState.isTutorial gameState then tutorialBot a gameState
      else normalBot a gameState
  end.

(* ================================================================== *)
(** ** The board as the play paths drive it *)
(* ================================================================== *)

(** A single card accepted as an extension of the sequence of suit [s]:
    a natural card of that suit placed by the human player or by the bot
    loop ([placeCard]), a joker placed by the bot loop on that suit
    ([placeJoker]), or a joker of the human player declared as the card
    next to a bound of that suit ([declareOnBoard]). *)
Inductive accepted_extension (sequences : Sequences.t) (s : Suit.t)
  : Sequences.t → Prop :=
  | ext_natural (c : Card.t) (sequences' : Sequences.t) :
      Card.isJoker c = false →
      Card.suit c = s →
      placeCard c sequences = Some sequences' →
      accepted_extension sequences s sequences'
  | ext_bot_joker (c : Card.t) (sequences' : Sequences.t)
      (decl : JokerDeclaration.t) :
      placeJoker c sequences = Some (sequences', decl) →
      JokerDeclaration.representedSuit decl = s →
      accepted_extension sequences s sequences'
  | ext_declared_joker (declaredRank : Rank.t) :
      declaredRank ≠ Rank.SEVEN →
      getSortValue declaredRank
        = BoardSequence.high (Sequences.get sequences s) + 1
      ∨ getSortValue declaredRank
        = BoardSequence.low (Sequences.get sequences s) - 1 →
      accepted_extension sequences s
        (declareOnBoard s declaredRank sequences).

(** The boards a round can show: the initial one, and those that the play
    paths make of a board, whatever card or declaration they are given. *)
Inductive reachable : Sequences.t → Prop :=
  | reach_initial : reachable initialSequences
  | reach_placeCard (c : Card.t) (sequences sequences' : Sequences.t) :
      reachable sequences →
      Card.isJoker c = false →
      placeCard c sequences = Some sequences' →
      reachable sequences'
  | reach_placeJoker (c : Card.t) (sequences sequences' : Sequences.t)
      (decl : JokerDeclaration.t) :
      reachable sequences →
      placeJoker c sequences = Some (sequences', decl) →
      reachable sequences'
  | reach_declare (declaredSuit : Suit.t) (declaredRank : Rank.t)
      (sequences : Sequences.t) :
      reachable sequences →
      declaredRank ≠ Rank.SEVEN →
      reachable (declareOnBoard declaredSuit declaredRank sequences).

(** An entry after a play is the entry before it with one bound moved
    out by one. *)
Definition extended_by_one (before after : BoardSequence.t) : Prop :=
  BoardSequence.hasSeven after = BoardSequence.hasSeven before
  ∧ ((BoardSequence.high after = BoardSequence.high before + 1
      ∧ BoardSequence.low after = BoardSequence.low before)
     ∨ (BoardSequence.low after = BoardSequence.low before - 1
        ∧ BoardSequence.high after = BoardSequence.high before)).

(** The bounds of an entry enclose the seven. *)
Definition around_seven (seq : BoardSequence.t) : Prop :=
  BoardSequence.low seq <= 7 <= BoardSequence.high seq.

(** The invariant of the board: on every suit of [SUITS] the bounds
    enclose the seven. *)
Definition board_ok (sequences : Sequences.t) : Prop :=
  ∀ s : Suit.t, s ∈ SUITS → around_seven (Sequences.get sequences s).

(** [b] is [a] with other lines in the log of its game state. *)
Definition logs_only (a b : App.t) : Prop :=
  ∃ l : list string, b = App.updateGameState (GameState.set_logs l) a.

(* ================================================================== *)
(** ** Round scoring as the specification words it *)
(* ================================================================== *)

(** The adjusted total of a player: the points of the hand, and thirty for
    every card of the hand that is not wild and whose suit and rank some
    recorded declaration names. *)
Definition adjustedTotal (jokerDeclarations : list JokerDeclaration.t)
    (p : Player.t) : Z :=
  calculateHandPoints (Player.hand p)
  + 30 * Z.of_nat
           (length
              (List.filter
                 (fun c => negb (Card.isJoker c) && isDeclared jokerDeclarations c)
                 (Player.hand p))).

Definition sumZ (l : list Z) : Z := fold_right Z.add 0 l.

(** Some player other than the knocker has a total that is at most the
    total of the knocker. *)
Definition undercuts (totals : list Z) (knockerIndex : nat) : Prop :=
  ∃ (i : nat) (t tk : Z),
    i ≠ knockerIndex ∧ totals !! i = Some t
    ∧ totals !! knockerIndex = Some tk ∧ t <= tk.

(* ================================================================== *)
(** ** The rest of gameLogic.ts, constants.ts and Board.tsx *)
(* ================================================================== *)

(** [createVisualCard] of [Board.tsx]: the card drawn for a bound of a
    sequence, [null] outside [1 .. 13]. *)
Definition createVisualCard (suit : Suit.t) (val : Z) : option Card.t :=
  if (val <? 1) || (13 <? val) then None
  else
    match RANKS_at (val - 1) with
    | Some rank =>
        Some (Card.mk ("visual-" +:+ Suit.str suit +:+ "-" +:+ Rank.str rank)
                suit rank 0 val false)
    | None => None
    end.

(** The inner scan of [resolveRoundScores]: from [playerBasePoints[idx]],
    thirty more for every card of the hand that is declared and is no
    joker. *)
Definition roundPointsOf (jokerDeclarations : list JokerDeclaration.t)
    (basePoints : Z) (hand : list Card.t) : Z :=
  fold_left
    (fun roundPoints card =>
       if isDeclared jokerDeclarations card && negb (Card.isJoker card)
       then roundPoints + 30 else roundPoints)
    hand basePoints.

(** [let penalty = 0; newPlayers.forEach((otherP, otherIdx) => { if
    (otherIdx !== knockerIndex) { ...; penalty += otherRoundPoints; } })] *)
Definition undercutPenalty (jokerDeclarations : list JokerDeclaration.t)
    (players : list Player.t) (knockerIndex : nat) : Z :=
  fold_left
    (fun penalty '(otherIdx, otherP) =>
       if negb (Nat.eqb otherIdx knockerIndex) then
         penalty
         + roundPointsOf jokerDeclarations
             (calculateHandPoints (Player.hand otherP)) (Player.hand otherP)
       else penalty)
    (imap pair players) 0.

(** [resolveRoundScores], the first of the two scoring functions of the
    file.  It adds to the [score] of the player objects it is given: the
    list it returns holds those same objects, here their new values.  The
    undercut is looked for on the base points, with the scan of
    [checkUndercut]. *)
Definition resolveRoundScores (players : list Player.t) (knockerIndex : nat)
    (jokerDeclarations : list JokerDeclaration.t) : list Player.t :=
  let playerBasePoints :=
    map (fun p => calculateHandPoints (Player.hand p)) players in
  let undercut := checkUndercut playerBasePoints knockerIndex in
  imap
    (fun idx p =>
       let roundPoints :=
         roundPointsOf jokerDeclarations
           (calculateHandPoints (Player.hand p)) (Player.hand p) in
       if negb (Nat.eqb idx knockerIndex) then
         Player.set_score (Player.score p + roundPoints) p
       else if undercut then
         Player.set_score
           (Player.score p
            + undercutPenalty jokerDeclarations players knockerIndex) p
       else Player.set_score (Player.score p + roundPoints) p)
    players.

(** A card of the shape [createDeck] gives its cards: a joker is worth 30
    with sort value 99, any other card has one of the four suits and the
    points and the sort value of its rank. *)
Definition deckCard (c : Card.t) : Prop :=
  if Card.isJoker c
  then Card.suit c = Suit.JOKER ∧ Card.rank c = Rank.JOKER
       ∧ Card.value c = 30 ∧ Card.sortValue c = 99
  else Card.suit c ∈ SUITS ∧ Card.rank c ≠ Rank.JOKER
       ∧ Card.value c = getPoints (Card.rank c)
       ∧ Card.sortValue c = getSortValue (Card.rank c).

(** The totals of the players other than the knocker, added up. *)
Definition othersTotal (jokerDeclarations : list JokerDeclaration.t)
    (players : list Player.t) (knockerIndex : nat) : Z :=
  sumZ
    (imap
       (fun j q =>
          if Nat.eqb j knockerIndex then 0
          else adjustedTotal jokerDeclarations q)
       players).

(** The hand points of the players, the measure on which
    [resolveRoundScores] looks for an undercut. *)
Definition basePoints (players : list Player.t) : list Z :=
  map (fun p => calculateHandPoints (Player.hand p)) players.

(** [[array[i], array[j]] = [array[j], array[i]]]: the two slots are read,
    then [array[i]] and [array[j]] are written in that order.  [shuffle]
    only swaps slots of the array; outside it the list is left as it is
    here. *)
Definition swap {A : Type} (i j : nat) (array : list A) : list A :=
  match array !! i, array !! j with
  | Some x, Some y => <[j := x]> (<[i := y]> array)
  | _, _ => array
  end.

(** The loop of [shuffle].  [random currentIndex] stands for the draw
    [Math.floor(Math.random() * currentIndex)] made at that value of
    [currentIndex]: a number below [currentIndex], here any natural number
    reduced modulo [currentIndex]. *)
Fixpoint shuffleFrom {A : Type} (random : nat → nat) (currentIndex : nat)
    (array : list A) : list A :=
  match currentIndex with
  | O => array
  | S currentIndex' =>
      let randomIndex := (random currentIndex `mod` currentIndex)%nat in
      shuffleFrom random currentIndex' (swap currentIndex' randomIndex array)
  end.

Definition shuffle {A : Type} (random : nat → nat) (array : list A) : list A :=
  shuffleFrom random (length array) array.

(** The cards pushed for deck number [d], before the shuffle.  The random
    tails of the identifiers are inputs: [randomId suit rank d] for a
    natural card and [randomJoker n d] for the joker number [n]. *)
Definition deckCards (randomId : Suit.t → Rank.t → nat → string)
    (randomJoker : nat → nat → string) (d : nat) : list Card.t :=
  flat_map
    (fun suit =>
       if suit === Suit.JOKER then []
       else
         map
           (fun rank =>
              Card.mk
                (Suit.str suit +:+ "-" +:+ Rank.str rank +:+ "-" +:+ pretty d
                   +:+ "-" +:+ randomId suit rank d)
                suit rank (getPoints rank) (getSortValue rank) false)
           RANKS)
    SUITS
  ++ [Card.mk ("JOKER-1-" +:+ pretty d +:+ "-" +:+ randomJoker 1%nat d)
        Suit.JOKER Rank.JOKER 30 99 true;
      Card.mk ("JOKER-2-" +:+ pretty d +:+ "-" +:+ randomJoker 2%nat d)
        Suit.JOKER Rank.JOKER 30 99 true].

Definition numDecks (playerCount : nat) : nat :=
  if (4 <=? playerCount)%nat then 2%nat else 1%nat.

Definition createDeck (randomId : Suit.t → Rank.t → nat → string)
    (randomJoker : nat → nat → string) (random : nat → nat)
    (playerCount : nat) : list Card.t :=
  shuffle random
    (flat_map (deckCards randomId randomJoker) (seq 0 (numDecks playerCount))).

(** The player objects that [startGame] makes. *)
Definition newPlayer (i : nat) : Player.t :=
  Player.mk i (if Nat.eqb i 0 then "You" else "Bot " +:+ pretty i) []
    (Nat.eqb i 0) 0 false [].

(** [startGame].  [createdDeck] is what [createDeck(playerCount)] returns.
    The hands are dealt as in [startNextRound], seven cards from the
    front of the deck for each player in turn, sorted; the melds of the
    new players are empty already. *)
Definition startGame (createdDeck : list Card.t) (playerCount : nat)
    (a : App.t) : App.t :=
  let players := map newPlayer (seq 0 playerCount) in
  let '(dealt, deck) := dealHands players createdDeck in
  App.setRoundSummary None
    (App.setGameStarted true
       (App.setGameState
          (Some (GameState.mk dealt 0 deck [] initialSequences ACTION 1 None
                   ["Game started! Good luck."] None [] false None))
          a)).

(** Cards in ascending order of sort value. *)
Definition bySortValue (c d : Card.t) : Prop :=
  Card.sortValue c <= Card.sortValue d.

(* ================================================================== *)
(** ** App.tsx: selecting, drawing, discarding and claiming *)
(* ================================================================== *)

(** [handleCardClick]: toggles the id of the card in the selection; in
    the discard phase a new id replaces the selection. *)
Definition handleCardClick (card : Card.t) (a : App.t) : App.t :=
  match App.gameState a with
  | None => a
  | Some gameState =>
      if (GameState.turnPhase gameState !== ACTION)
         && (GameState.turnPhase gameState !== DISCARD)
      then a
      else if negb (Nat.eqb (GameState.currentPlayerIndex gameState) 0) then a
      else if includes (App.selectedCards a) (Card.id card) then
        App.setSelectedCards
          (List.filter (fun id => id !== Card.id card) (App.selectedCards a)) a
      else if GameState.turnPhase gameState === DISCARD then
        App.setSelectedCards [Card.id card] a
      else App.setSelectedCards (App.selectedCards a ++ [Card.id card]) a
  end.

(** [drawCard].  On an empty deck the handler queues [addLog] and then
    writes a game state built from the one it read, so the line of the
    log does not survive.  With a card to draw it reads the hand of
    [players[currentPlayerIndex]], and throws when there is no such
    player. *)
Definition drawCard (a : App.t) : Result App.t :=
  match App.gameState a with
  | None => Ok a
  | Some gameState =>
      if GameState.turnPhase gameState !== ACTION then Ok a
      else
        let intercepted :=
          if GameState.isTutorial gameState then
            match tutorialStepOf gameState with
            | None => Some TypeError
            | Some action =>
                if action !== Action.DRAW
                then Some (Ok (addLog "Tutorial: Do not draw yet." a))
                else None
            end
          else None in
        match intercepted with
        | Some r => r
        | None =>
            match GameState.deck gameState with
            | [] =>
                Ok (App.setGameState
                      (Some (GameState.set_turnPhase DISCARD gameState))
                      (addLog "Deck empty! Skipping draw." a))
            | card :: deck =>
                match GameState.players gameState
                      !! GameState.currentPlayerIndex gameState with
                | None => TypeError
                | Some player =>
                    let player' :=
                      Player.set_hand
                        (sortBySortValue (Player.hand player ++ [card])) player in
                    let gs' :=
                      GameState.set_tutorialStep (nextStep gameState)
                        (GameState.set_logs
                           (GameState.logs gameState ++ ["You drew a card."])
                           (GameState.set_turnPhase DISCARD
                              (GameState.set_players
                                 (mapPlayer
                                    (GameState.currentPlayerIndex gameState)
                                    (fun _ => player')
                                    (GameState.players gameState))
                                 (GameState.set_deck deck gameState)))) in
                    Ok (App.setGameState (Some gs') a)
                end
            end
        end
  end.

(** [discardCard]: the card leaves the hand of [players[0]], whoever the
    current player is, and the turn passes on from the current player. *)
Definition discardCard (a : App.t) : Result App.t :=
  match App.gameState a, App.selectedCards a with
  | Some gameState, [cardId] =>
      if GameState.turnPhase gameState !== DISCARD then Ok a
      else
        match GameState.players gameState !! 0%nat with
        | None => TypeError
        | Some player =>
            match List.find (fun c => Card.id c === cardId) (Player.hand player)
            with
            | None => Ok a
            | Some card =>
                let intercepted :=
                  if GameState.isTutorial gameState then
                    match tutorialStepOf gameState with
                    | None => Some TypeError
                    | Some action =>
                        if (action === Action.DISCARD_K)
                           && (Card.rank card !== Rank.KING)
                        then Some (Ok (addLog
                                         "Tutorial: Discard the King of Diamonds!"
                                         a))
                        else None
                    end
                  else None in
                match intercepted with
                | Some r => r
                | None =>
                    let newHand := withoutId cardId (Player.hand player) in
                    let nextPlayerIdx :=
                      ((GameState.currentPlayerIndex gameState + 1)
                       `mod` length (GameState.players gameState))%nat in
                    let gs' :=
                      GameState.set_tutorialStep (nextStep gameState)
                        (GameState.set_pendingPong
                           (Some (PendingPong.mk card 0))
                           (GameState.set_logs
                              (GameState.logs gameState
                                 ++ ["You discarded " +:+ Rank.str (Card.rank card)
                                       +:+ " " +:+ Suit.str (Card.suit card)])
                              (GameState.set_turnPhase ACTION
                                 (GameState.set_currentPlayerIndex nextPlayerIdx
                                    (GameState.set_discardPile
                                       (card :: GameState.discardPile gameState)
                                       (GameState.set_players
                                          (mapPlayer 0 (Player.set_hand newHand)
                                             (GameState.players gameState))
                                          gameState)))))) in
                    Ok (App.setSelectedCards [] (App.setGameState (Some gs') a))
                end
            end
        end
  | _, _ => Ok a
  end.

(** The effect on [gameState.pendingPong]: it opens the claim dialog when
    the human player can complete a set with the discard of another
    player, and drops the pending discard otherwise. *)
Definition pongEffect (a : App.t) : Result App.t :=
  match App.gameState a with
  | None => Ok a
  | Some gameState =>
      match GameState.pendingPong gameState with
      | None => Ok a
      | Some pending =>
          if GameState.isTutorial gameState
             && negb (Nat.eqb (PendingPong.discarderIndex pending) 0)
          then Ok (App.setShowPongModal true a)
          else if negb (Nat.eqb (PendingPong.discarderIndex pending) 0) then
            match GameState.players gameState !! 0%nat with
            | None => TypeError
            | Some human =>
                let rank := Card.rank (PendingPong.card pending) in
                let naturalMatches :=
                  List.filter
                    (fun c => (Card.rank c === rank) && negb (Card.isJoker c))
                    (Player.hand human) in
                let jokers :=
                  List.filter (fun c => Card.isJoker c) (Player.hand human) in
                if (2 <=? length naturalMatches + length jokers)%nat
                then Ok (App.setShowPongModal true a)
                else Ok (App.updateGameState (GameState.set_pendingPong None) a)
            end
          else Ok (App.updateGameState (GameState.set_pendingPong None) a)
      end
  end.

(** [jokersInMeld.map((joker, idx) => ({ cardId: joker.id,
    representedSuit: declarations[idx].suit, ... }))]: [None] when
    [declarations[idx]] is [undefined] for some joker. *)
Fixpoint declareJokers (jokersInMeld : list Card.t)
    (declarations : list (Suit.t * Rank.t))
  : option (list JokerDeclaration.t) :=
  match jokersInMeld, declarations with
  | [], _ => Some []
  | _ :: _, [] => None
  | joker :: jokers, d :: ds =>
      cons (JokerDeclaration.mk (Card.id joker) d.1 d.2)
        <$> declareJokers jokers ds
  end.

(** [hand.filter(c => !cards.some(played => played.id === c.id))] *)
Definition withoutCards (cards hand : list Card.t) : list Card.t :=
  List.filter
    (fun c => negb (existsb (fun played => Card.id played === Card.id c) cards))
    hand.

Definition confirmMeldWithJokers (declarations : list (Suit.t * Rank.t))
    (a : App.t) : Result App.t :=
  match App.gameState a, App.pendingMeldAction a with
  | Some gameState, Some pending =>
      let type := PendingMeldAction.type pending in
      let cards := PendingMeldAction.cards pending in
      match GameState.players gameState !! 0%nat with
      | None => TypeError
      | Some player =>
          let jokersInMeld := List.filter (fun c => Card.isJoker c) cards in
          match declareJokers jokersInMeld declarations with
          | None => TypeError
          | Some newJokerDeclarations =>
              let newHand := withoutCards cards (Player.hand player) in
              let newMelds := Player.melds player ++ [cards] in
              let finish (gs1 : GameState.t) : Result App.t :=
                let gs' :=
                  GameState.set_jokerDeclarations
                    (GameState.jokerDeclarations gameState
                       ++ newJokerDeclarations)
                    (GameState.set_players
                       (mapPlayer 0
                          (fun p =>
                             Player.set_melds newMelds (Player.set_hand newHand p))
                          (GameState.players gameState))
                       gs1) in
                Ok (App.setShowPongModal false
                      (App.setSelectedCards []
                         (App.setPendingMeldAction None
                            (App.setGameState (Some gs') a)))) in
              match type with
              | MELD =>
                  finish
                    (GameState.set_logs
                       (GameState.logs gameState
                          ++ ["You melded " +:+ pretty (length cards)
                                +:+ " cards with Jokers."])
                       gameState)
              | PONG =>
                  match List.find
                          (fun c =>
                             negb (existsb (fun h => Card.id h === Card.id c)
                                     (Player.hand player)))
                          cards with
                  | None => Ok a
                  | Some _ =>
                      finish
                        (GameState.set_logs
                           (GameState.logs gameState
                              ++ ["You Ponged with Jokers! Turn is yours."])
                           (GameState.set_pendingPong None
                              (GameState.set_currentPlayerIndex 0
                                 (GameState.set_turnPhase ACTION
                                    (GameState.set_discardPile
                                       (drop 1 (GameState.discardPile gameState))
                                       gameState)))))
                  end
              end
          end
      end
  | _, _ => Ok a
  end.

(** What the declaration dialog passes to [confirmMeldWithJokers] for the
    suits chosen in it, one for each of its [jokersCount] rows: every
    entry with the rank of the dialog, which is the natural rank of the
    pending action when it has one. *)
Definition dialogDeclarations (pending : PendingMeldAction.t)
    (selectedRank : Rank.t) (suits : list Suit.t)
  : list (Suit.t * Rank.t) :=
  let rank := default selectedRank (PendingMeldAction.naturalRank pending) in
  map (fun s => (s, rank)) suits.

(** All the cards of a game state: hands, melds, deck and discard pile. *)
Definition cardsOf (gs : GameState.t) : list Card.t :=
  concat (map Player.hand (GameState.players gs))
  ++ concat (map (fun p => concat (Player.melds p)) (GameState.players gs))
  ++ GameState.deck gs ++ GameState.discardPile gs.

(** The bounds of every suit of [SUITS] lie between the ace and the
    king. *)
Definition board_in_range (sequences : Sequences.t) : Prop :=
  ∀ s : Suit.t, s ∈ SUITS →
    1 <= BoardSequence.low (Sequences.get sequences s)
    ∧ BoardSequence.high (Sequences.get sequences s) <= 13.

(* ================================================================== *)
(** ** Sample cards and boards *)
(* ================================================================== *)

(** A joker as [createDeck] makes it, and some natural cards. *)
Definition aJoker : Card.t :=
  Card.mk "JOKER-1-0" Suit.JOKER Rank.JOKER 30 99 true.
Definition heart7 : Card.t :=
  Card.mk "h7" Suit.HEARTS Rank.SEVEN 15 7 false.
Definition heart8 : Card.t :=
  Card.mk "h8" Suit.HEARTS Rank.EIGHT 8 8 false.
Definition heartK : Card.t :=
  Card.mk "hK" Suit.HEARTS Rank.KING 10 13 false.

(** The board once the seven of hearts is down. *)
Definition heartsOpen : Sequences.t :=
  Sequences.set Suit.HEARTS (BoardSequence.mk Suit.HEARTS 7 7 true)
    initialSequences.

(** The board once the eight of hearts has followed. *)
Definition heartsEight : Sequences.t :=
  Sequences.set Suit.HEARTS (BoardSequence.mk Suit.HEARTS 7 8 true)
    initialSequences.

(** A game of two: the human player holds a king and a joker, the bot the
    seven and the eight of hearts. *)
Definition samplePlayers : list Player.t :=
  [Player.mk 0 "You" [heartK; aJoker] true 0 false [];
   Player.mk 1 "Bot 1" [heart7; heart8] false 0 false []].

Definition sampleGame (currentPlayerIndex : nat) : GameState.t :=
  GameState.mk samplePlayers currentPlayerIndex [heartK] [] initialSequences
    ACTION 1 None ["Game started! Good luck."] None [] false None.

Definition sampleApp (currentPlayerIndex : nat) : App.t :=
  App.mk (Some (sampleGame currentPlayerIndex)) [] false false None None None
    true.

(** The bot has discarded the seven of spades; the human player holds one
    natural seven, a king and a joker. *)
Definition spade7 : Card.t :=
  Card.mk "s7" Suit.SPADES Rank.SEVEN 15 7 false.

Definition pongPlayers : list Player.t :=
  [Player.mk 0 "You" [heart7; heartK; aJoker] true 0 false [];
   Player.mk 1 "Bot 1" [heart8] false 0 false []].

Definition pongGame : GameState.t :=
  GameState.mk pongPlayers 0 [] [spade7] initialSequences ACTION 1 None []
    (Some (PendingPong.mk spade7 1)) [] false None.

Definition pongApp : App.t :=
  App.mk (Some pongGame) [] true false None None None true.

(** The human player has picked the joker for the board, with the seven
    of hearts down and nothing else. *)
Definition jokerGame : GameState.t :=
  GameState.mk samplePlayers 0 [] [] heartsOpen ACTION 1 None [] None []
    false None.

Definition jokerApp : App.t :=
  App.mk (Some jokerGame) ["JOKER-1-0"] false true (Some aJoker) None None
    true.

(** The end of a round in which the first two players are level on the
    lowest score and the third has passed the ceiling. *)
Definition tiePlayers : list Player.t :=
  [Player.mk 0 "You" [] true 10 false [];
   Player.mk 1 "Bot 1" [] false 10 false [];
   Player.mk 2 "Bot 2" [] false 260 false []].

Definition tieApp : App.t :=
  App.mk
    (Some (GameState.mk tiePlayers 1 [] [] initialSequences ROUND_OVER 3 None
             [] None [] false None))
    [] false false None None
    (Some (RoundSummary.mk [0; 4; 40] [10; 6; 220] tiePlayers 1)) true.

(** The end of a round in which a joker stood for the king of hearts and
    nobody has reached the ceiling. *)
Definition lowDeclarations : list JokerDeclaration.t :=
  [JokerDeclaration.mk "JOKER-1-0" Suit.HEARTS Rank.KING].

Definition lowPlayers : list Player.t :=
  [Player.mk 0 "You" [] true 4 false [];
   Player.mk 1 "Bot 1" [heartK] false 40 false []].

Definition lowGame : GameState.t :=
  GameState.mk lowPlayers 0 [] [] heartsEight ROUND_OVER 1 None [] None
    lowDeclarations false None.

Definition lowSummary : RoundSummary.t :=
  RoundSummary.mk [4; 40] [0; 0] lowPlayers 0.

Definition lowApp : App.t :=
  App.mk (Some lowGame) [] false false None None (Some lowSummary) true.

(** The scoring examples: the knocker holds an ace and a three, the
    opponent four kings, or else a two only; in the third game a joker
    has been declared the nine of hearts and the opponent holds that
    nine. *)
Definition spadeA : Card.t := mkCard "sA" Suit.SPADES Rank.ACE false.
Definition spade3 : Card.t := mkCard "s3" Suit.SPADES Rank.THREE false.
Definition club2 : Card.t := mkCard "c2" Suit.CLUBS Rank.TWO false.
Definition heart9 : Card.t := mkCard "h9" Suit.HEARTS Rank.NINE false.

Definition knocker : Player.t :=
  Player.mk 0 "You" [spadeA; spade3] true 0 false [].
Definition opponent40 : Player.t :=
  Player.mk 1 "Bot 1"
    [heartK; mkCard "dK" Suit.DIAMONDS Rank.KING false;
     mkCard "cK" Suit.CLUBS Rank.KING false;
     mkCard "sK" Suit.SPADES Rank.KING false] false 0 false [].
Definition opponent2 : Player.t :=
  Player.mk 1 "Bot 1" [club2] false 0 false [].
Definition opponent9 : Player.t :=
  Player.mk 1 "Bot 1" [heart9] false 0 false [].

Definition nineOfHearts : list JokerDeclaration.t :=
  [JokerDeclaration.mk "JOKER-1-0" Suit.HEARTS Rank.NINE].

(** A deck for the next round of the two players of [lowApp]: one pack in
    the order in which it is built. *)
Definition lowDeck : list Card.t :=
  deckCards (fun _ _ _ => "a") (fun _ _ => "b") 0.

(** A discard the human player can claim cleanly: the king of spades,
    with the kings of hearts and diamonds in hand. *)
Definition diamondK : Card.t := mkCard "dK" Suit.DIAMONDS Rank.KING false.
Definition spadeK : Card.t := mkCard "sK" Suit.SPADES Rank.KING false.

Definition cleanPongHuman : Player.t :=
  Player.mk 0 "You" [heart8; heartK; diamondK] true 0 false [].

Definition cleanPongGame : GameState.t :=
  GameState.mk [cleanPongHuman; Player.mk 1 "Bot 1" [heart7] false 0 false []]
    0 [] [spadeK] initialSequences ACTION 1 None []
    (Some (PendingPong.mk spadeK 1)) [] false None.

Definition cleanPongApp : App.t :=
  App.mk (Some cleanPongGame) [] true false None None None true.
(** The human player has selected two kings and a joker for a meld. *)
Definition meldHuman : Player.t :=
  Player.mk 0 "You" [heartK; diamondK; aJoker; heart8] true 0 false [].

Definition meldGame : GameState.t :=
  GameState.mk [meldHuman; Player.mk 1 "Bot 1" [heart7] false 0 false []]
    0 [] [] initialSequences ACTION 1 None [] None [] false None.

Definition meldSelected : App.t :=
  App.mk (Some meldGame) ["hK"; "dK"; "JOKER-1-0"] false false None None None
    true.

Definition meldPending : PendingMeldAction.t :=
  PendingMeldAction.mk MELD [heartK; diamondK; aJoker] (Some Rank.KING) 1.

Definition meldApp : App.t :=
  App.setPendingMeldAction (Some meldPending) meldSelected.

(** Three natural kings selected. *)
Definition kingsHuman : Player.t :=
  Player.mk 0 "You" [heart8; heartK; diamondK; spadeK] true 0 false [].

Definition kingsGame : GameState.t :=
  GameState.mk [kingsHuman; Player.mk 1 "Bot 1" [heart7] false 0 false []]
    0 [] [] initialSequences ACTION 1 None [] None [] false None.

Definition kingsApp : App.t :=
  App.mk (Some kingsGame) ["hK"; "dK"; "sK"] false false None None None true.
(** A bot has discarded a joker, and the human player holds two. *)
Definition secondJoker : Card.t :=
  Card.mk "JOKER-2-0" Suit.JOKER Rank.JOKER 30 99 true.
Definition thirdJoker : Card.t :=
  Card.mk "JOKER-1-1" Suit.JOKER Rank.JOKER 30 99 true.

Definition jokerPongHuman : Player.t :=
  Player.mk 0 "You" [heart8; aJoker; secondJoker] true 0 false [].

Definition jokerPongGame : GameState.t :=
  GameState.mk [jokerPongHuman; Player.mk 1 "Bot 1" [heart7] false 0 false []]
    0 [] [thirdJoker] initialSequences ACTION 1 None []
    (Some (PendingPong.mk thirdJoker 1)) [] false None.

Definition jokerPongApp : App.t :=
  App.mk (Some jokerPongGame) [] true false None None None true.

(** A bot has discarded the king of spades; the human player holds one
    king and a joker. *)
Definition mixedPongHuman : Player.t :=
  Player.mk 0 "You" [heart8; heartK; aJoker] true 0 false [].

Definition mixedPongGame : GameState.t :=
  GameState.mk [mixedPongHuman; Player.mk 1 "Bot 1" [heart7] false 0 false []]
    0 [] [spadeK] initialSequences ACTION 1 None []
    (Some (PendingPong.mk spadeK 1)) [] false None.

Definition mixedPongApp : App.t :=
  App.mk (Some mixedPongGame) [] true false None None None true.

(** A bot to move that can play nothing: an eight and a king of hearts
    on the initial board, with the nine of hearts on the deck. *)
Definition idleBot : Player.t :=
  Player.mk 1 "Bot 1" [heart8; heartK] false 0 false [].

Definition idleBotGame : GameState.t :=
  GameState.mk [Player.mk 0 "You" [aJoker] true 0 false []; idleBot] 1
    [heart9] [] initialSequences ACTION 1 None [] None [] false None.

Definition idleBotApp : App.t :=
  App.mk (Some idleBotGame) [] false false None None None true.

(* ================================================================== *)
(** * Properties *)
(* ================================================================== *)

(* ------------------------------------------------------------------ *)
(** ** Round scoring *)

(** A card is declared when some recorded declaration names its rank and
    its suit. *)
Lemma isDeclared_spec (jokerDeclarations : list JokerDeclaration.t)
    (card : Card.t) :
  isDeclared jokerDeclarations card = true
  ↔ ∃ decl : JokerDeclaration.t,
      decl ∈ jokerDeclarations
      ∧ JokerDeclaration.representedRank decl = Card.rank card
      ∧ JokerDeclaration.representedSuit decl = Card.suit card.
Proof.
  unfold isDeclared. rewrite existsb_exists. split.
  - intros (decl & Hin & H). apply andb_prop in H as [Hr Hs].
    exists decl. split; [by apply list_elem_of_In|].
    apply bool_decide_eq_true in Hr, Hs. done.
  - intros (decl & Hin & Hr & Hs). exists decl.
    split; [by apply list_elem_of_In|].
    apply andb_true_intro. split; by apply bool_decide_eq_true_2.
Qed.

Section Scoring.
Variable jokerDeclarations : list JokerDeclaration.t.

Lemma handPoints_from (hand : list Card.t) (acc : Z) :
  fold_left (fun sum card => sum + Card.value card) hand acc
  = acc + calculateHandPoints hand.
Proof.
  unfold calculateHandPoints. revert acc.
  induction hand as [|c hand IH]; intros acc; simpl; [lia|].
  rewrite (IH (acc + _)), (IH (0 + _)). lia.
Qed.

Lemma penalty_from (hand : list Card.t) (acc : Z) :
  fold_left
    (fun pts card =>
       if negb (Card.isJoker card) then
         if isDeclared jokerDeclarations card then pts + 30 else pts
       else pts) hand acc
  = acc + 30 * Z.of_nat
            (length
               (List.filter
                  (fun c => negb (Card.isJoker c) && isDeclared jokerDeclarations c)
                  hand)).
Proof.
  revert acc. induction hand as [|c hand IH]; intros acc; simpl; [lia|].
  rewrite IH.
  destruct (Card.isJoker c), (isDeclared jokerDeclarations c); simpl; lia.
Qed.

Lemma roundScore_adjusted (p : Player.t) :
  roundScore jokerDeclarations p = adjustedTotal jokerDeclarations p.
Proof. unfold roundScore, adjustedTotal. apply penalty_from. Qed.

Lemma roundScores_adjusted (players : list Player.t) :
  map (roundScore jokerDeclarations) players
  = map (adjustedTotal jokerDeclarations) players.
Proof. apply map_ext. intros p. apply roundScore_adjusted. Qed.
End Scoring.

Lemma sum_from (l : list Z) (acc : Z) :
  fold_left (fun a b => a + b) l acc = acc + sumZ l.
Proof.
  revert acc. induction l as [|x l IH]; intros acc; simpl; [lia|].
  rewrite IH. lia.
Qed.

(** The scan of [checkUndercut], from any position of the array on. *)
Lemma undercut_scan (ks : option Z) (k : nat) (l : list Z) (g : nat → nat)
    (acc : bool) :
  fold_left
    (fun undercut '(i, s) =>
       if negb (Nat.eqb i k) && leScore s ks then true else undercut)
    (imap (fun i s => (g i, s)) l) acc = true
  ↔ acc = true
    ∨ ∃ (i : nat) (s : Z), l !! i = Some s ∧ g i ≠ k ∧ leScore s ks = true.
Proof.
  revert g acc. induction l as [|x l IH]; intros g acc; simpl.
  - split; [auto|]. intros [H|(i & s & H & _)]; [done|]. by destruct i.
  - rewrite (IH (g ∘ S)). split.
    + intros [H|(i & s & Hi & Hg & Hs)].
      * destruct (negb (g 0%nat =? k)%nat && leScore x ks) eqn:E; [|by left].
        apply andb_prop in E as [E1 E2]. right. exists 0%nat, x.
        repeat split; [|done]. apply negb_true_iff, Nat.eqb_neq in E1. done.
      * right. exists (S i), s. done.
    + intros [H|(i & s & Hi & Hg & Hs)].
      * left. subst acc. by destruct (negb _ && _).
      * destruct i as [|i]; simpl in Hi.
        -- left. injection Hi as ->.
           apply Nat.eqb_neq in Hg. by rewrite Hg, Hs.
        -- right. exists i, s. done.
Qed.

Lemma checkUndercut_spec (totals : list Z) (k : nat) :
  checkUndercut totals k = true ↔ undercuts totals k.
Proof.
  unfold checkUndercut, undercuts.
  change (imap pair totals) with (imap (fun i s => (id i, s)) totals).
  rewrite undercut_scan. split.
  - intros [H|(i & s & Hi & Hne & Hle)]; [done|].
    unfold leScore in Hle. destruct (totals !! k) as [tk|] eqn:Hk; [|done].
    exists i, s, tk. repeat split; try done. lia.
  - intros (i & t & tk & Hne & Hi & Hk & Hle). right.
    exists i, t. rewrite Hk. repeat split; try done. simpl. lia.
Qed.

(** An undercut is only found when the knocker is one of the players, so
    the update of [newPlayers[knockerIndex]] always has its object. *)
Lemma checkUndercut_in_range (totals : list Z) (k : nat) :
  checkUndercut totals k = true → (k < length totals)%nat.
Proof.
  rewrite checkUndercut_spec. intros (i & t & tk & _ & _ & Hk & _).
  by apply lookup_lt_Some in Hk.
Qed.

(** C1. Round-end scoring: the total of every player is the points of the
    hand plus 30 for each card of the hand that is not wild and matches a
    recorded declaration in suit and rank; an undercut is found exactly
    when a player other than the knocker has a total at most that of the
    knocker; on an undercut the sum of the totals of all players, the
    knocker included, goes to the score of the knocker and no other score
    moves; otherwise every player, the knocker included, gets their own
    total added. *)
Theorem applyFinalScores_correct (players : list Player.t)
    (knockerIndex : nat) (jokerDeclarations : list JokerDeclaration.t) :
  let totals := map (adjustedTotal jokerDeclarations) players in
  let scored := applyFinalScores players knockerIndex jokerDeclarations in
  map (roundScore jokerDeclarations) players = totals
  ∧ (checkUndercut (map (roundScore jokerDeclarations) players) knockerIndex
       = true ↔ undercuts totals knockerIndex)
  ∧ length scored = length players
  ∧ (undercuts totals knockerIndex →
       ∀ (i : nat) (p : Player.t), players !! i = Some p →
         scored !! i
         = Some (if Nat.eqb i knockerIndex
                 then Player.set_score (Player.score p + sumZ totals) p
                 else p))
  ∧ (¬ undercuts totals knockerIndex →
       ∀ (i : nat) (p : Player.t), players !! i = Some p →
         scored !! i
         = Some (Player.set_score
                   (Player.score p + adjustedTotal jokerDeclarations p) p)).
Proof.
  intros totals scored. subst scored. unfold applyFinalScores.
  rewrite roundScores_adjusted. fold totals. rewrite map_id.
  split; [done|]. split; [apply checkUndercut_spec|].
  destruct (checkUndercut totals knockerIndex) eqn:U.
  - apply checkUndercut_spec in U as HU.
    split; [apply length_alter|]. split; [|done].
    intros _ i p Hp. rewrite list_lookup_alter, sum_from, Z.add_0_l.
    destruct (decide (knockerIndex = i)) as [->|Hne].
    + by rewrite Hp, Nat.eqb_refl.
    + rewrite Hp. apply not_eq_sym, Nat.eqb_neq in Hne. by rewrite Hne.
  - assert (¬ undercuts totals knockerIndex) as HU.
    { rewrite <- checkUndercut_spec, U. done. }
    split; [apply length_imap|]. split; [done|].
    intros _ i p Hp. rewrite list_lookup_imap, Hp. simpl.
    subst totals. change (map ?f ?l) with (f <$> l).
    by rewrite list_lookup_fmap, Hp.
Qed.


(** The examples of the specification: no undercut at 4 against 40, an
    undercut at 4 against 2, and 30 more for the natural nine of hearts
    once a joker has been declared the nine of hearts. *)
Lemma applyFinalScores_correct_witness :
  applyFinalScores [knocker; opponent40] 0 [] !! 0%nat
  = Some (Player.set_score 4 knocker)
  ∧ applyFinalScores [knocker; opponent40] 0 [] !! 1%nat
    = Some (Player.set_score 40 opponent40)
  ∧ applyFinalScores [knocker; opponent2] 0 [] !! 0%nat
    = Some (Player.set_score 6 knocker)
  ∧ applyFinalScores [knocker; opponent2] 0 [] !! 1%nat = Some opponent2
  ∧ applyFinalScores [knocker; opponent9] 0 nineOfHearts !! 1%nat
    = Some (Player.set_score 39 opponent9).
Proof.
  destruct (applyFinalScores_correct [knocker; opponent40] 0 [])
    as (_ & Hiff1 & _ & _ & Hown1).
  destruct (applyFinalScores_correct [knocker; opponent2] 0 [])
    as (_ & Hiff2 & _ & Hall2 & _).
  destruct (applyFinalScores_correct [knocker; opponent9] 0 nineOfHearts)
    as (_ & Hiff3 & _ & _ & Hown3).
  assert (¬ undercuts (map (adjustedTotal []) [knocker; opponent40]) 0) as N1.
  { intros U. apply Hiff1 in U. vm_compute in U. discriminate U. }
  assert (undercuts (map (adjustedTotal []) [knocker; opponent2]) 0) as U2.
  { apply Hiff2. vm_compute. reflexivity. }
  assert (¬ undercuts (map (adjustedTotal nineOfHearts) [knocker; opponent9]) 0)
    as N3.
  { intros U. apply Hiff3 in U. vm_compute in U. discriminate U. }
  split; [exact (Hown1 N1 0%nat knocker eq_refl)|].
  split; [exact (Hown1 N1 1%nat opponent40 eq_refl)|].
  split; [exact (Hall2 U2 0%nat knocker eq_refl)|].
  split; [exact (Hall2 U2 1%nat opponent2 eq_refl)|].
  exact (Hown3 N3 1%nat opponent9 eq_refl).
Defined.

(* ------------------------------------------------------------------ *)
(** ** The playability predicate *)

(** On the board of a new round no suit has its seven, and the predicate
    still answers [true] for a joker: the equivalence of C2 fails. *)
Lemma canPlayOnBoard_joker_no_seven :
  ¬ (canPlayOnBoard aJoker initialSequences = true
     ↔ ∃ s : Suit.t,
         BoardSequence.hasSeven (Sequences.get initialSequences s) = true).
Proof.
  intros [H _]. destruct (H eq_refl) as [s Hs]. by destruct s.
Qed.

(** C2, amended. For every board and every wild card [canPlayOnBoard]
    answers [true], whether or not a suit has its seven. *)
Theorem canPlayOnBoard_joker (card : Card.t) (sequences : Sequences.t) :
  Card.isJoker card = true → canPlayOnBoard card sequences = true.
Proof. intros H. unfold canPlayOnBoard. by rewrite H. Qed.

Lemma canPlayOnBoard_joker_witness :
  Card.isJoker aJoker = true
  ∧ canPlayOnBoard aJoker initialSequences = true.
Proof.
  split; [reflexivity|].
  apply (canPlayOnBoard_joker aJoker initialSequences). reflexivity.
Defined.

(** The play path of the human player is where the board is asked for a
    suit with its seven: without one a single joker stays in the hand. *)
Lemma playSingle_joker_needs_seven (a : App.t) (gameState : GameState.t)
    (player : Player.t) (card : Card.t) :
  Card.isJoker card = true →
  suitsWithSeven (GameState.boardSequences gameState) = [] →
  playSingle a gameState player card
  = Ok (addLog "Jokers cannot be played as 7s. No sequences to extend." a).
Proof. intros Hj Hs. unfold playSingle. by rewrite Hj, Hs. Qed.

(** C4. For a card that is not wild: a seven is playable exactly when its
    suit has no seven yet, and a card of any other rank exactly when its
    suit has its seven and the sort value of the card is [high + 1] or
    [low - 1] of that suit. *)
Theorem canPlayOnBoard_natural (card : Card.t) (sequences : Sequences.t) :
  Card.isJoker card = false →
  let seq := Sequences.get sequences (Card.suit card) in
  (Card.rank card = Rank.SEVEN →
     (canPlayOnBoard card sequences = true
      ↔ BoardSequence.hasSeven seq = false))
  ∧ (Card.rank card ≠ Rank.SEVEN →
       (canPlayOnBoard card sequences = true
        ↔ BoardSequence.hasSeven seq = true
          ∧ (Card.sortValue card = BoardSequence.high seq + 1
             ∨ Card.sortValue card = BoardSequence.low seq - 1))).
Proof.
  intros Hj seq. unfold canPlayOnBoard. rewrite Hj. fold seq. split.
  - intros Hr. rewrite bool_decide_eq_true_2 by done.
    by destruct (BoardSequence.hasSeven seq).
  - intros Hr. rewrite bool_decide_eq_false_2 by done.
    destruct (BoardSequence.hasSeven seq); simpl.
    + rewrite orb_true_iff, !Z.eqb_eq. tauto.
    + split; [done|]. by intros [? _].
Qed.

Lemma canPlayOnBoard_natural_witness :
  Card.isJoker heart8 = false
  ∧ canPlayOnBoard heart8 heartsOpen = true
  ∧ (canPlayOnBoard heart7 heartsOpen = true → False).
Proof.
  split; [reflexivity|].
  destruct (canPlayOnBoard_natural heart8 heartsOpen eq_refl) as [_ H8].
  destruct (canPlayOnBoard_natural heart7 heartsOpen eq_refl) as [H7 _].
  split.
  - apply H8; [discriminate|]. split; [reflexivity|]. left. reflexivity.
  - intros H. apply H7 in H; [discriminate H|reflexivity].
Defined.

(* ------------------------------------------------------------------ *)
(** ** The sequences of the board *)

Lemma get_set_eq (s : Suit.t) (v : BoardSequence.t) (m : Sequences.t) :
  Sequences.get (Sequences.set s v m) s = v.
Proof. by destruct s. Qed.

Lemma get_set_ne (s s' : Suit.t) (v : BoardSequence.t) (m : Sequences.t) :
  s ≠ s' → Sequences.get (Sequences.set s v m) s' = Sequences.get m s'.
Proof. by destruct s, s'. Qed.

Lemma in_SUITS (s : Suit.t) : s ∈ SUITS ↔ s ≠ Suit.JOKER.
Proof.
  unfold SUITS. rewrite !elem_of_cons, elem_of_nil.
  destruct s; split; try done; intros; try tauto.
  intuition discriminate.
Qed.

Lemma suitsWithSeven_spec (sequences : Sequences.t) (s : Suit.t) :
  s ∈ suitsWithSeven sequences
  ↔ s ∈ SUITS ∧ BoardSequence.hasSeven (Sequences.get sequences s) = true.
Proof.
  unfold suitsWithSeven. rewrite !list_elem_of_In, filter_In.
  rewrite andb_true_iff. split.
  - intros [H [_ H']]. done.
  - intros [H H']. repeat split; try done.
    apply list_elem_of_In, in_SUITS in H.
    by apply negb_true_iff, bool_decide_eq_false_2.
Qed.

(** What the two conditional updates do to an entry whose bounds are in
    order: at most one of them fires. *)
Lemma extendBounds_high (val : Z) (seq : BoardSequence.t) :
  BoardSequence.low seq <= BoardSequence.high seq →
  val = BoardSequence.high seq + 1 →
  extendBounds val seq = BoardSequence.set_high val seq.
Proof.
  intros Hle ->. unfold extendBounds. rewrite Z.eqb_refl. simpl.
  destruct (Z.eqb_spec (BoardSequence.high seq + 1) (BoardSequence.low seq - 1));
    [lia|done].
Qed.

Lemma extendBounds_low (val : Z) (seq : BoardSequence.t) :
  BoardSequence.low seq <= BoardSequence.high seq →
  val = BoardSequence.low seq - 1 →
  extendBounds val seq = BoardSequence.set_low val seq.
Proof.
  intros Hle ->. unfold extendBounds.
  destruct (Z.eqb_spec (BoardSequence.low seq - 1) (BoardSequence.high seq + 1));
    [lia|].
  by rewrite Z.eqb_refl.
Qed.

Lemma extendBounds_neither (val : Z) (seq : BoardSequence.t) :
  val ≠ BoardSequence.high seq + 1 →
  val ≠ BoardSequence.low seq - 1 →
  extendBounds val seq = seq.
Proof.
  intros H1 H2. unfold extendBounds.
  apply Z.eqb_neq in H1. rewrite H1. apply Z.eqb_neq in H2. by rewrite H2.
Qed.

Lemma extendBounds_cases (val : Z) (seq : BoardSequence.t) :
  around_seven seq →
  (extended_by_one seq (extendBounds val seq)
   ∧ (val = BoardSequence.high seq + 1 ∨ val = BoardSequence.low seq - 1))
  ∨ (extendBounds val seq = seq
     ∧ val ≠ BoardSequence.high seq + 1 ∧ val ≠ BoardSequence.low seq - 1).
Proof.
  intros [Hl Hh].
  destruct (decide (val = BoardSequence.high seq + 1)) as [H1|H1].
  - left. rewrite extendBounds_high by lia. unfold extended_by_one. simpl.
    split; [|by left]. split; [done|]. left. by split.
  - destruct (decide (val = BoardSequence.low seq - 1)) as [H2|H2].
    + left. rewrite extendBounds_low by lia. unfold extended_by_one. simpl.
      split; [|by right]. split; [done|]. right. by split.
    + right. by rewrite extendBounds_neither.
Qed.

Lemma extendBounds_around_seven (val : Z) (seq : BoardSequence.t) :
  around_seven seq → around_seven (extendBounds val seq).
Proof.
  intros H. destruct (extendBounds_cases val seq H) as [[[_ E] _]|[-> _]];
    [|done].
  unfold around_seven in *. lia.
Qed.

Lemma RANKS_at_sortValue (i : Z) (r : Rank.t) :
  RANKS_at i = Some r → 0 <= i <= 12 ∧ getSortValue r = i + 1.
Proof.
  unfold RANKS_at. destruct (Z.ltb_spec i 0) as [|Hi]; [done|].
  destruct (decide (i <= 12)) as [Hle|Hgt].
  - assert (i = 0 ∨ i = 1 ∨ i = 2 ∨ i = 3 ∨ i = 4 ∨ i = 5 ∨ i = 6 ∨ i = 7
            ∨ i = 8 ∨ i = 9 ∨ i = 10 ∨ i = 11 ∨ i = 12) as Hc by lia.
    intros H. split; [lia|].
    repeat (destruct Hc as [->|Hc]; [by injection H as <-|]).
    subst i. by injection H as <-.
  - intros H. apply lookup_lt_Some in H. simpl in H. lia.
Qed.

(** A natural card on a suit that has its seven: the play is accepted
    exactly as an extension by one. *)
Lemma placeCard_extension (c : Card.t) (sequences sequences' : Sequences.t) :
  Card.isJoker c = false →
  BoardSequence.hasSeven (Sequences.get sequences (Card.suit c)) = true →
  around_seven (Sequences.get sequences (Card.suit c)) →
  placeCard c sequences = Some sequences' →
  sequences'
  = Sequences.set (Card.suit c)
      (extendBounds (Card.sortValue c) (Sequences.get sequences (Card.suit c)))
      sequences
  ∧ extended_by_one (Sequences.get sequences (Card.suit c))
      (extendBounds (Card.sortValue c) (Sequences.get sequences (Card.suit c))).
Proof.
  intros Hj H7 Hinv. unfold placeCard. rewrite H7, andb_false_r.
  destruct (canPlayOnBoard c sequences) eqn:Hplay; [|done].
  intros [= <-]. split; [done|].
  unfold canPlayOnBoard in Hplay. rewrite Hj, H7 in Hplay.
  destruct (bool_decide (Card.rank c = Rank.SEVEN)); [done|]. simpl in Hplay.
  apply orb_true_iff in Hplay. rewrite !Z.eqb_eq in Hplay.
  destruct (extendBounds_cases (Card.sortValue c) _ Hinv) as [[E _]|[_ [N1 N2]]];
    [done|tauto].
Qed.

(** The joker of the bot: the suit it lands on is one of [validSuits], is
    the suit of the declaration, and its entry is extended by one. *)
Lemma placeJokerOn_extension (c : Card.t) (validSuits : list Suit.t)
    (sequences sequences' : Sequences.t) (decl : JokerDeclaration.t) :
  (∀ s, s ∈ validSuits → around_seven (Sequences.get sequences s)) →
  placeJokerOn c validSuits sequences = Some (sequences', decl) →
  ∃ (s : Suit.t) (after : BoardSequence.t),
    s ∈ validSuits
    ∧ JokerDeclaration.representedSuit decl = s
    ∧ JokerDeclaration.representedRank decl ≠ Rank.SEVEN
    ∧ sequences' = Sequences.set s after sequences
    ∧ extended_by_one (Sequences.get sequences s) after.
Proof.
  induction validSuits as [|suit rest IH]; intros Hinv; simpl; [done|].
  assert (∀ s, s ∈ rest → around_seven (Sequences.get sequences s)) as Hrest.
  { intros s Hs. apply Hinv. by right. }
  assert (placeJokerOn c rest sequences = Some (sequences', decl) →
          ∃ s after, s ∈ suit :: rest
            ∧ JokerDeclaration.representedSuit decl = s
            ∧ JokerDeclaration.representedRank decl ≠ Rank.SEVEN
            ∧ sequences' = Sequences.set s after sequences
            ∧ extended_by_one (Sequences.get sequences s) after) as Hnext.
  { intros H. destruct (IH Hrest H) as (s & after & Hs & Hrem).
    exists s, after. split; [by right|done]. }
  destruct (Hinv suit (list_elem_of_here _ _)) as [Hl Hh].
  set (seq := Sequences.get sequences suit) in *.
  destruct (Z.ltb_spec (BoardSequence.high seq) 13) as [H13|H13].
  - destruct (RANKS_at (BoardSequence.high seq)) as [r|] eqn:Hr; [|done].
    apply RANKS_at_sortValue in Hr as [_ Hsv].
    destruct (decide (r = Rank.SEVEN)) as [->|Hne].
    { rewrite bool_decide_eq_true_2 by done. done. }
    rewrite bool_decide_eq_false_2 by done. simpl.
    intros [= <- <-]. eexists suit, _. split; [by left|].
    split; [done|]. split; [done|]. split; [done|].
    rewrite Hsv. destruct (Z.ltb_spec (BoardSequence.high seq)
                             (BoardSequence.high seq + 1)); [|lia].
    unfold extended_by_one. simpl. split; [done|]. left. subst seq. lia.
  - destruct (Z.ltb_spec 1 (BoardSequence.low seq)) as [H1|H1]; [|done].
    destruct (RANKS_at (BoardSequence.low seq - 2)) as [r|] eqn:Hr; [|done].
    apply RANKS_at_sortValue in Hr as [_ Hsv].
    destruct (decide (r = Rank.SEVEN)) as [->|Hne].
    { rewrite bool_decide_eq_true_2 by done. done. }
    rewrite bool_decide_eq_false_2 by done. simpl.
    intros [= <- <-]. eexists suit, _. split; [by left|].
    split; [done|]. split; [done|]. split; [done|].
    rewrite Hsv. destruct (Z.ltb_spec (BoardSequence.high seq)
                             (BoardSequence.low seq - 2 + 1)); [lia|].
    unfold extended_by_one. simpl. split; [done|]. right. subst seq. lia.
Qed.

Lemma board_ok_set (s : Suit.t) (v : BoardSequence.t) (m : Sequences.t) :
  board_ok m → (s ∈ SUITS → around_seven v) → board_ok (Sequences.set s v m).
Proof.
  intros Hm Hv s' Hs'. destruct (decide (s = s')) as [<-|Hne].
  - rewrite get_set_eq. by apply Hv.
  - rewrite get_set_ne by done. by apply Hm.
Qed.

Lemma board_ok_initial : board_ok initialSequences.
Proof.
  intros s Hs. apply in_SUITS in Hs.
  destruct s; try done; unfold around_seven; simpl; lia.
Qed.

Lemma board_ok_placeCard (c : Card.t) (sequences sequences' : Sequences.t) :
  board_ok sequences → placeCard c sequences = Some sequences' →
  board_ok sequences'.
Proof.
  intros Hok. unfold placeCard.
  destruct (_ && _).
  - intros [= <-]. apply board_ok_set; [done|]. intros Hs. by apply Hok.
  - destruct (canPlayOnBoard c sequences); [|done].
    intros [= <-]. apply board_ok_set; [done|]. intros Hs.
    apply extendBounds_around_seven. by apply Hok.
Qed.

Lemma board_ok_placeJoker (c : Card.t) (sequences sequences' : Sequences.t)
    (decl : JokerDeclaration.t) :
  board_ok sequences → placeJoker c sequences = Some (sequences', decl) →
  board_ok sequences'.
Proof.
  intros Hok H. apply placeJokerOn_extension in H.
  - destruct H as (s & after & Hs & _ & _ & -> & [_ E]).
    apply suitsWithSeven_spec in Hs as [Hs _].
    apply board_ok_set; [done|]. intros _.
    specialize (Hok s Hs). unfold around_seven in *. lia.
  - intros s Hs. apply suitsWithSeven_spec in Hs as [Hs _]. by apply Hok.
Qed.

Lemma board_ok_declare (declaredSuit : Suit.t) (declaredRank : Rank.t)
    (sequences : Sequences.t) :
  board_ok sequences →
  board_ok (declareOnBoard declaredSuit declaredRank sequences).
Proof.
  intros Hok. apply board_ok_set; [done|]. intros Hs.
  apply extendBounds_around_seven. by apply Hok.
Qed.

(** Every board of a round keeps the seven between the bounds of each
    suit. *)
Lemma reachable_board_ok (sequences : Sequences.t) :
  reachable sequences → board_ok sequences.
Proof.
  induction 1 as [|c m m' _ IH _ Hp|c m m' decl _ IH Hp|suit r m _ IH _].
  - apply board_ok_initial.
  - by apply (board_ok_placeCard c m).
  - by apply (board_ok_placeJoker c m m' decl).
  - by apply board_ok_declare.
Qed.

(** An accepted extension of suit [s] changes the entry of [s] alone, and
    moves one bound of it out by one. *)
Lemma accepted_extension_by_one (sequences sequences' : Sequences.t)
    (s : Suit.t) :
  board_ok sequences → s ∈ SUITS →
  BoardSequence.hasSeven (Sequences.get sequences s) = true →
  accepted_extension sequences s sequences' →
  ∃ after : BoardSequence.t,
    sequences' = Sequences.set s after sequences
    ∧ extended_by_one (Sequences.get sequences s) after.
Proof.
  intros Hok Hs H7 Hext.
  destruct Hext as [c m' Hj Hsuit Hp|c m' decl Hp Hsuit|r Hr Hlegal].
  - subst s. destruct (placeCard_extension c sequences m' Hj H7 (Hok _ Hs) Hp)
      as [-> E]. eauto.
  - apply placeJokerOn_extension in Hp.
    + destruct Hp as (s' & after & _ & Hs' & _ & -> & E).
      rewrite Hsuit in Hs'. subst s'. eauto.
    + intros s' Hs'. apply suitsWithSeven_spec in Hs' as [Hs' _]. by apply Hok.
  - unfold declareOnBoard. eexists. split; [done|].
    destruct (extendBounds_cases (getSortValue r) _ (Hok s Hs))
      as [[E _]|[_ [N1 N2]]]; [done|tauto].
Qed.

(** C5. On a board of a round, for a suit that has its seven: after every
    accepted extension by a single card, from the hand of the human
    player or in the loop of the bot, the bounds of the suit still
    enclose the seven, exactly one of the two bounds has changed, and the
    width [high - low] has grown by exactly 1; the other suits are as
    they were. *)
Theorem extension_invariant (sequences sequences' : Sequences.t)
    (s : Suit.t) :
  reachable sequences →
  s ∈ SUITS →
  BoardSequence.hasSeven (Sequences.get sequences s) = true →
  accepted_extension sequences s sequences' →
  let before := Sequences.get sequences s in
  let after := Sequences.get sequences' s in
  BoardSequence.low after <= 7 <= BoardSequence.high after
  ∧ BoardSequence.hasSeven after = true
  ∧ ((BoardSequence.high after = BoardSequence.high before + 1
      ∧ BoardSequence.low after = BoardSequence.low before)
     ∨ (BoardSequence.low after = BoardSequence.low before - 1
        ∧ BoardSequence.high after = BoardSequence.high before))
  ∧ BoardSequence.high after - BoardSequence.low after
    = BoardSequence.high before - BoardSequence.low before + 1
  ∧ (∀ s' : Suit.t, s' ≠ s →
       Sequences.get sequences' s' = Sequences.get sequences s').
Proof.
  intros Hreach Hs H7 Hext before after.
  pose proof (reachable_board_ok _ Hreach) as Hok.
  destruct (accepted_extension_by_one _ _ _ Hok Hs H7 Hext)
    as (v & -> & [E7 E]).
  subst before after. rewrite get_set_eq.
  destruct (Hok s Hs) as [Hl Hh].
  split; [lia|]. split; [congruence|]. split; [done|]. split; [lia|].
  intros s' Hne. by rewrite get_set_ne.
Qed.

Lemma extension_invariant_witness :
  reachable heartsOpen
  ∧ Suit.HEARTS ∈ SUITS
  ∧ BoardSequence.hasSeven (Sequences.get heartsOpen Suit.HEARTS) = true
  ∧ accepted_extension heartsOpen Suit.HEARTS heartsEight
  ∧ BoardSequence.high (Sequences.get heartsEight Suit.HEARTS)
    - BoardSequence.low (Sequences.get heartsEight Suit.HEARTS)
    = BoardSequence.high (Sequences.get heartsOpen Suit.HEARTS)
      - BoardSequence.low (Sequences.get heartsOpen Suit.HEARTS) + 1.
Proof.
  assert (reachable heartsOpen) as Hr.
  { apply (reach_placeCard heart7 initialSequences); [constructor|done|done]. }
  assert (Suit.HEARTS ∈ SUITS) as Hs by (by left).
  assert (accepted_extension heartsOpen Suit.HEARTS heartsEight) as He.
  { by apply (ext_natural _ _ heart8). }
  repeat (split; [done|]).
  destruct (extension_invariant heartsOpen heartsEight Suit.HEARTS
              Hr Hs eq_refl He) as (_ & _ & _ & Hw & _).
  exact Hw.
Defined.

(* ------------------------------------------------------------------ *)
(** ** The greedy loop of the bot *)

Lemma includes_spec (l : list string) (x : string) :
  includes l x = true ↔ x ∈ l.
Proof.
  unfold includes. rewrite existsb_exists. setoid_rewrite <- list_elem_of_In.
  split.
  - intros (y & Hy & E). apply bool_decide_eq_true in E. by subst.
  - intros H. exists x. split; [done|]. by apply bool_decide_eq_true.
Qed.

Lemma filter_sublist {A : Type} (f : A → bool) (l : list A) :
  List.filter f l `sublist_of` l.
Proof.
  induction l as [|x l IH]; simpl; [constructor|].
  destruct (f x); by constructor.
Qed.

Lemma sublist_filter_length {A : Type} (f : A → bool) (l1 l2 : list A) :
  l1 `sublist_of` l2 → Forall (fun x => f x = true) l1 →
  (length l1 <= length (List.filter f l2))%nat.
Proof.
  induction 1 as [|x l1 l2 _ IH|x l1 l2 _ IH]; intros HF; simpl.
  - lia.
  - apply Forall_cons in HF as [Hx HF]. rewrite Hx. simpl.
    specialize (IH HF). lia.
  - specialize (IH HF). destruct (f x); simpl; lia.
Qed.

Lemma filter_split_length {A : Type} (f : A → bool) (l : list A) :
  (length (List.filter f l) + length (List.filter (fun x => negb (f x)) l)
   = length l)%nat.
Proof.
  induction l as [|x l IH]; simpl; [done|].
  destruct (f x); simpl; lia.
Qed.

(** Melding takes at least the three cards of the meld out of the hand. *)
Lemma meld_shrinks (hand : list Card.t) (r : Rank.t) :
  findMeld hand = Some r →
  let meldCards := take 3 (rankCounts hand r) in
  let idsToRemove := map Card.id meldCards in
  length meldCards = 3%nat
  ∧ (length (List.filter (fun c => negb (includes idsToRemove (Card.id c))) hand)
     + 3 <= length hand)%nat.
Proof.
  intros Hf meldCards idsToRemove.
  apply find_some in Hf as [_ H3]. apply Nat.leb_le in H3.
  assert (length meldCards = 3%nat) as Hlen.
  { subst meldCards. rewrite length_take. lia. }
  split; [done|].
  pose proof (filter_split_length
                (fun c => includes idsToRemove (Card.id c)) hand) as Hsplit.
  assert (length meldCards
          <= length (List.filter
                       (fun c => includes idsToRemove (Card.id c)) hand))%nat.
  { apply sublist_filter_length.
    - subst meldCards. etrans; [apply sublist_take|apply filter_sublist].
    - apply Forall_forall. intros c Hc. apply includes_spec.
      subst idsToRemove. change (map ?f ?l) with (f <$> l).
      by apply list_elem_of_fmap_2. }
  lia.
Qed.

Lemma scanHand_index (botName : string) (i0 : nat) (cards : list Card.t)
    (sequences : Sequences.t) (i : nat)
    (r : Sequences.t * option JokerDeclaration.t * string) :
  scanHand botName i0 cards sequences = Some (i, r) →
  (i0 <= i < i0 + length cards)%nat.
Proof.
  revert i0. induction cards as [|c rest IH]; intros i0; simpl; [done|].
  destruct (tryCard botName c sequences).
  - intros [= <- _]. lia.
  - intros H. apply IH in H. lia.
Qed.

(** A pass that plays makes the hand strictly shorter and counts one
    move. *)
Lemma botStep_shrinks (botName : string) (st st' : BotLoop.t) :
  botStep botName st = Some st' →
  (length (BotLoop.newHand st') < length (BotLoop.newHand st))%nat
  ∧ BotLoop.movesMade st' = (BotLoop.movesMade st + 1)%nat.
Proof.
  unfold botStep.
  destruct (findMeld (BotLoop.newHand st)) as [r|] eqn:Hm.
  - intros [= <-]. simpl. split; [|done].
    destruct (meld_shrinks _ _ Hm) as [_ H]. lia.
  - destruct (scanHand botName 0 (BotLoop.newHand st) (BotLoop.newSequences st))
      as [[i [[m d] msg]]|] eqn:Hs; [|done].
    intros [= <-]. simpl. split; [|done].
    apply scanHand_index in Hs.
    rewrite length_delete by (apply lookup_lt_is_Some; lia). lia.
Qed.

Lemma botLoop_runs (botName : string) (fuel : nat) (st : BotLoop.t) :
  (length (BotLoop.newHand st) < fuel)%nat →
  ∃ st' : BotLoop.t,
    botLoop fuel botName st = Ok st'
    ∧ botStep botName st' = None
    ∧ (BotLoop.movesMade st <= BotLoop.movesMade st')%nat
    ∧ (BotLoop.movesMade st' - BotLoop.movesMade st
       + length (BotLoop.newHand st') <= length (BotLoop.newHand st))%nat
    ∧ botPasses fuel botName st
      = S (BotLoop.movesMade st' - BotLoop.movesMade st).
Proof.
  revert st. induction fuel as [|fuel IH]; intros st Hlt; [lia|]. simpl.
  destruct (botStep botName st) as [st1|] eqn:Hstep.
  - destruct (botStep_shrinks _ _ _ Hstep) as [Hlen Hmoves].
    destruct (IH st1) as (st' & Hrun & Hstop & Hle & Hsum & Hpass); [lia|].
    exists st'. rewrite Hrun, Hpass. repeat split; try done; lia.
  - exists st. rewrite Nat.sub_diag. repeat split; try done; lia.
Qed.

(** The bound of C9 as it is worded fails: the loop makes a last pass
    that plays nothing, so on an empty hand it makes one pass, which is
    more than the hand has cards; and on the two cards of the sample bot,
    both of which it plays, it makes three. *)
Lemma botLoop_passes_exceed_hand :
  botLoop 1 "Bot 1" (BotLoop.mk [] [] initialSequences [] 0 (sampleApp 1))
  = Ok (BotLoop.mk [] [] initialSequences [] 0 (sampleApp 1))
  ∧ ¬ (botPasses 1 "Bot 1"
         (BotLoop.mk [] [] initialSequences [] 0 (sampleApp 1))
       <= length
            (BotLoop.newHand
               (BotLoop.mk [] [] initialSequences [] 0 (sampleApp 1))))%nat
  ∧ ¬ (botPasses 3 "Bot 1"
         (BotLoop.mk [heart7; heart8] [] initialSequences [] 0 (sampleApp 1))
       <= length
            (BotLoop.newHand
               (BotLoop.mk [heart7; heart8] [] initialSequences [] 0
                  (sampleApp 1))))%nat.
Proof.
  split; [reflexivity|]. split; vm_compute; lia.
Qed.

(** C9, amended. The greedy loop of the bot terminates, whatever the hand
    and the board: every pass that makes a play (a meld, a single card or
    a joker) leaves the hand strictly shorter, the loop stops at the
    first pass that plays nothing, and so the passes that play are at
    most as many as the cards of the initial hand; the passes in all are
    one more than those that play, the last one finding nothing to play,
    and so at most the size of the initial hand plus one. *)
Theorem botLoop_terminates (botName : string) (st : BotLoop.t) (extra : nat) :
  let n := length (BotLoop.newHand st) in
  (∀ st1 st2 : BotLoop.t,
     botStep botName st1 = Some st2 →
     (length (BotLoop.newHand st2) < length (BotLoop.newHand st1))%nat)
  ∧ ∃ st' : BotLoop.t,
      botLoop (S n + extra) botName st = Ok st'
      ∧ botStep botName st' = None
      ∧ (BotLoop.movesMade st' - BotLoop.movesMade st
         + length (BotLoop.newHand st') <= n)%nat
      ∧ (BotLoop.movesMade st' - BotLoop.movesMade st <= n)%nat
      ∧ botPasses (S n + extra) botName st
        = S (BotLoop.movesMade st' - BotLoop.movesMade st)
      ∧ (botPasses (S n + extra) botName st <= S n)%nat.
Proof.
  intros n. split.
  - intros st1 st2 H. by apply botStep_shrinks in H as [H _].
  - destruct (botLoop_runs botName (S n + extra) st) as
      (st' & Hrun & Hstop & Hle & Hsum & Hpass); [subst n; lia|].
    exists st'. fold n in Hsum. rewrite Hpass.
    repeat split; try done; lia.
Qed.

(** The bot of the sample game plays the seven and the eight of hearts
    in two passes and stops at the third. *)
Lemma botLoop_terminates_witness :
  ∃ st' : BotLoop.t,
    botLoop 3 "Bot 1"
      (BotLoop.mk [heart7; heart8] [] initialSequences [] 0 (sampleApp 1))
    = Ok st'
    ∧ BotLoop.newHand st' = []
    ∧ BotLoop.newSequences st' = heartsEight
    ∧ BotLoop.movesMade st' = 2%nat
    ∧ botPasses 3 "Bot 1"
        (BotLoop.mk [heart7; heart8] [] initialSequences [] 0 (sampleApp 1))
      = 3%nat.
Proof.
  destruct (botLoop_terminates "Bot 1"
              (BotLoop.mk [heart7; heart8] [] initialSequences [] 0
                 (sampleApp 1)) 0)
    as [_ (st' & Hrun & _ & _ & _ & Hpass & _)].
  exists st'. split; [exact Hrun|].
  vm_compute in Hrun. injection Hrun as <-.
  repeat split.
Defined.

(** The bot turn never runs out of passes. *)
Lemma botLoop_enough (botName : string) (st : BotLoop.t) :
  ∃ st' : BotLoop.t,
    botLoop (S (length (BotLoop.newHand st))) botName st = Ok st'
    ∧ botStep botName st' = None.
Proof.
  destruct (botLoop_runs botName (S (length (BotLoop.newHand st))) st)
    as (st' & Hrun & Hstop & _); [lia|]. eauto.
Qed.

(* ------------------------------------------------------------------ *)
(** ** Knocking *)

Lemma handPoints_nil : calculateHandPoints [] = 0.
Proof. reflexivity. Qed.

Lemma discard_scan (l : list Card.t) (g : nat → nat) (bound : nat)
    (acc : nat * Z) :
  (acc.1 < bound)%nat →
  (∀ i : nat, (i < length l)%nat → (g i < bound)%nat) →
  ((fold_left
      (fun '(discardIndex, maxVal) '(i, c) =>
         if (maxVal <? Card.value c)%Z then (i, Card.value c)
         else (discardIndex, maxVal))
      (imap (fun i c => (g i, c)) l) acc).1 < bound)%nat.
Proof.
  revert g acc. induction l as [|c l IH]; intros g [ai av] Hacc Hg; simpl;
    [done|].
  apply (IH (g ∘ S)).
  - destruct (av <? Card.value c); simpl; [|done]. apply Hg. simpl. lia.
  - intros i Hi. apply Hg. simpl. lia.
Qed.

Lemma pickDiscardIndex_lt (hand : list Card.t) :
  hand ≠ [] → (pickDiscardIndex hand < length hand)%nat.
Proof.
  intros Hne. unfold pickDiscardIndex.
  change (imap pair hand) with (imap (fun i c => (id i, c)) hand).
  apply discard_scan; simpl.
  - destruct hand; [done|simpl; lia].
  - done.
Qed.

Lemma mapPlayer_scores (idx : nat) (f : Player.t → Player.t)
    (players : list Player.t) :
  (∀ p, Player.score (f p) = Player.score p) →
  map Player.score (mapPlayer idx f players) = map Player.score players.
Proof.
  intros Hf. unfold mapPlayer. change (map ?g ?l) with (g <$> l).
  apply list_eq. intros i. rewrite !list_lookup_fmap, list_lookup_imap.
  destruct (players !! i) as [p|]; simpl; [|done].
  destruct (i =? idx)%nat; by rewrite ?Hf.
Qed.

Lemma sortBySortValue_length (cards : list Card.t) :
  length (sortBySortValue cards) = length cards.
Proof.
  assert (∀ c l, length (insertBySortValue c l) = S (length l)) as Hins.
  { intros c l. induction l as [|d l IH]; simpl; [done|].
    destruct (_ <=? _); simpl; by rewrite ?IH. }
  induction cards as [|c l IH]; simpl; [done|]. by rewrite Hins, IH.
Qed.

Lemma handleKnock_rejected (a : App.t) (gs : GameState.t) (player : Player.t) :
  App.gameState a = Some gs →
  GameState.isTutorial gs = false →
  GameState.players gs !! 0%nat = Some player →
  5 < calculateHandPoints (Player.hand player) →
  handleKnock a
  = Ok (addLog ("Cannot knock! You have "
                  +:+ pretty (calculateHandPoints (Player.hand player))
                  +:+ " points.") a).
Proof.
  intros Hgs Ht Hp Hpts. unfold handleKnock. rewrite Hgs, Hp, Ht.
  destruct (Z.ltb_spec 5 (calculateHandPoints (Player.hand player))); [done|lia].
Qed.

Lemma handleKnock_accepted (a : App.t) (gs : GameState.t) (player : Player.t) :
  App.gameState a = Some gs →
  GameState.isTutorial gs = false →
  GameState.players gs !! 0%nat = Some player →
  calculateHandPoints (Player.hand player) <= 5 →
  ∃ (a' : App.t) (gs' : GameState.t),
    handleKnock a = Ok a'
    ∧ App.gameState a' = Some gs'
    ∧ GameState.turnPhase gs' = ROUND_OVER
    ∧ GameState.players gs'
      = applyFinalScores (GameState.players gs) 0
          (GameState.jokerDeclarations gs).
Proof.
  intros Hgs Ht Hp Hpts. unfold handleKnock. rewrite Hgs, Hp, Ht.
  destruct (Z.ltb_spec 5 (calculateHandPoints (Player.hand player))); [lia|].
  unfold processRoundEnd. rewrite Hgs, Hp.
  eexists _, _. split; [done|]. simpl. rewrite Hgs. simpl. done.
Qed.

Lemma logs_only_refl (a : App.t) (gs : GameState.t) :
  App.gameState a = Some gs → logs_only a a.
Proof.
  intros H. exists (GameState.logs gs). destruct a as [g ? ? ? ? ? ? ?].
  simpl in H. subst g. by destruct gs.
Qed.

Lemma logs_only_addLog (msg : string) (a b : App.t) :
  logs_only a b → logs_only a (addLog msg b).
Proof.
  intros [l ->]. destruct a as [[gs|] ? ? ? ? ? ? ?].
  - by eexists.
  - by exists [].
Qed.

Lemma botStep_logs_only (botName : string) (a : App.t) (st st' : BotLoop.t) :
  botStep botName st = Some st' →
  logs_only a (BotLoop.app st) → logs_only a (BotLoop.app st').
Proof.
  unfold botStep. intros H Hl.
  destruct (findMeld _).
  - injection H as <-. by apply logs_only_addLog.
  - destruct (scanHand _ _ _ _) as [[i [[m d] msg]]|]; [|done].
    injection H as <-. by apply logs_only_addLog.
Qed.

Lemma botLoop_logs_only (botName : string) (a : App.t) (fuel : nat)
    (st st' : BotLoop.t) :
  botLoop fuel botName st = Ok st' →
  logs_only a (BotLoop.app st) → logs_only a (BotLoop.app st').
Proof.
  revert st. induction fuel as [|fuel IH]; intros st; simpl; [done|].
  destruct (botStep botName st) as [st1|] eqn:Hs.
  - intros H Hl. apply (IH st1 H). by apply (botStep_logs_only botName a st).
  - by intros [= <-].
Qed.

(** The turn of the bot proper, from the state its loop ends in. *)
Lemma normalBot_knocks (a : App.t) (gs : GameState.t) (bot : Player.t) :
  GameState.players gs !! GameState.currentPlayerIndex gs = Some bot →
  App.gameState a = Some gs →
  ∃ (st : BotLoop.t) (a' : App.t) (gs' : GameState.t),
    botLoop (S (length (Player.hand bot))) (Player.name bot)
      (BotLoop.mk (Player.hand bot) (Player.melds bot)
         (GameState.boardSequences gs) (GameState.jokerDeclarations gs) 0 a)
    = Ok st
    ∧ normalBot a gs = Ok a'
    ∧ App.gameState a' = Some gs'
    ∧ (calculateHandPoints (BotLoop.newHand st) <= 5 →
         GameState.turnPhase gs' = ROUND_OVER
         ∧ GameState.players gs'
           = applyFinalScores
               (mapPlayer (GameState.currentPlayerIndex gs)
                  (fun p =>
                     Player.set_melds (BotLoop.newMelds st)
                       (Player.set_hand (BotLoop.newHand st) p))
                  (GameState.players gs))
               (GameState.currentPlayerIndex gs)
               (BotLoop.newJokerDeclarations st))
    ∧ (5 < calculateHandPoints (BotLoop.newHand st) →
         GameState.turnPhase gs' = GameState.turnPhase gs
         ∧ map Player.score (GameState.players gs')
           = map Player.score (GameState.players gs)
         ∧ App.roundSummary a' = App.roundSummary a).
Proof.
  intros Hbot Hgs.
  set (st0 := BotLoop.mk (Player.hand bot) (Player.melds bot)
                (GameState.boardSequences gs) (GameState.jokerDeclarations gs)
                0 a).
  destruct (botLoop_enough (Player.name bot) st0) as (st & Hrun & _).
  change (BotLoop.newHand st0) with (Player.hand bot) in Hrun.
  assert (logs_only a (BotLoop.app st)) as [l Happ].
  { apply (botLoop_logs_only _ a _ st0 st Hrun). by apply (logs_only_refl a gs). }
  exists st. unfold normalBot. rewrite Hbot. fold st0. rewrite Hrun.
  destruct (Z.leb_spec (calculateHandPoints (BotLoop.newHand st)) 5) as [Hle|Hgt].
  - eexists _, _. split; [done|]. split; [done|].
    rewrite Happ. destruct a as [g ? ? ? ? ? ? ?]. simpl in Hgs. subst g.
    simpl. split; [done|]. split; [done|]. lia.
  - assert (BotLoop.newHand st ≠ []) as Hne.
    { intros E. rewrite E, handPoints_nil in Hgt. lia. }
    destruct (GameState.deck gs) as [|drawn deck'] eqn:Hdeck.
    + destruct (lookup_lt_is_Some_2 (BotLoop.newHand st)
                  (pickDiscardIndex (BotLoop.newHand st))
                  (pickDiscardIndex_lt _ Hne)) as [d Hd].
      rewrite Hd. eexists _, _. split; [done|]. split; [done|].
      rewrite Happ. destruct a as [g ? ? ? ? ? ? ?]. simpl in Hgs. subst g.
      simpl. split; [done|]. split; [lia|]. intros _.
      split; [done|]. split; [|done]. by apply mapPlayer_scores.
    + assert (sortBySortValue (BotLoop.newHand st ++ [drawn]) ≠ []) as Hne'.
      { intros E. apply (f_equal length) in E.
        rewrite sortBySortValue_length, length_app in E. simpl in E. lia. }
      destruct (lookup_lt_is_Some_2 _ _ (pickDiscardIndex_lt _ Hne')) as [d Hd].
      rewrite Hd. eexists _, _. split; [done|]. split; [done|].
      rewrite Happ. destruct a as [g ? ? ? ? ? ? ?]. simpl in Hgs. subst g.
      simpl. split; [done|]. split; [lia|]. intros _.
      split; [done|]. split; [|done]. by apply mapPlayer_scores.
Qed.

(** C7. Outside the tutorial a knock needs hand points, without
    penalties, of at most 5.  The knock of the human player with more
    than 5 points is turned down: only a line is logged, the round goes
    on and no score moves; with at most 5 points the round is scored.
    The bot knocks exactly when the hand it is left with after its plays
    has at most 5 points; otherwise the turn phase and every score stay
    as they were. *)
Theorem knock_eligibility :
  (∀ (a : App.t) (gs : GameState.t) (player : Player.t),
     App.gameState a = Some gs →
     GameState.isTutorial gs = false →
     GameState.players gs !! 0%nat = Some player →
     let points := calculateHandPoints (Player.hand player) in
     (5 < points →
        ∃ (a' : App.t) (gs' : GameState.t),
          handleKnock a = Ok a'
          ∧ a' = addLog ("Cannot knock! You have " +:+ pretty points
                           +:+ " points.") a
          ∧ App.gameState a' = Some gs'
          ∧ GameState.turnPhase gs' = GameState.turnPhase gs
          ∧ GameState.players gs' = GameState.players gs
          ∧ App.roundSummary a' = App.roundSummary a)
     ∧ (points <= 5 →
          ∃ (a' : App.t) (gs' : GameState.t),
            handleKnock a = Ok a'
            ∧ App.gameState a' = Some gs'
            ∧ GameState.turnPhase gs' = ROUND_OVER
            ∧ GameState.players gs'
              = applyFinalScores (GameState.players gs) 0
                  (GameState.jokerDeclarations gs)))
  ∧ (∀ (a : App.t) (gs : GameState.t) (bot : Player.t),
       App.gameState a = Some gs →
       App.gameStarted a = true →
       GameState.isTutorial gs = false →
       GameState.turnPhase gs = ACTION ∨ GameState.turnPhase gs = DISCARD →
       GameState.currentPlayerIndex gs ≠ 0%nat →
       GameState.pendingPong gs = None →
       GameState.players gs !! GameState.currentPlayerIndex gs = Some bot →
       ∃ (st : BotLoop.t) (a' : App.t) (gs' : GameState.t),
         botLoop (S (length (Player.hand bot))) (Player.name bot)
           (BotLoop.mk (Player.hand bot) (Player.melds bot)
              (GameState.boardSequences gs) (GameState.jokerDeclarations gs)
              0 a)
         = Ok st
         ∧ botTurn a = Ok a'
         ∧ App.gameState a' = Some gs'
         ∧ (GameState.turnPhase gs' = ROUND_OVER
            ↔ calculateHandPoints (BotLoop.newHand st) <= 5)
         ∧ (calculateHandPoints (BotLoop.newHand st) <= 5 →
              GameState.players gs'
              = applyFinalScores
                  (mapPlayer (GameState.currentPlayerIndex gs)
                     (fun p =>
                        Player.set_melds (BotLoop.newMelds st)
                          (Player.set_hand (BotLoop.newHand st) p))
                     (GameState.players gs))
                  (GameState.currentPlayerIndex gs)
                  (BotLoop.newJokerDeclarations st))
         ∧ (5 < calculateHandPoints (BotLoop.newHand st) →
              map Player.score (GameState.players gs')
              = map Player.score (GameState.players gs)
              ∧ App.roundSummary a' = App.roundSummary a)).
Proof.
  split.
  - intros a gs player Hgs Ht Hp points. split.
    + intros Hpts. rewrite (handleKnock_rejected a gs player) by done.
      eexists _, _. split; [done|]. split; [done|].
      destruct a as [g ? ? ? ? ? ? ?]. simpl in Hgs. subst g. done.
    + intros Hpts. by apply (handleKnock_accepted a gs player).
  - intros a gs bot Hgs Hstart Ht Hphase Hidx Hpong Hbot.
    destruct (normalBot_knocks a gs bot Hbot Hgs)
      as (st & a' & gs' & Hrun & Hbt & Hgs' & Hknock & Hplay).
    exists st, a', gs'. split; [done|]. split.
    { unfold botTurn. rewrite Hgs, Hstart, Hpong, Ht.
      apply Nat.eqb_neq in Hidx. rewrite Hidx.
      destruct Hphase as [-> | ->]; done. }
    split; [done|]. split; [|split].
    + split.
      * intros Hover.
        destruct (Z.le_gt_cases (calculateHandPoints (BotLoop.newHand st)) 5)
          as [Hle|Hgt]; [done|].
        destruct (Hplay Hgt) as [Hsame _]. rewrite Hover in Hsame.
        destruct Hphase as [E|E]; rewrite E in Hsame; discriminate.
      * intros Hle. by destruct (Hknock Hle).
    + intros Hle. by destruct (Hknock Hle).
    + intros Hgt. by destruct (Hplay Hgt) as (_ & ? & ?).
Qed.

Lemma knock_eligibility_witness :
  (∃ gs' : GameState.t,
     handleKnock (sampleApp 0)
     = Ok (addLog "Cannot knock! You have 40 points." (sampleApp 0))
     ∧ App.gameState (addLog "Cannot knock! You have 40 points." (sampleApp 0))
       = Some gs'
     ∧ GameState.turnPhase gs' = ACTION)
  ∧ (∃ (a' : App.t) (gs' : GameState.t),
       botTurn (sampleApp 1) = Ok a'
       ∧ App.gameState a' = Some gs'
       ∧ GameState.turnPhase gs' = ROUND_OVER).
Proof.
  destruct knock_eligibility as [Hhuman Hbot]. split.
  - destruct (Hhuman (sampleApp 0) (sampleGame 0)
                (Player.mk 0 "You" [heartK; aJoker] true 0 false [])
                eq_refl eq_refl eq_refl) as [Hreject _].
    destruct Hreject as (a' & gs' & Hk & Ha' & Hgs' & Hphase & _).
    { vm_compute. reflexivity. }
    exists gs'. rewrite Hk, Ha' in *. split; [reflexivity|].
    split; [exact Hgs'|exact Hphase].
  - destruct (Hbot (sampleApp 1) (sampleGame 1)
                (Player.mk 1 "Bot 1" [heart7; heart8] false 0 false [])
                eq_refl eq_refl eq_refl (or_introl eq_refl))
      as (st & a' & gs' & Hrun & Hturn & Hgs' & Hiff & _).
    { discriminate. }
    { reflexivity. }
    { reflexivity. }
    exists a', gs'. split; [exact Hturn|]. split; [exact Hgs'|].
    apply Hiff. vm_compute in Hrun. injection Hrun as <-.
    vm_compute. discriminate.
Defined.

(* ------------------------------------------------------------------ *)
(** ** Claiming a discard *)

Lemma indexed_filter {A : Type} (f : A → bool) (l : list A)
    (h : nat → A → nat * A) :
  (∀ i c, (h i c).2 = c) →
  map snd (List.filter (fun ic => f ic.2) (imap h l)) = List.filter f l.
Proof.
  revert h. induction l as [|x l IH]; intros h Hh; simpl; [done|].
  rewrite Hh. destruct (f x); simpl; rewrite ?Hh, IH; try done.
  all: intros i c; apply Hh.
Qed.

Lemma indexed_filter_length {A : Type} (f : A → bool) (l : list A) :
  length (List.filter (fun ic => f ic.2) (imap pair l))
  = length (List.filter f l).
Proof.
  rewrite <- (indexed_filter f l pair) by done. by rewrite length_map.
Qed.

Lemma filter_all {A : Type} (f : A → bool) (l : list A) :
  Forall (fun x => f x = true) (List.filter f l).
Proof.
  apply Forall_forall. intros x Hx.
  apply list_elem_of_In, filter_In in Hx. tauto.
Qed.

Lemma filter_of_all {A : Type} (f : A → bool) (l : list A) :
  Forall (fun x => f x = true) l → List.filter f l = l.
Proof.
  induction 1 as [|x l Hx _ IH]; simpl; [done|]. by rewrite Hx, IH.
Qed.

(** With fewer than two natural matches and a joker in the hand, a joker
    is among the cards that [doPong] takes. *)
Lemma cardsToUse_joker (hand : list Card.t) (discard : Card.t) :
  (length (rankCounts hand (Card.rank discard)) < 2)%nat →
  List.filter (fun c => Card.isJoker c) hand ≠ [] →
  ∃ used : list (nat * Card.t),
    cardsToUse hand discard = Some used
    ∧ (0 < length (List.filter (fun ic => Card.isJoker ic.2) used))%nat.
Proof.
  intros Hnat Hjok. unfold cardsToUse.
  set (naturals := List.filter _ (imap pair hand)).
  set (jokers := List.filter (fun ic => Card.isJoker ic.2) (imap pair hand)).
  assert (length naturals = length (rankCounts hand (Card.rank discard))) as Hn.
  { subst naturals. unfold rankCounts.
    pose proof (indexed_filter_length
                  (fun c : Card.t =>
                     (Card.rank c === Card.rank discard)
                     && negb (Card.isJoker c)) hand) as E.
    etrans; [exact E|].
    f_equal. apply filter_ext. intros c. apply andb_comm. }
  assert (length jokers
          = length (List.filter (fun c => Card.isJoker c) hand)) as Hj.
  { subst jokers. apply (indexed_filter_length (fun c => Card.isJoker c)). }
  assert (Forall (fun ic => Card.isJoker ic.2 = true) jokers) as Hall.
  { subst jokers. apply (filter_all (fun ic => Card.isJoker ic.2)). }
  destruct (Nat.leb_spec 2 (length naturals)) as [|_]; [lia|].
  destruct jokers as [|j jokers'].
  { destruct (List.filter (fun c => Card.isJoker c) hand); [done|].
    simpl in Hj. lia. }
  apply Forall_cons in Hall as [Hj1 Hall].
  destruct naturals as [|n [|n' naturals']].
  - eexists. split; [done|].
    rewrite (filter_of_all (fun ic => Card.isJoker ic.2)).
    + simpl. lia.
    + apply Forall_take. by constructor.
  - eexists. split; [done|]. simpl.
    destruct (Card.isJoker n.2); simpl; rewrite Hj1; simpl; lia.
  - simpl in Hn. lia.
Qed.

(** C6. A claim on a discarded seven that would use a wild card in place
    of a natural seven (fewer than two natural sevens in the hand, and a
    joker to stand in) is turned down, whatever else the hand holds: the
    players, and with them the hand and the melds of the claimant, and
    the discard pile are as before, and no meld is left pending. *)
Theorem doPong_seven_rejects_joker (a : App.t) (gs : GameState.t)
    (pending : PendingPong.t) (human : Player.t) :
  App.gameState a = Some gs →
  GameState.pendingPong gs = Some pending →
  GameState.players gs !! 0%nat = Some human →
  Card.rank (PendingPong.card pending) = Rank.SEVEN →
  (length (rankCounts (Player.hand human) Rank.SEVEN) < 2)%nat →
  (∃ c : Card.t, c ∈ Player.hand human ∧ Card.isJoker c = true) →
  ∃ (a' : App.t) (gs' : GameState.t),
    doPong a = Ok a'
    ∧ a' = cancelPong (addLog "Cannot use Joker to Pong a 7." a)
    ∧ App.gameState a' = Some gs'
    ∧ GameState.players gs' = GameState.players gs
    ∧ GameState.discardPile gs' = GameState.discardPile gs
    ∧ App.pendingMeldAction a' = App.pendingMeldAction a.
Proof.
  intros Hgs Hpend Hhuman Hseven Hnat (c & Hc & Hjoker).
  assert (List.filter (fun c => Card.isJoker c) (Player.hand human) ≠ []) as Hj.
  { intros E. assert (In c (List.filter (fun c => Card.isJoker c)
                              (Player.hand human))) as Hin.
    { apply filter_In. split; [by apply list_elem_of_In|done]. }
    by rewrite E in Hin. }
  rewrite <- Hseven in Hnat.
  destruct (cardsToUse_joker _ (PendingPong.card pending) Hnat Hj)
    as (used & Hused & Hpos).
  unfold doPong. rewrite Hgs, Hpend, Hhuman, Hused, Hseven.
  apply Nat.ltb_lt in Hpos. rewrite Hpos. simpl.
  destruct a as [g ? ? ? ? ? ? ?]. simpl in Hgs. subst g.
  unfold cancelPong, addLog. simpl.
  destruct (GameState.isTutorial gs); simpl; eexists _, _; done.
Qed.

Lemma doPong_seven_rejects_joker_witness :
  ∃ gs' : GameState.t,
    doPong pongApp
    = Ok (cancelPong (addLog "Cannot use Joker to Pong a 7." pongApp))
    ∧ App.gameState (cancelPong (addLog "Cannot use Joker to Pong a 7." pongApp))
      = Some gs'
    ∧ GameState.players gs' = pongPlayers
    ∧ GameState.discardPile gs' = [spade7].
Proof.
  destruct (doPong_seven_rejects_joker pongApp pongGame
              (PendingPong.mk spade7 1)
              (Player.mk 0 "You" [heart7; heartK; aJoker] true 0 false []))
    as (a' & gs' & Hpong & Ha' & Hgs' & Hplayers & Hpile & _).
  - reflexivity.
  - reflexivity.
  - reflexivity.
  - reflexivity.
  - vm_compute. lia.
  - exists aJoker. split; [|reflexivity]. do 2 right. left.
  - exists gs'. rewrite Hpong, Ha' in *. split; [reflexivity|].
    split; [exact Hgs'|]. split; [exact Hplayers|exact Hpile].
Defined.

(* ------------------------------------------------------------------ *)
(** ** A single joker on the board *)

Lemma confirmSingleJokerMove_seven (declaredSuit : Suit.t) (a : App.t) :
  confirmSingleJokerMove declaredSuit Rank.SEVEN a = Ok a.
Proof.
  unfold confirmSingleJokerMove.
  by destruct (App.gameState a), (App.pendingSingleJokerMove a).
Qed.

(** Any rank other than the seven goes through: the joker leaves the
    hand, the declaration is recorded, and the board is what the two
    conditional updates make of it. *)
Lemma confirmSingleJokerMove_applies (declaredSuit : Suit.t)
    (declaredRank : Rank.t) (a : App.t) (gs : GameState.t) (card : Card.t)
    (player : Player.t) :
  App.gameState a = Some gs →
  App.pendingSingleJokerMove a = Some card →
  GameState.players gs !! 0%nat = Some player →
  declaredRank ≠ Rank.SEVEN →
  ∃ (a' : App.t) (gs' : GameState.t),
    confirmSingleJokerMove declaredSuit declaredRank a = Ok a'
    ∧ App.gameState a' = Some gs'
    ∧ GameState.boardSequences gs'
      = declareOnBoard declaredSuit declaredRank (GameState.boardSequences gs)
    ∧ GameState.jokerDeclarations gs'
      = GameState.jokerDeclarations gs
        ++ [JokerDeclaration.mk (Card.id card) declaredSuit declaredRank]
    ∧ GameState.players gs'
      = mapPlayer 0
          (Player.set_hand (withoutId (Card.id card) (Player.hand player)))
          (GameState.players gs).
Proof.
  intros Hgs Hpend Hp Hr. unfold confirmSingleJokerMove.
  rewrite Hgs, Hpend, Hp. rewrite bool_decide_eq_false_2 by done.
  eexists _, _. done.
Qed.

(** Every identity the dialog offers is the card next to a bound of a
    suit that has its seven. *)
Lemma singleJokerOptions_legal (sequences : Sequences.t) (s : Suit.t)
    (r : Rank.t) :
  (s, r) ∈ singleJokerOptions sequences →
  r ≠ Rank.SEVEN
  ∧ canPlayOnBoard (mkCard "" s r false) sequences = true.
Proof.
  intros Hin. unfold singleJokerOptions in Hin.
  apply list_elem_of_In, in_flat_map in Hin as (s' & Hs' & Hin).
  apply in_map_iff in Hin as (r' & [= -> ->] & Hin).
  apply filter_In in Hin as [Hin Hr].
  apply negb_true_iff, bool_decide_eq_false in Hr. split; [done|].
  apply list_elem_of_In, suitsWithSeven_spec in Hs' as [Hs H7].
  unfold canPlayOnBoard, mkCard. simpl.
  rewrite bool_decide_eq_false_2 by done. rewrite H7. simpl.
  apply orb_true_iff. rewrite !Z.eqb_eq.
  apply in_app_or in Hin as [Hin|Hin].
  - right. destruct (1 <=? _); [|done]. unfold option_list in Hin.
    destruct (RANKS_at _) as [x|] eqn:E; [|done].
    destruct Hin as [<-|[]]. apply RANKS_at_sortValue in E as [_ E]. lia.
  - left. destruct (_ <=? 13); [|done]. unfold option_list in Hin.
    destruct (RANKS_at _) as [x|] eqn:E; [|done].
    destruct Hin as [<-|[]]. apply RANKS_at_sortValue in E as [_ E]. lia.
Qed.

(** With the seven of hearts alone on the board, the king of hearts is
    no extension point: it is not playable there and the dialog does not
    offer it.  Declared all the same, it is not turned down: the joker
    leaves the hand and the declaration is recorded, while the hearts
    stay at 7..7.  The rejection that C3 states does not take place. *)
Lemma confirmSingleJokerMove_illegal_identity :
  canPlayOnBoard (mkCard "" Suit.HEARTS Rank.KING false) heartsOpen = false
  ∧ ((Suit.HEARTS, Rank.KING) ∉ singleJokerOptions heartsOpen)
  ∧ (Player.hand <$> (GameState.players jokerGame !! 0%nat))
    = Some [heartK; aJoker]
  ∧ GameState.jokerDeclarations jokerGame = []
  ∧ ∃ (a' : App.t) (gs' : GameState.t),
      confirmSingleJokerMove Suit.HEARTS Rank.KING jokerApp = Ok a'
      ∧ App.gameState a' = Some gs'
      ∧ (Player.hand <$> (GameState.players gs' !! 0%nat)) = Some [heartK]
      ∧ GameState.boardSequences gs' = GameState.boardSequences jokerGame
      ∧ GameState.jokerDeclarations gs'
        = [JokerDeclaration.mk "JOKER-1-0" Suit.HEARTS Rank.KING].
Proof.
  split; [reflexivity|]. split.
  - intros H. apply list_elem_of_In in H. vm_compute in H.
    intuition discriminate.
  - split; [reflexivity|]. split; [reflexivity|].
    eexists _, _. split; [reflexivity|]. vm_compute. done.
Qed.

(** C3, amended. When a single wild card is played to the board, every
    identity that the declaration dialog offers is a legal extension
    point of a sequence that has its seven: it is not the seven and it
    is playable as a real card of that suit and rank.  Confirming it
    moves the bound of that suit out by one to the declared sort value
    and touches no other suit, takes the wild card out of the hand and
    appends one declaration.  A declared seven is turned down and
    nothing changes. *)
Theorem confirmSingleJokerMove_offered (a : App.t) (gs : GameState.t)
    (card : Card.t) (player : Player.t) (s : Suit.t) (r : Rank.t) :
  App.gameState a = Some gs →
  App.pendingSingleJokerMove a = Some card →
  GameState.players gs !! 0%nat = Some player →
  reachable (GameState.boardSequences gs) →
  (s, r) ∈ singleJokerOptions (GameState.boardSequences gs) →
  let before := Sequences.get (GameState.boardSequences gs) s in
  r ≠ Rank.SEVEN
  ∧ BoardSequence.hasSeven before = true
  ∧ canPlayOnBoard (mkCard "" s r false) (GameState.boardSequences gs) = true
  ∧ confirmSingleJokerMove s Rank.SEVEN a = Ok a
  ∧ ∃ (a' : App.t) (gs' : GameState.t),
      confirmSingleJokerMove s r a = Ok a'
      ∧ App.gameState a' = Some gs'
      ∧ (let after := Sequences.get (GameState.boardSequences gs') s in
         (BoardSequence.high after = getSortValue r
          ∧ BoardSequence.high after = BoardSequence.high before + 1
          ∧ BoardSequence.low after = BoardSequence.low before)
         ∨ (BoardSequence.low after = getSortValue r
            ∧ BoardSequence.low after = BoardSequence.low before - 1
            ∧ BoardSequence.high after = BoardSequence.high before))
      ∧ (∀ s' : Suit.t, s' ≠ s →
           Sequences.get (GameState.boardSequences gs') s'
           = Sequences.get (GameState.boardSequences gs) s')
      ∧ GameState.jokerDeclarations gs'
        = GameState.jokerDeclarations gs
          ++ [JokerDeclaration.mk (Card.id card) s r]
      ∧ GameState.players gs'
        = mapPlayer 0
            (Player.set_hand (withoutId (Card.id card) (Player.hand player)))
            (GameState.players gs).
Proof.
  intros Hgs Hpend Hp Hreach Hopt before.
  destruct (singleJokerOptions_legal _ _ _ Hopt) as [Hr Hlegal].
  assert (s ∈ SUITS ∧ BoardSequence.hasSeven before = true) as [Hs H7].
  { unfold singleJokerOptions in Hopt.
    apply list_elem_of_In, in_flat_map in Hopt as (s' & Hs' & Hin).
    apply in_map_iff in Hin as (r' & [= -> ->] & _).
    by apply list_elem_of_In, suitsWithSeven_spec in Hs'. }
  pose proof (reachable_board_ok _ Hreach s Hs) as Hinv. fold before in Hinv.
  split; [done|]. split; [done|]. split; [done|].
  split; [apply confirmSingleJokerMove_seven|].
  destruct (confirmSingleJokerMove_applies s r a gs card player Hgs Hpend Hp Hr)
    as (a' & gs' & Hrun & Hgs' & Hboard & Hdecl & Hplayers).
  exists a', gs'. split; [done|]. split; [done|].
  rewrite Hboard. unfold declareOnBoard. rewrite get_set_eq. fold before.
  split; [|split; [|done]].
  - unfold canPlayOnBoard, mkCard in Hlegal. simpl in Hlegal.
    rewrite bool_decide_eq_false_2 in Hlegal by done.
    fold before in Hlegal. rewrite H7 in Hlegal. simpl in Hlegal.
    apply orb_true_iff in Hlegal. rewrite !Z.eqb_eq in Hlegal.
    destruct Hinv as [Hl Hh]. destruct Hlegal as [E|E].
    + left. rewrite extendBounds_high by lia. simpl. lia.
    + right. rewrite extendBounds_low by lia. simpl. lia.
  - intros s' Hne. by rewrite get_set_ne.
Qed.

Lemma confirmSingleJokerMove_offered_witness :
  (Suit.HEARTS, Rank.EIGHT) ∈ singleJokerOptions heartsOpen
  ∧ ∃ (a' : App.t) (gs' : GameState.t),
      confirmSingleJokerMove Suit.HEARTS Rank.EIGHT jokerApp = Ok a'
      ∧ App.gameState a' = Some gs'
      ∧ GameState.jokerDeclarations gs'
        = [JokerDeclaration.mk "JOKER-1-0" Suit.HEARTS Rank.EIGHT]
      ∧ GameState.players gs'
        = mapPlayer 0 (Player.set_hand [heartK]) samplePlayers.
Proof.
  assert ((Suit.HEARTS, Rank.EIGHT) ∈ singleJokerOptions heartsOpen) as Hopt.
  { vm_compute. do 1 right. left. }
  assert (reachable heartsOpen) as Hr.
  { apply (reach_placeCard heart7 initialSequences); [constructor|done|done]. }
  split; [exact Hopt|].
  destruct (confirmSingleJokerMove_offered jokerApp jokerGame aJoker
              (Player.mk 0 "You" [heartK; aJoker] true 0 false [])
              Suit.HEARTS Rank.EIGHT eq_refl eq_refl eq_refl Hr Hopt)
    as (_ & _ & _ & _ & a' & gs' & Hrun & Hgs' & _ & _ & Hdecl & Hplayers).
  exists a', gs'. split; [exact Hrun|]. split; [exact Hgs'|].
  split; [exact Hdecl|exact Hplayers].
Defined.

(* ------------------------------------------------------------------ *)
(** ** The end of the game *)

(** The fold of [pickWinner] ends on the last player with the lowest
    score: nobody has less, and everybody after has more. *)
Lemma pickWinner_last_minimum (first : Player.t) (rest : list Player.t) :
  ∃ (i : nat) (w : Player.t),
    pickWinner (first :: rest) = Some w
    ∧ (first :: rest) !! i = Some w
    ∧ (∀ (j : nat) (p : Player.t),
         (first :: rest) !! j = Some p → Player.score w <= Player.score p)
    ∧ (∀ (j : nat) (p : Player.t),
         (i < j)%nat → (first :: rest) !! j = Some p →
         Player.score w < Player.score p).
Proof.
  unfold pickWinner. induction rest as [|x rest IH] using rev_ind.
  - exists 0%nat, first. simpl. split; [done|]. split; [done|]. split.
    + intros [|j] p; [|done]. intros [= <-]. lia.
    + intros [|j] p; [lia|done].
  - destruct IH as (i & w & [= Hw] & Hi & Hmin & Hlater).
    rewrite fold_left_app. simpl. rewrite Hw.
    assert (i < length (first :: rest))%nat as Hlt by (by apply lookup_lt_Some in Hi).
    change (first :: rest ++ [x]) with ((first :: rest) ++ [x]).
    destruct (Z.ltb_spec (Player.score w) (Player.score x)) as [Hless|Hge].
    + exists i, w. split; [done|]. split; [by rewrite lookup_app_l|].
      split.
      * intros j p Hj. apply lookup_app_Some in Hj as [Hj|[_ Hj]].
        -- by apply (Hmin j).
        -- apply list_lookup_singleton_Some in Hj as [_ <-]. lia.
      * intros j p Hij Hj. apply lookup_app_Some in Hj as [Hj|[_ Hj]].
        -- by apply (Hlater j).
        -- apply list_lookup_singleton_Some in Hj as [_ <-]. lia.
    + exists (length (first :: rest)), x. split; [done|]. split.
      { rewrite lookup_app_r by lia. by rewrite Nat.sub_diag. }
      split.
      * intros j p Hj. apply lookup_app_Some in Hj as [Hj|[_ Hj]].
        -- specialize (Hmin j p Hj). lia.
        -- apply list_lookup_singleton_Some in Hj as [_ <-]. lia.
      * intros j p Hij Hj. apply lookup_lt_Some in Hj.
        rewrite length_app in Hj. simpl in *. lia.
Qed.

(** Outside the tutorial the game is over exactly when a player of the
    round summary has reached [MAX_SCORE]. *)
Lemma startNextRound_game_over (createdDeck : list Card.t) (a : App.t)
    (gs : GameState.t) (summary : RoundSummary.t) :
  App.gameState a = Some gs →
  App.roundSummary a = Some summary →
  GameState.isTutorial gs = false →
  ∃ (a' : App.t) (gs' : GameState.t),
    startNextRound createdDeck a = Ok a'
    ∧ App.gameState a' = Some gs'
    ∧ (GameState.turnPhase gs' = GAME_OVER
       ↔ ∃ p : Player.t,
           p ∈ RoundSummary.updatedPlayers summary
           ∧ MAX_SCORE <= Player.score p)
    ∧ (GameState.turnPhase gs' = GAME_OVER →
       GameState.winner gs' = pickWinner (RoundSummary.updatedPlayers summary)).
Proof.
  intros Hgs Hsum Ht. unfold startNextRound. rewrite Hgs, Hsum, Ht.
  destruct (existsb _ _) eqn:Hover.
  - apply existsb_exists in Hover as (p & Hp & Hscore).
    apply Z.leb_le in Hscore. apply list_elem_of_In in Hp.
    destruct (RoundSummary.updatedPlayers summary) as [|first rest] eqn:E.
    { by apply elem_of_nil in Hp. }
    destruct (pickWinner_last_minimum first rest) as (i & w & Hw & _).
    rewrite Hw. eexists _, _. split; [done|]. split; [done|]. simpl.
    split; [|done]. split; [|done]. intros _. by exists p.
  - destruct (dealHands _ _) as [dealt newDeck].
    eexists _, _. split; [done|]. split; [done|]. simpl. split; [|done].
    split; [done|]. intros (p & Hp & Hscore).
    assert (existsb (fun p => MAX_SCORE <=? Player.score p)
              (RoundSummary.updatedPlayers summary) = true) as Hex.
    { apply existsb_exists. exists p. split; [by apply list_elem_of_In|].
      by apply Z.leb_le. }
    congruence.
Qed.

(** C8: the winner on a tie.  The first two players are level on the
    lowest score, 10, and the third has 260, past [MAX_SCORE]: the game
    is over, and the winner the handler records is the second of the two
    (index 1), not the first (index 0). *)
Theorem startNextRound_tie_winner :
  ∃ (a' : App.t) (gs' : GameState.t),
    startNextRound [] tieApp = Ok a'
    ∧ App.gameState a' = Some gs'
    ∧ GameState.turnPhase gs' = GAME_OVER
    ∧ GameState.winner gs' = tiePlayers !! 1%nat
    ∧ GameState.winner gs' ≠ tiePlayers !! 0%nat
    ∧ (Player.score <$> (tiePlayers !! 0%nat))
      = (Player.score <$> (tiePlayers !! 1%nat)).
Proof.
  eexists _, _. split; [reflexivity|]. vm_compute.
  repeat split; try done.
Qed.

(* ------------------------------------------------------------------ *)
(** ** The next round *)

Lemma isDeclared_nil (card : Card.t) : isDeclared [] card = false.
Proof. reflexivity. Qed.

(** Against an empty list of declarations the total of a player is the
    points of the hand. *)
Lemma roundScore_no_declarations (p : Player.t) :
  roundScore [] p = calculateHandPoints (Player.hand p).
Proof.
  rewrite roundScore_adjusted. unfold adjustedTotal.
  assert (List.filter
            (fun c => negb (Card.isJoker c) && isDeclared [] c) (Player.hand p)
          = []) as ->.
  { induction (Player.hand p) as [|c l IH]; simpl; [done|].
    by rewrite andb_false_r. }
  simpl. lia.
Qed.

(* ------------------------------------------------------------------ *)
(** ** The handlers stay on the boards of a round *)

Lemma addLog_gameState (msg : string) (a : App.t) (gs' : GameState.t) :
  App.gameState (addLog msg a) = Some gs' →
  ∃ gs : GameState.t,
    App.gameState a = Some gs
    ∧ GameState.boardSequences gs' = GameState.boardSequences gs
    ∧ GameState.players gs' = GameState.players gs
    ∧ GameState.jokerDeclarations gs' = GameState.jokerDeclarations gs.
Proof.
  unfold addLog, App.updateGameState. simpl.
  destruct (App.gameState a) as [gs|]; [|done].
  intros [= <-]. by exists gs.
Qed.

(** What [playSelectedCards] can do to the board: nothing, or the
    placing of one natural card. *)
Lemma playSelectedCards_board (a a' : App.t) (gs gs' : GameState.t) :
  App.gameState a = Some gs →
  playSelectedCards a = Ok a' →
  App.gameState a' = Some gs' →
  GameState.boardSequences gs' = GameState.boardSequences gs
  ∨ ∃ c : Card.t,
      Card.isJoker c = false
      ∧ placeCard c (GameState.boardSequences gs)
        = Some (GameState.boardSequences gs').
Proof.
  intros Hgs Hplay Hgs'.
  assert (∀ msg, a' = addLog msg a →
          GameState.boardSequences gs' = GameState.boardSequences gs) as Hlog.
  { intros msg ->. apply addLog_gameState in Hgs' as (g & Hg & Hb & _).
    congruence. }
  unfold playSelectedCards, tutorialInterception, playSingle, playMeld in Hplay.
  rewrite Hgs in Hplay.
  repeat (case_match; simplify_eq; simpl in *);
    try (left; congruence);
    try (left; by eapply Hlog);
    try (left; by simplify_eq).
  all: right; eexists; split; [|eassumption]; assumption.
Qed.

(** What one pass of the bot loop can do to the board: nothing (a meld),
    the placing of a natural card, or the placing of a joker. *)
Lemma scanHand_board (botName : string) (i0 : nat) (cards : list Card.t)
    (sequences sequences' : Sequences.t) (i : nat)
    (decl : option JokerDeclaration.t) (msg : string) :
  scanHand botName i0 cards sequences = Some (i, (sequences', decl, msg)) →
  ∃ c : Card.t,
    c ∈ cards
    ∧ ((Card.isJoker c = false ∧ decl = None
        ∧ placeCard c sequences = Some sequences')
       ∨ (∃ d : JokerDeclaration.t,
            decl = Some d ∧ placeJoker c sequences = Some (sequences', d))).
Proof.
  revert i0. induction cards as [|c rest IH]; intros i0; simpl; [done|].
  destruct (tryCard botName c sequences) as [[[m d] s]|] eqn:Htry.
  - intros [= <- <- <- <-]. exists c. split; [by left|].
    unfold tryCard in Htry. destruct (Card.isJoker c); simpl in Htry.
    + right. destruct (placeJoker c sequences) as [[m' d']|]; [|done].
      injection Htry as <- <- _. by exists d'.
    + left. destruct (placeCard c sequences) as [m'|]; [|done].
      destruct (_ && _); by injection Htry as <- <- _.
  - intros H. destruct (IH _ H) as (c' & Hc' & Hrest).
    exists c'. split; [by right|done].
Qed.

Lemma botStep_reachable (botName : string) (st st' : BotLoop.t) :
  botStep botName st = Some st' →
  reachable (BotLoop.newSequences st) → reachable (BotLoop.newSequences st').
Proof.
  unfold botStep. intros H Hr. destruct (findMeld _).
  - by injection H as <-.
  - destruct (scanHand _ _ _ _) as [[i [[m d] msg]]|] eqn:Hs; [|done].
    injection H as <-. simpl.
    apply scanHand_board in Hs as (c & _ & [(Hj & _ & Hp)|(d' & _ & Hp)]).
    + by apply (reach_placeCard c (BotLoop.newSequences st)).
    + by apply (reach_placeJoker c (BotLoop.newSequences st) m d').
Qed.

Lemma botLoop_reachable (botName : string) (fuel : nat) (st st' : BotLoop.t) :
  botLoop fuel botName st = Ok st' →
  reachable (BotLoop.newSequences st) → reachable (BotLoop.newSequences st').
Proof.
  revert st. induction fuel as [|fuel IH]; intros st; simpl; [done|].
  destruct (botStep botName st) as [st1|] eqn:Hs.
  - intros H Hr. apply (IH st1 H). by apply (botStep_reachable botName st).
  - by intros [= <-].
Qed.

(** The board that a handler of the human player leaves is a board of
    the round when the board it found was one. *)
Lemma playSelectedCards_reachable (a a' : App.t) (gs gs' : GameState.t) :
  App.gameState a = Some gs →
  playSelectedCards a = Ok a' →
  App.gameState a' = Some gs' →
  reachable (GameState.boardSequences gs) →
  reachable (GameState.boardSequences gs').
Proof.
  intros Hgs Hplay Hgs' Hr.
  destruct (playSelectedCards_board a a' gs gs' Hgs Hplay Hgs')
    as [->|(c & Hj & Hp)]; [done|].
  by apply (reach_placeCard c (GameState.boardSequences gs)).
Qed.

Lemma confirmSingleJokerMove_reachable (declaredSuit : Suit.t)
    (declaredRank : Rank.t) (a a' : App.t) (gs gs' : GameState.t) :
  App.gameState a = Some gs →
  confirmSingleJokerMove declaredSuit declaredRank a = Ok a' →
  App.gameState a' = Some gs' →
  reachable (GameState.boardSequences gs) →
  reachable (GameState.boardSequences gs').
Proof.
  intros Hgs Hrun Hgs' Hr. unfold confirmSingleJokerMove in Hrun.
  rewrite Hgs in Hrun.
  destruct (App.pendingSingleJokerMove a) as [card|]; [|congruence].
  destruct (decide (declaredRank = Rank.SEVEN)) as [->|Hne].
  - rewrite bool_decide_eq_true_2 in Hrun by done. congruence.
  - rewrite bool_decide_eq_false_2 in Hrun by done.
    destruct (GameState.players gs !! 0%nat); [|done].
    injection Hrun as <-. simpl in Hgs'. injection Hgs' as <-. simpl.
    by apply reach_declare.
Qed.

(** The turn of the bot proper leaves a board of the round as well. *)
Lemma normalBot_reachable (a a' : App.t) (gs gs' : GameState.t) :
  App.gameState a = Some gs →
  normalBot a gs = Ok a' →
  App.gameState a' = Some gs' →
  reachable (GameState.boardSequences gs) →
  reachable (GameState.boardSequences gs').
Proof.
  intros Hgs Hrun Hgs' Hr. unfold normalBot in Hrun.
  destruct (GameState.players gs !! GameState.currentPlayerIndex gs)
    as [bot|]; [|done].
  destruct (botLoop _ _ _) as [st| |] eqn:Hloop; [|done|done].
  assert (reachable (BotLoop.newSequences st)) as Hst.
  { by apply (botLoop_reachable _ _ _ _ Hloop). }
  assert (logs_only a (BotLoop.app st)) as [l Happ].
  { apply (botLoop_logs_only _ a _ _ st Hloop). by apply (logs_only_refl a gs). }
  rewrite Happ in Hrun. destruct a as [g ? ? ? ? ? ? ?]. simpl in Hgs. subst g.
  destruct (_ <=? 5).
  - injection Hrun as <-. simpl in Hgs'. by injection Hgs' as <-.
  - destruct (GameState.deck gs); simpl in Hrun.
    + destruct (_ !! _); [|done]. injection Hrun as <-. simpl in Hgs'.
      by injection Hgs' as <-.
    + destruct (_ !! _); [|done]. injection Hrun as <-. simpl in Hgs'.
      by injection Hgs' as <-.
Qed.

(* ================================================================== *)
(** * Further properties of the sources *)
(* ================================================================== *)

(* ------------------------------------------------------------------ *)
(** ** Ranks and sort values *)

(** X1. [getSortValue] and [RANKS] are inverse to each other: a rank other
    than the joker has a sort value between 1 and 13 and is the entry of
    [RANKS] just below that index, and the rank at an index of [RANKS] has
    the index plus one for sort value; the joker rank sorts at 99. *)
Theorem getSortValue_RANKS (r : Rank.t) (i : Z) :
  getSortValue Rank.JOKER = 99
  ∧ (r ≠ Rank.JOKER →
       1 <= getSortValue r <= 13
       ∧ RANKS_at (getSortValue r - 1) = Some r)
  ∧ (RANKS_at i = Some r →
       0 <= i <= 12 ∧ r ≠ Rank.JOKER ∧ getSortValue r = i + 1).
Proof.
  split; [reflexivity|]. split.
  - intros Hr. destruct r; try done; by vm_compute.
  - intros H. destruct (RANKS_at_sortValue i r H) as [Hi Hs].
    split; [done|]. split; [|done]. intros ->.
    assert (getSortValue Rank.JOKER = 99) by reflexivity. lia.
Qed.

Lemma getSortValue_RANKS_witness :
  1 <= getSortValue Rank.QUEEN <= 13
  ∧ RANKS_at (getSortValue Rank.QUEEN - 1) = Some Rank.QUEEN
  ∧ getSortValue Rank.FOUR = 3 + 1.
Proof.
  destruct (getSortValue_RANKS Rank.QUEEN 0) as (_ & Hq & _).
  destruct (getSortValue_RANKS Rank.FOUR 3) as (_ & _ & H4).
  destruct Hq as [Hq1 Hq2]; [discriminate|].
  destruct H4 as (_ & _ & H4); [reflexivity|].
  split; [exact Hq1|]. split; [exact Hq2|exact H4].
Defined.

(** X2. The card that the board draws for a bound: nothing outside
    1..13, and inside that range a natural card of the suit whose rank
    has exactly that sort value, worth no points, with an id made of the
    suit and the rank. *)
Theorem createVisualCard_spec (suit : Suit.t) (val : Z) :
  (val < 1 ∨ 13 < val → createVisualCard suit val = None)
  ∧ (1 <= val <= 13 →
       ∃ c : Card.t,
         createVisualCard suit val = Some c
         ∧ Card.suit c = suit
         ∧ Card.isJoker c = false
         ∧ Card.sortValue c = val
         ∧ getSortValue (Card.rank c) = val
         ∧ Card.rank c ≠ Rank.JOKER
         ∧ Card.value c = 0
         ∧ Card.id c
           = "visual-" +:+ Suit.str suit +:+ "-" +:+ Rank.str (Card.rank c)).
Proof.
  unfold createVisualCard. split.
  - intros H. destruct (Z.ltb_spec val 1), (Z.ltb_spec 13 val); simpl; try done.
    lia.
  - intros H. destruct (Z.ltb_spec val 1), (Z.ltb_spec 13 val); try lia. simpl.
    destruct (RANKS_at (val - 1)) as [r|] eqn:E.
    + destruct (RANKS_at_sortValue _ _ E) as [_ Hs].
      eexists. split; [done|]. simpl. repeat split; try lia; try done.
      intros ->. assert (getSortValue Rank.JOKER = 99) by reflexivity. lia.
    + exfalso. unfold RANKS_at in E.
      destruct (Z.ltb_spec (val - 1) 0); [lia|].
      apply lookup_ge_None in E. simpl in E. lia.
Qed.

Lemma createVisualCard_spec_witness :
  createVisualCard Suit.CLUBS 0 = None
  ∧ ∃ c : Card.t,
      createVisualCard Suit.CLUBS 9 = Some c
      ∧ getSortValue (Card.rank c) = 9
      ∧ Card.value c = 0.
Proof.
  destruct (createVisualCard_spec Suit.CLUBS 0) as [Hout _].
  destruct (createVisualCard_spec Suit.CLUBS 9) as [_ Hin].
  split; [apply Hout; left; lia|].
  destruct Hin as (c & Hc & _ & _ & _ & Hr & _ & Hv & _); [lia|].
  exists c. split; [exact Hc|]. split; [exact Hr|exact Hv].
Defined.

(* ------------------------------------------------------------------ *)
(** ** The two scoring functions *)

Lemma roundPointsOf_adjusted (jokerDeclarations : list JokerDeclaration.t)
    (p : Player.t) :
  roundPointsOf jokerDeclarations (calculateHandPoints (Player.hand p))
    (Player.hand p)
  = adjustedTotal jokerDeclarations p.
Proof.
  rewrite <- roundScore_adjusted. unfold roundPointsOf, roundScore.
  generalize (calculateHandPoints (Player.hand p)).
  induction (Player.hand p) as [|c l IH]; intros acc; simpl; [done|].
  rewrite IH. by destruct (isDeclared jokerDeclarations c), (Card.isJoker c).
Qed.

Lemma penalty_scan (jokerDeclarations : list JokerDeclaration.t) (k : nat)
    (l : list Player.t) (h : nat → nat) (acc : Z) :
  fold_left
    (fun penalty '(otherIdx, otherP) =>
       if negb (Nat.eqb otherIdx k) then
         penalty
         + roundPointsOf jokerDeclarations
             (calculateHandPoints (Player.hand otherP)) (Player.hand otherP)
       else penalty)
    (imap (fun i p => (h i, p)) l) acc
  = acc
    + sumZ (imap
              (fun j q =>
                 if Nat.eqb (h j) k then 0
                 else adjustedTotal jokerDeclarations q) l).
Proof.
  revert h acc. induction l as [|p l IH]; intros h acc; simpl; [lia|].
  rewrite (IH (h ∘ S)). rewrite roundPointsOf_adjusted.
  unfold sumZ, compose. simpl. destruct (h 0%nat =? k)%nat; simpl; lia.
Qed.

Lemma undercutPenalty_others (jokerDeclarations : list JokerDeclaration.t)
    (players : list Player.t) (k : nat) :
  undercutPenalty jokerDeclarations players k
  = othersTotal jokerDeclarations players k.
Proof.
  unfold undercutPenalty, othersTotal.
  change (imap pair players) with (imap (fun i p => (id i, p)) players).
  rewrite penalty_scan. simpl. lia.
Qed.


Lemma sum_only (f : Player.t → Z) (k : nat) (l : list Player.t) (n : nat) :
  sumZ (imap (fun j q => if Nat.eqb (n + j) k then f q else 0) l)
  = match (k - n)%nat, decide (n <= k)%nat with
    | d, left _ => default 0 (f <$> l !! d)
    | _, right _ => 0
    end.
Proof.
  revert n. induction l as [|p l IH]; intros n; simpl.
  - by destruct (decide _).
  - unfold sumZ in *. simpl.
    assert (imap ((fun j q => if (n + j =? k)%nat then f q else 0) ∘ S) l
            = imap (fun j q => if (S n + j =? k)%nat then f q else 0) l) as ->.
    { apply imap_ext. intros i q _. simpl.
      by replace (n + S i)%nat with (S (n + i))%nat by lia. }
    rewrite (IH (S n)). rewrite Nat.add_0_r.
    destruct (Nat.eqb_spec n k) as [->|Hne].
    + rewrite Nat.sub_diag.
      destruct (decide (S k <= k)%nat); [lia|].
      destruct (decide (k <= k)%nat); [|lia]. simpl. lia.
    + destruct (decide (n <= k)%nat), (decide (S n <= k)%nat); try lia.
      replace (k - n)%nat with (S (k - S n)) by lia. simpl. lia.
Qed.


Lemma resolveRoundScores_lookup (players : list Player.t) (k : nat)
    (jokerDeclarations : list JokerDeclaration.t) (i : nat) (p : Player.t) :
  players !! i = Some p →
  resolveRoundScores players k jokerDeclarations !! i
  = Some (Player.set_score
            (Player.score p
             + (if Nat.eqb i k && checkUndercut (basePoints players) k
                then othersTotal jokerDeclarations players k
                else adjustedTotal jokerDeclarations p)) p).
Proof.
  intros Hp. unfold resolveRoundScores. fold (basePoints players).
  rewrite list_lookup_imap, Hp. simpl.
  rewrite roundPointsOf_adjusted, undercutPenalty_others.
  by destruct (i =? k)%nat, (checkUndercut (basePoints players) k).
Qed.

(** X3. [resolveRoundScores], the other scoring function of the file:
    every player but the knocker is charged their own total, undercut or
    not; the knocker is charged their own total when no other player has
    base hand points at most the knocker's, and otherwise the totals of
    the other players, added up. *)
Theorem resolveRoundScores_spec (players : list Player.t)
    (knockerIndex : nat) (jokerDeclarations : list JokerDeclaration.t) :
  let resolved := resolveRoundScores players knockerIndex jokerDeclarations in
  length resolved = length players
  ∧ (undercuts (basePoints players) knockerIndex →
       ∀ (i : nat) (p : Player.t), players !! i = Some p →
         resolved !! i
         = Some (Player.set_score
                   (Player.score p
                    + (if Nat.eqb i knockerIndex
                       then othersTotal jokerDeclarations players knockerIndex
                       else adjustedTotal jokerDeclarations p)) p))
  ∧ (¬ undercuts (basePoints players) knockerIndex →
       ∀ (i : nat) (p : Player.t), players !! i = Some p →
         resolved !! i
         = Some (Player.set_score
                   (Player.score p + adjustedTotal jokerDeclarations p) p)).
Proof.
  intros resolved. subst resolved.
  split; [apply length_imap|]. split.
  - intros U i p Hp. rewrite (resolveRoundScores_lookup _ _ _ _ _ Hp).
    apply checkUndercut_spec in U. rewrite U. by rewrite andb_true_r.
  - intros N i p Hp. rewrite (resolveRoundScores_lookup _ _ _ _ _ Hp).
    destruct (checkUndercut (basePoints players) knockerIndex) eqn:U.
    { by apply checkUndercut_spec in U. }
    by rewrite andb_false_r.
Qed.

Lemma resolveRoundScores_spec_witness :
  resolveRoundScores [knocker; opponent2] 0 [] !! 0%nat
  = Some (Player.set_score 2 knocker)
  ∧ resolveRoundScores [knocker; opponent2] 0 [] !! 1%nat
    = Some (Player.set_score 2 opponent2)
  ∧ resolveRoundScores [knocker; opponent40] 0 [] !! 1%nat
    = Some (Player.set_score 40 opponent40).
Proof.
  destruct (resolveRoundScores_spec [knocker; opponent2] 0 [])
    as (_ & Hu & _).
  destruct (resolveRoundScores_spec [knocker; opponent40] 0 [])
    as (_ & _ & Hn).
  assert (undercuts (basePoints [knocker; opponent2]) 0) as U.
  { exists 1%nat, 2, 4. repeat split; [discriminate|lia]. }
  assert (¬ undercuts (basePoints [knocker; opponent40]) 0) as N.
  { intros (i & t & tk & Hne & Hi & Hk & Hle). injection Hk as <-.
    destruct i as [|[|i]]; [done| |done]. injection Hi as <-.
    vm_compute in Hle. apply Hle. reflexivity. }
  split; [exact (Hu U 0%nat knocker eq_refl)|].
  split; [exact (Hu U 1%nat opponent2 eq_refl)|].
  exact (Hn N 1%nat opponent40 eq_refl).
Defined.



(* ------------------------------------------------------------------ *)
(** ** What round scoring keeps *)

Lemma applyFinalScores_lookup (players : list Player.t) (k : nat)
    (jokerDeclarations : list JokerDeclaration.t) (i : nat) (p : Player.t) :
  players !! i = Some p →
  applyFinalScores players k jokerDeclarations !! i
  = Some
      (if checkUndercut (map (adjustedTotal jokerDeclarations) players) k
       then (if Nat.eqb i k
             then Player.set_score
                    (Player.score p
                     + sumZ (map (adjustedTotal jokerDeclarations) players)) p
             else p)
       else Player.set_score
              (Player.score p + adjustedTotal jokerDeclarations p) p).
Proof.
  intros Hp. unfold applyFinalScores.
  rewrite roundScores_adjusted, map_id.
  destruct (checkUndercut _ k).
  - rewrite list_lookup_alter, sum_from, Z.add_0_l.
    destruct (decide (k = i)) as [->|Hne].
    + by rewrite Hp, Nat.eqb_refl.
    + rewrite Hp. apply not_eq_sym, Nat.eqb_neq in Hne. by rewrite Hne.
  - rewrite list_lookup_imap, Hp. simpl.
    change (map ?f ?l) with (f <$> l). by rewrite list_lookup_fmap, Hp.
Qed.

Lemma applyFinalScores_length (players : list Player.t) (k : nat)
    (jokerDeclarations : list JokerDeclaration.t) :
  length (applyFinalScores players k jokerDeclarations) = length players.
Proof.
  unfold applyFinalScores. rewrite map_id.
  destruct (checkUndercut _ _); [apply length_alter|apply length_imap].
Qed.

Lemma handPoints_cons (c : Card.t) (hand : list Card.t) :
  calculateHandPoints (c :: hand) = Card.value c + calculateHandPoints hand.
Proof.
  unfold calculateHandPoints. simpl. rewrite handPoints_from.
  unfold calculateHandPoints. lia.
Qed.

Lemma handPoints_nonneg (hand : list Card.t) :
  (∀ c, c ∈ hand → 0 <= Card.value c) → 0 <= calculateHandPoints hand.
Proof.
  induction hand as [|c hand IH]; intros H; [by rewrite handPoints_nil|].
  rewrite handPoints_cons.
  assert (0 <= Card.value c) by (apply H; by left).
  assert (0 <= calculateHandPoints hand) by (apply IH; intros; apply H; by right).
  lia.
Qed.

Lemma adjustedTotal_ge (jokerDeclarations : list JokerDeclaration.t)
    (p : Player.t) :
  calculateHandPoints (Player.hand p) <= adjustedTotal jokerDeclarations p.
Proof. unfold adjustedTotal. lia. Qed.

Lemma sumZ_nonneg (l : list Z) : (∀ x, x ∈ l → 0 <= x) → 0 <= sumZ l.
Proof.
  induction l as [|x l IH]; intros H; unfold sumZ in *; simpl; [lia|].
  assert (0 <= x) by (apply H; by left).
  assert (0 <= foldr Z.add 0 l) by (apply IH; intros; apply H; by right).
  lia.
Qed.

Lemma sumZ_scores_pointwise (inc : nat → Player.t → Z)
    (l l' : list Player.t) :
  length l' = length l →
  (∀ i p, l !! i = Some p →
     ∃ p', l' !! i = Some p' ∧ Player.score p' = Player.score p + inc i p) →
  sumZ (map Player.score l') = sumZ (map Player.score l) + sumZ (imap inc l).
Proof.
  revert inc l'. induction l as [|p l IH]; intros inc [|p' l'] Hlen H; try done.
  unfold sumZ in *. simpl.
  destruct (H 0%nat p eq_refl) as (q & [= <-] & Hq).
  rewrite (IH (inc ∘ S) l').
  - lia.
  - simpl in Hlen. lia.
  - intros i x Hx. apply (H (S i) x Hx).
Qed.

Lemma sumZ_imap_const (f : Player.t → Z) (l : list Player.t) :
  sumZ (imap (fun _ p => f p) l) = sumZ (map f l).
Proof.
  unfold sumZ. induction l as [|p l IH]; simpl; [done|]. by rewrite <- IH.
Qed.

(** X5. Round scoring hands out exactly the totals of the round: with or
    without an undercut, the scores of all players together grow by the
    sum of the adjusted totals of all players. *)
Theorem applyFinalScores_conserves (players : list Player.t)
    (knockerIndex : nat) (jokerDeclarations : list JokerDeclaration.t) :
  sumZ (map Player.score
          (applyFinalScores players knockerIndex jokerDeclarations))
  = sumZ (map Player.score players)
    + sumZ (map (adjustedTotal jokerDeclarations) players).
Proof.
  set (totals := map (adjustedTotal jokerDeclarations) players).
  destruct (checkUndercut totals knockerIndex) eqn:U.
  - apply checkUndercut_in_range in U as Hk. subst totals.
    rewrite length_map in Hk.
    rewrite (sumZ_scores_pointwise
               (fun i _ =>
                  if Nat.eqb (0 + i) knockerIndex
                  then sumZ (map (adjustedTotal jokerDeclarations) players)
                  else 0) players).
    + f_equal.
      rewrite (sum_only
                 (fun _ => sumZ (map (adjustedTotal jokerDeclarations) players))
                 knockerIndex players 0).
      rewrite Nat.sub_0_r. destruct (decide _); [|lia].
      destruct (lookup_lt_is_Some_2 players knockerIndex Hk) as [pk ->]. done.
    + apply applyFinalScores_length.
    + intros i p Hp. rewrite (applyFinalScores_lookup _ _ _ _ _ Hp), U. simpl.
      destruct (i =? knockerIndex)%nat; eexists; split; try done; simpl; lia.
  - rewrite (sumZ_scores_pointwise
               (fun _ p => adjustedTotal jokerDeclarations p) players).
    + by rewrite sumZ_imap_const.
    + apply applyFinalScores_length.
    + intros i p Hp. fold totals.
      rewrite (applyFinalScores_lookup _ _ _ _ _ Hp). fold totals. rewrite U.
      eexists. split; done.
Qed.

(** X6. Round scoring touches nothing but the scores, and with point
    values that are not negative, as those of every card of a deck are,
    no score goes down. *)
Theorem applyFinalScores_monotone (players : list Player.t)
    (knockerIndex : nat) (jokerDeclarations : list JokerDeclaration.t)
    (i : nat) (p : Player.t) :
  players !! i = Some p →
  ∃ p' : Player.t,
    applyFinalScores players knockerIndex jokerDeclarations !! i = Some p'
    ∧ p' = Player.set_score (Player.score p') p
    ∧ ((∀ (q : Player.t) (c : Card.t),
          q ∈ players → c ∈ Player.hand q → 0 <= Card.value c) →
       Player.score p <= Player.score p').
Proof.
  intros Hp. rewrite (applyFinalScores_lookup _ _ _ _ _ Hp).
  assert (∀ q, q ∈ players →
            (∀ (q : Player.t) (c : Card.t),
               q ∈ players → c ∈ Player.hand q → 0 <= Card.value c) →
            0 <= adjustedTotal jokerDeclarations q) as Hadj.
  { intros q Hq Hv. pose proof (adjustedTotal_ge jokerDeclarations q).
    assert (0 <= calculateHandPoints (Player.hand q)).
    { apply handPoints_nonneg. intros c Hc. by apply (Hv q c). }
    lia. }
  eexists. split; [done|].
  destruct (checkUndercut _ _); [destruct (i =? knockerIndex)%nat|].
  - split; [by destruct p|]. intros Hv. simpl.
    assert (0 <= sumZ (map (adjustedTotal jokerDeclarations) players)).
    { apply sumZ_nonneg. intros x Hx.
      change (map ?f ?l) with (f <$> l) in Hx.
      apply list_elem_of_fmap in Hx as (q & -> & Hq). by apply Hadj. }
    lia.
  - split; [by destruct p|]. intros _. lia.
  - split; [by destruct p|]. intros Hv. simpl.
    assert (0 <= adjustedTotal jokerDeclarations p).
    { apply Hadj; [|done]. by apply list_elem_of_lookup_2 in Hp. }
    lia.
Qed.

Lemma applyFinalScores_monotone_witness :
  ∃ p' : Player.t,
    applyFinalScores [knocker; opponent9] 0 nineOfHearts !! 1%nat = Some p'
    ∧ Player.hand p' = [heart9]
    ∧ Player.score opponent9 <= Player.score p'.
Proof.
  destruct (applyFinalScores_monotone [knocker; opponent9] 0 nineOfHearts
              1 opponent9 eq_refl) as (p' & Hp' & Hframe & Hmono).
  exists p'. split; [exact Hp'|]. split.
  - rewrite Hframe. reflexivity.
  - apply Hmono. intros q c Hq Hc.
    apply elem_of_cons in Hq as [->|Hq].
    + apply elem_of_cons in Hc as [->|Hc]; [vm_compute; discriminate|].
      apply elem_of_cons in Hc as [->|Hc]; [vm_compute; discriminate|].
      by apply elem_of_nil in Hc.
    + apply elem_of_cons in Hq as [->|Hq]; [|by apply elem_of_nil in Hq].
      apply elem_of_cons in Hc as [->|Hc]; [vm_compute; discriminate|].
      by apply elem_of_nil in Hc.
Defined.

(* ------------------------------------------------------------------ *)
(** ** Building, shuffling and dealing the deck *)

Lemma swap_Permutation {A : Type} (i j : nat) (l : list A) : swap i j l ≡ₚ l.
Proof.
  unfold swap. destruct (l !! i) as [x|] eqn:Hi; [|done].
  destruct (l !! j) as [y|] eqn:Hj; [|done].
  by apply Permutation_insert_swap.
Qed.

Lemma shuffleFrom_Permutation {A : Type} (random : nat → nat) (n : nat)
    (l : list A) :
  shuffleFrom random n l ≡ₚ l.
Proof.
  revert l. induction n as [|n IH]; intros l; simpl; [done|].
  rewrite IH. apply swap_Permutation.
Qed.

(** X7. Whatever numbers are drawn, [shuffle] returns a rearrangement of
    the array it is given: the same cards, each as often as before. *)
Theorem shuffle_Permutation {A : Type} (random : nat → nat) (array : list A) :
  shuffle random array ≡ₚ array
  ∧ length (shuffle random array) = length array.
Proof.
  assert (shuffle random array ≡ₚ array) as H
    by apply shuffleFrom_Permutation.
  split; [done|]. by rewrite H.
Qed.

Lemma filter_length_Permutation {A : Type} (f : A → bool) (l l' : list A) :
  l ≡ₚ l' → length (List.filter f l) = length (List.filter f l').
Proof.
  induction 1 as [|x l l' _ IH|x y l|l l' l'' _ IH1 _ IH2]; simpl.
  - done.
  - destruct (f x); simpl; by rewrite IH.
  - by destruct (f x), (f y).
  - by rewrite IH1.
Qed.

Lemma deckCards_shape (randomId : Suit.t → Rank.t → nat → string)
    (randomJoker : nat → nat → string) (d : nat) :
  length (deckCards randomId randomJoker d) = 54%nat
  ∧ Forall deckCard (deckCards randomId randomJoker d)
  ∧ length (List.filter (fun c => Card.isJoker c)
              (deckCards randomId randomJoker d)) = 2%nat
  ∧ ∀ (suit : Suit.t) (rank : Rank.t),
      suit ∈ SUITS → rank ∈ RANKS →
      length
        (List.filter
           (fun c => negb (Card.isJoker c) && (Card.suit c === suit)
                     && (Card.rank c === rank))
           (deckCards randomId randomJoker d)) = 1%nat.
Proof.
  split; [reflexivity|]. split; [|split; [reflexivity|]].
  - unfold deckCards. simpl.
    repeat (apply Forall_cons; split;
            [unfold deckCard; simpl; repeat split;
             try reflexivity; try discriminate;
             unfold SUITS; rewrite !elem_of_cons; tauto|]).
    apply Forall_nil_2.
  - intros suit rank Hs Hr.
    apply in_SUITS in Hs. apply list_elem_of_In in Hr.
    destruct suit; try done; destruct rank; try reflexivity;
      simpl in Hr; intuition discriminate.
Qed.

Lemma createDeck_facts
    (randomId : Suit.t → Rank.t → nat → string)
    (randomJoker : nat → nat → string) (random : nat → nat)
    (playerCount : nat) :
  let deck := createDeck randomId randomJoker random playerCount in
  let packs := if (4 <=? playerCount)%nat then 2%nat else 1%nat in
  length deck = (54 * packs)%nat
  ∧ Forall deckCard deck
  ∧ length (List.filter (fun c => Card.isJoker c) deck) = (2 * packs)%nat
  ∧ ∀ (suit : Suit.t) (rank : Rank.t),
      suit ∈ SUITS → rank ∈ RANKS →
      length
        (List.filter
           (fun c => negb (Card.isJoker c) && (Card.suit c === suit)
                     && (Card.rank c === rank))
           deck) = packs.
Proof.
  intros deck packs. subst deck. unfold createDeck.
  set (fresh := flat_map (deckCards randomId randomJoker)
                  (seq 0 (numDecks playerCount))).
  assert (shuffle random fresh ≡ₚ fresh) as Hperm
    by apply shuffleFrom_Permutation.
  assert (length fresh = (54 * packs)%nat
          ∧ Forall deckCard fresh
          ∧ length (List.filter (fun c => Card.isJoker c) fresh)
            = (2 * packs)%nat
          ∧ ∀ (suit : Suit.t) (rank : Rank.t),
              suit ∈ SUITS → rank ∈ RANKS →
              length
                (List.filter
                   (fun c => negb (Card.isJoker c) && (Card.suit c === suit)
                             && (Card.rank c === rank))
                   fresh) = packs) as (Hlen & Hall & Hjok & Hcount).
  { destruct (deckCards_shape randomId randomJoker 0) as (L0 & F0 & J0 & C0).
    destruct (deckCards_shape randomId randomJoker 1) as (L1 & F1 & J1 & C1).
    subst fresh packs. unfold numDecks.
    destruct (4 <=? playerCount)%nat; cbn [seq flat_map];
      rewrite ?app_nil_r.
    - split; [rewrite length_app; lia|]. split; [by apply Forall_app|].
      split; [rewrite List.filter_app, length_app; lia|].
      intros suit rank Hs Hr. rewrite List.filter_app, length_app.
      rewrite (C0 suit rank Hs Hr), (C1 suit rank Hs Hr). done.
    - split; [lia|]. split; [done|]. split; [lia|].
      intros suit rank Hs Hr. by apply C0. }
  split; [by rewrite (Permutation_length Hperm)|].
  split; [by apply (Permutation_Forall (Permutation_sym Hperm))|].
  split; [by rewrite (filter_length_Permutation _ _ _ Hperm)|].
  intros suit rank Hs Hr.
  rewrite (filter_length_Permutation _ _ _ Hperm). by apply Hcount.
Qed.

(** X8. The deck of [createDeck], whatever the random draws: two packs
    of 54 cards for four players or more and one pack otherwise; in each
    pack two jokers and every rank of every one of the four suits once;
    every card with the points and the sort value of its rank (a joker
    with 30 and 99). *)
Theorem createDeck_composition
    (randomId : Suit.t → Rank.t → nat → string)
    (randomJoker : nat → nat → string) (random : nat → nat)
    (playerCount : nat) :
  let deck := createDeck randomId randomJoker random playerCount in
  let packs := if (4 <=? playerCount)%nat then 2%nat else 1%nat in
  length deck = (54 * packs)%nat
  ∧ Forall deckCard deck
  ∧ length (List.filter (fun c => Card.isJoker c) deck) = (2 * packs)%nat
  ∧ ∀ (suit : Suit.t) (rank : Rank.t),
      suit ∈ SUITS → rank ∈ RANKS →
      length
        (List.filter
           (fun c => negb (Card.isJoker c) && (Card.suit c === suit)
                     && (Card.rank c === rank))
           deck) = packs.
Proof. apply createDeck_facts. Qed.

Lemma createDeck_composition_witness :
  length (createDeck (fun _ _ _ => "a") (fun _ _ => "b") (fun n => 0%nat) 4)
  = 108%nat
  ∧ length (List.filter
              (fun c => negb (Card.isJoker c) && (Card.suit c === Suit.CLUBS)
                        && (Card.rank c === Rank.SEVEN))
              (createDeck (fun _ _ _ => "a") (fun _ _ => "b")
                 (fun n => 0%nat) 4)) = 2%nat.
Proof.
  destruct (createDeck_composition (fun _ _ _ => "a") (fun _ _ => "b")
              (fun n => 0%nat) 4) as (Hlen & _ & _ & Hcount).
  split; [exact Hlen|].
  apply (Hcount Suit.CLUBS Rank.SEVEN).
  - do 2 right. left.
  - do 6 right. left.
Defined.

(* ------------------------------------------------------------------ *)
(** ** Sorting a hand *)

Lemma insertBySortValue_Permutation (c : Card.t) (l : list Card.t) :
  insertBySortValue c l ≡ₚ c :: l.
Proof.
  induction l as [|d l IH]; simpl; [done|].
  destruct (_ <=? _); [done|]. rewrite IH. apply Permutation_swap.
Qed.

Lemma insertBySortValue_sorted (c : Card.t) (l : list Card.t) :
  StronglySorted bySortValue l →
  StronglySorted bySortValue (insertBySortValue c l).
Proof.
  induction 1 as [|d l Hs IH Hd]; simpl.
  - repeat constructor.
  - destruct (Z.leb_spec (Card.sortValue c) (Card.sortValue d)) as [Hle|Hgt].
    + constructor; [by constructor|]. constructor; [done|].
      eapply Forall_impl; [exact Hd|]. unfold bySortValue. intros x Hx. lia.
    + constructor; [done|].
      rewrite insertBySortValue_Permutation. constructor; [|done].
      unfold bySortValue. lia.
Qed.

Lemma insertBySortValue_filter (v : Z) (c : Card.t) (l : list Card.t) :
  List.filter (fun x => Card.sortValue x =? v) (insertBySortValue c l)
  = List.filter (fun x => Card.sortValue x =? v) (c :: l).
Proof.
  induction l as [|d l IH]; [done|]. simpl insertBySortValue.
  destruct (Z.leb_spec (Card.sortValue c) (Card.sortValue d)) as [Hle|Hgt];
    [done|].
  simpl in *. rewrite IH.
  destruct (Z.eqb_spec (Card.sortValue c) v), (Z.eqb_spec (Card.sortValue d) v);
    try done. lia.
Qed.

(** X9. The sort of a hand: the result holds the same cards, in
    ascending order of sort value, and cards of one sort value keep the
    order they had (the sort is stable). *)
Theorem sortBySortValue_sorts (cards : list Card.t) :
  sortBySortValue cards ≡ₚ cards
  ∧ StronglySorted bySortValue (sortBySortValue cards)
  ∧ ∀ v : Z,
      List.filter (fun x => Card.sortValue x =? v) (sortBySortValue cards)
      = List.filter (fun x => Card.sortValue x =? v) cards.
Proof.
  unfold sortBySortValue. induction cards as [|c l (IHp & IHs & IHf)]; simpl.
  - split; [done|]. split; [constructor|done].
  - split; [by rewrite insertBySortValue_Permutation, IHp|].
    split; [by apply insertBySortValue_sorted|].
    intros v. rewrite insertBySortValue_filter. simpl. by rewrite IHf.
Qed.

(* ------------------------------------------------------------------ *)
(** ** Dealing *)

Lemma sortBySortValue_Permutation (cards : list Card.t) :
  sortBySortValue cards ≡ₚ cards.
Proof.
  unfold sortBySortValue. induction cards as [|c l IH]; simpl; [done|].
  by rewrite insertBySortValue_Permutation, IH.
Qed.

Lemma sortBySortValue_sorted (cards : list Card.t) :
  StronglySorted bySortValue (sortBySortValue cards).
Proof.
  unfold sortBySortValue. induction cards as [|c l IH]; simpl; [constructor|].
  by apply insertBySortValue_sorted.
Qed.

Lemma dealHands_spec (players : list Player.t) (newDeck : list Card.t) :
  length (dealHands players newDeck).1 = length players
  ∧ (dealHands players newDeck).2 = drop (length players * 7) newDeck
  ∧ (∀ (i : nat) (p : Player.t), players !! i = Some p →
       (dealHands players newDeck).1 !! i
       = Some (Player.set_melds []
                 (Player.set_hand
                    (sortBySortValue (take 7 (drop (i * 7) newDeck))) p)))
  ∧ concat (map Player.hand (dealHands players newDeck).1)
      ++ (dealHands players newDeck).2 ≡ₚ newDeck.
Proof.
  revert newDeck. induction players as [|p rest IH]; intros newDeck.
  - simpl. split; [done|]. split; [done|]. split; [done|]. done.
  - cbn [dealHands].
    destruct (dealHands rest (drop 7 newDeck)) as [rest' deck'] eqn:E.
    destruct (IH (drop 7 newDeck)) as (Hlen & Hdeck & Hlook & Hperm).
    rewrite E in Hlen, Hdeck, Hlook, Hperm. cbn [fst snd] in *.
    split; [simpl; by rewrite Hlen|]. split.
    { rewrite Hdeck, drop_drop. done. }
    split.
    { intros [|i] q Hq.
      - simpl in Hq. by injection Hq as <-.
      - change (rest !! i = Some q) in Hq.
        change ((?x :: ?l) !! S i) with (l !! i).
        rewrite (Hlook i q Hq), drop_drop. done. }
    cbn [map concat Player.hand Player.set_melds Player.set_hand].
    rewrite <- (take_drop 7 newDeck) at 2. rewrite <- app_assoc.
    apply Permutation_app; [apply sortBySortValue_Permutation|done].
Qed.


Lemma createDeck_enough (randomId : Suit.t → Rank.t → nat → string)
    (randomJoker : nat → nat → string) (random : nat → nat)
    (playerCount : nat) :
  (playerCount <= 6)%nat →
  (playerCount * 7
   <= length (createDeck randomId randomJoker random playerCount))%nat.
Proof.
  intros H.
  destruct (createDeck_facts randomId randomJoker random playerCount)
    as (Hlen & _). rewrite Hlen.
  destruct (Nat.leb_spec 4 playerCount); lia.
Qed.

(** A hand dealt from a deck that is long enough: seven cards of the
    deck, in order of sort value. *)
Lemma dealt_hand (newDeck : list Card.t) (i : nat) :
  (i * 7 + 7 <= length newDeck)%nat →
  let hand := sortBySortValue (take 7 (drop (i * 7) newDeck)) in
  length hand = 7%nat
  ∧ StronglySorted bySortValue hand
  ∧ (∀ P : Card.t → Prop, Forall P newDeck → Forall P hand).
Proof.
  intros Hlen hand. subst hand. split.
  { rewrite sortBySortValue_length, length_take, length_drop. lia. }
  split; [apply sortBySortValue_sorted|].
  intros P HP.
  apply (Permutation_Forall
           (Permutation_sym (sortBySortValue_Permutation _))).
  by apply Forall_take, Forall_drop.
Qed.

(** C10. When no player has reached the ceiling, starting the next round
    empties the list of joker declarations, together with the deck, the
    hands and the board: the deck is dealt from a newly created one
    ([createDeck] for the number of players, here two to six as the
    start screen offers), every player keeps score, id and name and gets
    seven cards of the new deck, sorted, whatever the old hand was, and
    no melds; what is left of the new deck is the deck of the round, and
    hands and deck together are the new deck, card for card; the discard
    pile is empty and the board the initial one; scoring against the
    list of the new round adds no penalty of 30 to any hand, whatever
    was declared in the round before. *)
Theorem startNextRound_resets_declarations
    (randomId : Suit.t → Rank.t → nat → string)
    (randomJoker : nat → nat → string) (random : nat → nat)
    (a : App.t) (gs : GameState.t) (summary : RoundSummary.t) :
  let updatedPlayers := RoundSummary.updatedPlayers summary in
  let createdDeck :=
    createDeck randomId randomJoker random (length updatedPlayers) in
  let packs := if (4 <=? length updatedPlayers)%nat then 2%nat else 1%nat in
  App.gameState a = Some gs →
  App.roundSummary a = Some summary →
  GameState.isTutorial gs = false →
  (∀ p : Player.t, p ∈ updatedPlayers → Player.score p < MAX_SCORE) →
  (length updatedPlayers <= 6)%nat →
  ∃ (a' : App.t) (gs' : GameState.t),
    startNextRound createdDeck a = Ok a'
    ∧ App.gameState a' = Some gs'
    ∧ GameState.jokerDeclarations gs' = []
    ∧ (GameState.players gs', GameState.deck gs')
      = dealHands updatedPlayers createdDeck
    ∧ GameState.boardSequences gs' = initialSequences
    ∧ GameState.discardPile gs' = []
    ∧ GameState.turnPhase gs' = ACTION
    ∧ GameState.round gs' = (GameState.round gs + 1)%nat
    ∧ (∀ p : Player.t,
         roundScore (GameState.jokerDeclarations gs') p
         = calculateHandPoints (Player.hand p))
    ∧ (∀ (p : Player.t) (c : Card.t),
         isDeclared (GameState.jokerDeclarations gs') c = false)
    ∧ length createdDeck = (54 * packs)%nat
    ∧ Forall deckCard createdDeck
    ∧ length (GameState.players gs') = length updatedPlayers
    ∧ (∀ (i : nat) (p : Player.t), updatedPlayers !! i = Some p →
         ∃ p' : Player.t,
           GameState.players gs' !! i = Some p'
           ∧ Player.score p' = Player.score p
           ∧ Player.id p' = Player.id p
           ∧ Player.name p' = Player.name p
           ∧ Player.melds p' = []
           ∧ Player.hand p'
             = sortBySortValue (take 7 (drop (i * 7) createdDeck))
           ∧ Player.hand p' ≡ₚ take 7 (drop (i * 7) createdDeck)
           ∧ length (Player.hand p') = 7%nat
           ∧ StronglySorted bySortValue (Player.hand p')
           ∧ Forall deckCard (Player.hand p'))
    ∧ GameState.deck gs' = drop (length updatedPlayers * 7) createdDeck
    ∧ length (GameState.deck gs')
      = (54 * packs - 7 * length updatedPlayers)%nat
    ∧ concat (map Player.hand (GameState.players gs')) ++ GameState.deck gs'
      ≡ₚ createdDeck.
Proof.
  intros updatedPlayers createdDeck packs Hgs Hsum Ht Hlow Hsix.
  unfold startNextRound. rewrite Hgs, Hsum, Ht. fold updatedPlayers.
  assert (existsb (fun p => MAX_SCORE <=? Player.score p) updatedPlayers
          = false) as ->.
  { apply not_true_is_false. intros H.
    apply existsb_exists in H as (p & Hp & Hscore).
    apply Z.leb_le in Hscore. apply list_elem_of_In, Hlow in Hp. lia. }
  pose proof (createDeck_enough randomId randomJoker random
                (length updatedPlayers) Hsix) as Henough.
  destruct (createDeck_facts randomId randomJoker random
              (length updatedPlayers)) as (Hsize & Hall & _).
  fold createdDeck in Henough, Hsize, Hall. fold packs in Hsize.
  destruct (dealHands_spec updatedPlayers createdDeck)
    as (Hlen & Hrest & Hlook & Hperm).
  destruct (dealHands updatedPlayers createdDeck) as [dealt newDeck].
  cbn [fst snd] in *.
  eexists _, _. split; [done|]. split; [done|]. simpl.
  do 6 (split; [done|]).
  split; [intros p; apply roundScore_no_declarations|].
  split; [done|]. split; [done|]. split; [done|]. split; [done|].
  split.
  { intros i p Hp. eexists. split; [by apply Hlook|]. simpl.
    destruct (dealt_hand createdDeck i) as (H7 & Hsorted & Hforall).
    { apply lookup_lt_Some in Hp. lia. }
    do 5 (split; [done|]).
    split; [apply sortBySortValue_Permutation|].
    split; [done|]. split; [done|]. by apply Hforall. }
  split; [done|].
  split; [rewrite Hrest, length_drop, Hsize; lia|done].
Qed.

(** The round after the one in which a joker stood for the king of
    hearts, dealt from one pack: the bot, who held that king, now holds
    seven cards of the new deck, 40 are left on the deck, and the king
    that cost 40 under the old list costs 10 under the new one. *)
Lemma startNextRound_resets_declarations_witness :
  ∃ (a' : App.t) (gs' : GameState.t) (bot' : Player.t),
    startNextRound
      (createDeck (fun _ _ _ => "a") (fun _ _ => "b") id (length lowPlayers))
      lowApp
    = Ok a'
    ∧ App.gameState a' = Some gs'
    ∧ GameState.jokerDeclarations gs' = []
    ∧ GameState.players gs' !! 1%nat = Some bot'
    ∧ length (Player.hand bot') = 7%nat
    ∧ Player.melds bot' = []
    ∧ Player.score bot' = 40
    ∧ length (GameState.deck gs') = 40%nat
    ∧ roundScore (GameState.jokerDeclarations gs')
        (Player.mk 1 "Bot 1" [heartK] false 0 false [])
      = 10
    ∧ roundScore lowDeclarations
        (Player.mk 1 "Bot 1" [heartK] false 0 false [])
      = 40.
Proof.
  destruct (startNextRound_resets_declarations (fun _ _ _ => "a")
              (fun _ _ => "b") id lowApp lowGame lowSummary eq_refl eq_refl
              eq_refl)
    as (a' & gs' & Hrun & Hgs' & Hdecl & _ & _ & _ & _ & _ & Hscore & _ & _
        & _ & _ & Hhands & _ & Hdeck & _).
  - intros p Hp. vm_compute in Hp.
    apply elem_of_cons in Hp as [->|Hp]; [reflexivity|].
    apply elem_of_cons in Hp as [->|Hp]; [reflexivity|].
    by apply elem_of_nil in Hp.
  - simpl. lia.
  - destruct (Hhands 1%nat (Player.mk 1 "Bot 1" [heartK] false 40 false [])
                eq_refl)
      as (bot' & Hbot & Hs & _ & _ & Hmelds & _ & _ & H7 & _).
    exists a', gs', bot'. split; [exact Hrun|]. split; [exact Hgs'|].
    split; [exact Hdecl|]. split; [exact Hbot|]. split; [exact H7|].
    split; [exact Hmelds|]. split; [exact Hs|]. split; [exact Hdeck|].
    split; [|reflexivity].
    rewrite Hscore. reflexivity.
Defined.

(** X10. [startGame] with two to six players: every player gets seven
    cards of the new deck, sorted by sort value, and starts at score 0
    without melds; the first player is the human one; what is left of the
    deck and the hands together are the deck that was created, card for
    card; the board is the initial one and it is the first player's
    turn. *)
Theorem startGame_deals (randomId : Suit.t → Rank.t → nat → string)
    (randomJoker : nat → nat → string) (random : nat → nat)
    (playerCount : nat) (a : App.t) :
  (2 <= playerCount <= 6)%nat →
  let createdDeck := createDeck randomId randomJoker random playerCount in
  ∃ gs : GameState.t,
    App.gameState (startGame createdDeck playerCount a) = Some gs
    ∧ App.gameStarted (startGame createdDeck playerCount a) = true
    ∧ length (GameState.players gs) = playerCount
    ∧ (∀ (i : nat) (p : Player.t), GameState.players gs !! i = Some p →
         Player.id p = i
         ∧ Player.isHuman p = Nat.eqb i 0
         ∧ Player.score p = 0
         ∧ Player.melds p = []
         ∧ length (Player.hand p) = 7%nat
         ∧ StronglySorted bySortValue (Player.hand p)
         ∧ Forall deckCard (Player.hand p))
    ∧ length (GameState.deck gs) = (length createdDeck - 7 * playerCount)%nat
    ∧ concat (map Player.hand (GameState.players gs)) ++ GameState.deck gs
      ≡ₚ createdDeck
    ∧ GameState.boardSequences gs = initialSequences
    ∧ GameState.turnPhase gs = ACTION
    ∧ GameState.currentPlayerIndex gs = 0%nat
    ∧ GameState.discardPile gs = []
    ∧ GameState.jokerDeclarations gs = [].
Proof.
  intros Hpc createdDeck. unfold startGame.
  set (players := map newPlayer (seq 0 playerCount)).
  destruct (dealHands_spec players createdDeck) as (Hlen & Hdeck & Hlook & Hperm).
  destruct (dealHands players createdDeck) as [dealt deck] eqn:E.
  cbn [fst snd] in *.
  assert (length players = playerCount) as Hn.
  { subst players. by rewrite length_map, length_seq. }
  pose proof (createDeck_enough randomId randomJoker random playerCount)
    as Henough. fold createdDeck in Henough.
  destruct (createDeck_facts randomId randomJoker random playerCount)
    as (_ & Hall & _). fold createdDeck in Hall.
  eexists. split; [done|]. split; [done|]. simpl.
  split; [by rewrite Hlen|]. split.
  { intros i p Hp.
    assert (i < playerCount)%nat as Hi.
    { apply lookup_lt_Some in Hp. lia. }
    assert (players !! i = Some (newPlayer i)) as Hnew.
    { subst players. change (map ?f ?l) with (f <$> l).
      rewrite list_lookup_fmap, lookup_seq_lt by done. done. }
    rewrite (Hlook i _ Hnew) in Hp. injection Hp as <-. simpl.
    destruct (dealt_hand createdDeck i) as (H7 & Hsorted & Hforall); [lia|].
    repeat split; try done. by apply Hforall. }
  split; [rewrite Hdeck, length_drop; lia|].
  split; [done|]. done.
Qed.

Lemma startGame_deals_witness :
  ∃ gs : GameState.t,
    App.gameState
      (startGame (createDeck (fun _ _ _ => "a") (fun _ _ => "b") id 3) 3
         (sampleApp 0))
    = Some gs
    ∧ length (GameState.players gs) = 3%nat
    ∧ length (GameState.deck gs) = 33%nat.
Proof.
  destruct (startGame_deals (fun _ _ _ => "a") (fun _ _ => "b") id 3
              (sampleApp 0)) as (gs & Hgs & _ & Hn & _ & Hdeck & _); [lia|].
  exists gs. split; [exact Hgs|]. split; [exact Hn|].
  rewrite Hdeck.
  destruct (createDeck_facts (fun _ _ _ => "a") (fun _ _ => "b") id 3)
    as [-> _]. reflexivity.
Defined.

(** X11. Starting the next round, when nobody has reached the ceiling,
    with a deck of at least seven cards a player: scores, identities and
    names carry over; every player gets a fresh hand of seven cards,
    sorted, and no melds; the hands and the rest of the deck together are
    the new deck; the round counter goes up by one and the player who
    starts is the one at index [round mod n]. *)
Theorem startNextRound_carries_scores (createdDeck : list Card.t) (a : App.t)
    (gs : GameState.t) (summary : RoundSummary.t) :
  App.gameState a = Some gs →
  App.roundSummary a = Some summary →
  GameState.isTutorial gs = false →
  (∀ p : Player.t,
     p ∈ RoundSummary.updatedPlayers summary → Player.score p < MAX_SCORE) →
  (length (RoundSummary.updatedPlayers summary) * 7 <= length createdDeck)%nat →
  RoundSummary.updatedPlayers summary ≠ [] →
  ∃ (a' : App.t) (gs' : GameState.t),
    startNextRound createdDeck a = Ok a'
    ∧ App.gameState a' = Some gs'
    ∧ App.roundSummary a' = None
    ∧ length (GameState.players gs')
      = length (RoundSummary.updatedPlayers summary)
    ∧ (∀ (i : nat) (p : Player.t),
         RoundSummary.updatedPlayers summary !! i = Some p →
         ∃ p' : Player.t,
           GameState.players gs' !! i = Some p'
           ∧ Player.score p' = Player.score p
           ∧ Player.id p' = Player.id p
           ∧ Player.name p' = Player.name p
           ∧ Player.melds p' = []
           ∧ length (Player.hand p') = 7%nat
           ∧ StronglySorted bySortValue (Player.hand p'))
    ∧ concat (map Player.hand (GameState.players gs')) ++ GameState.deck gs'
      ≡ₚ createdDeck
    ∧ GameState.round gs' = (GameState.round gs + 1)%nat
    ∧ GameState.currentPlayerIndex gs'
      = (GameState.round gs
         `mod` length (RoundSummary.updatedPlayers summary))%nat
    ∧ (GameState.currentPlayerIndex gs' < length (GameState.players gs'))%nat
    ∧ GameState.winner gs' = None
    ∧ GameState.pendingPong gs' = None.
Proof.
  intros Hgs Hsum Ht Hlow Hdeck Hne. unfold startNextRound.
  rewrite Hgs, Hsum, Ht.
  assert (existsb (fun p => MAX_SCORE <=? Player.score p)
            (RoundSummary.updatedPlayers summary) = false) as ->.
  { apply not_true_is_false. intros H.
    apply existsb_exists in H as (p & Hp & Hscore).
    apply Z.leb_le in Hscore. apply list_elem_of_In, Hlow in Hp. lia. }
  destruct (dealHands_spec (RoundSummary.updatedPlayers summary) createdDeck)
    as (Hlen & Hrest & Hlook & Hperm).
  destruct (dealHands _ _) as [dealt newDeck]. cbn [fst snd] in *.
  eexists _, _. split; [done|]. split; [done|]. split; [done|]. simpl.
  split; [done|]. split.
  { intros i p Hp. eexists. split; [by apply Hlook|]. simpl.
    destruct (dealt_hand createdDeck i) as (H7 & Hsorted & _).
    { apply lookup_lt_Some in Hp. lia. }
    done. }
  split; [done|]. split; [done|]. split; [done|]. split; [|done].
  rewrite Hlen. apply Nat.mod_upper_bound.
  by destruct (RoundSummary.updatedPlayers summary).
Qed.

Lemma startNextRound_carries_scores_witness :
  ∃ (a' : App.t) (gs' : GameState.t),
    startNextRound lowDeck lowApp = Ok a'
    ∧ App.gameState a' = Some gs'
    ∧ (Player.score <$> GameState.players gs') = [4; 40]
    ∧ GameState.currentPlayerIndex gs' = 1%nat.
Proof.
  destruct (startNextRound_carries_scores lowDeck lowApp lowGame lowSummary
              eq_refl eq_refl eq_refl)
    as (a' & gs' & Hrun & Hgs' & _ & _ & _ & _ & _ & Hcur & _).
  - intros p Hp. vm_compute in Hp.
    apply elem_of_cons in Hp as [->|Hp]; [reflexivity|].
    apply elem_of_cons in Hp as [->|Hp]; [reflexivity|].
    by apply elem_of_nil in Hp.
  - vm_compute. lia.
  - discriminate.
  - exists a', gs'. split; [exact Hrun|]. split; [exact Hgs'|].
    split; [|exact Hcur].
    vm_compute in Hrun. injection Hrun as <-. simpl in Hgs'.
    injection Hgs' as <-. reflexivity.
Defined.

Lemma imap_unchanged {A : Type} (h : nat → A → A) (l : list A) :
  (∀ i x, h i x = x) → imap h l = l.
Proof.
  revert h. induction l as [|x l IH]; intros h Hh; [done|].
  simpl. rewrite Hh. f_equal. apply IH. intros i y. apply Hh.
Qed.

(** [mapPlayer] is the update of one entry. *)
Lemma mapPlayer_alter (idx : nat) (f : Player.t → Player.t)
    (players : list Player.t) :
  mapPlayer idx f players = alter f idx players.
Proof.
  unfold mapPlayer. revert idx.
  induction players as [|p players IH]; intros idx; [done|].
  destruct idx as [|idx]; simpl.
  - f_equal. by apply imap_unchanged.
  - f_equal. apply IH.
Qed.

Lemma mapPlayer_middle (idx : nat) (f : Player.t → Player.t)
    (players : list Player.t) (p : Player.t) :
  players !! idx = Some p →
  players = take idx players ++ p :: drop (S idx) players
  ∧ mapPlayer idx f players = take idx players ++ f p :: drop (S idx) players.
Proof.
  intros Hp. split; [by rewrite take_drop_middle|].
  rewrite mapPlayer_alter. revert idx Hp.
  induction players as [|q players IH]; intros [|idx] Hp; try done.
  - simpl in *. by injection Hp as ->.
  - simpl in *. f_equal. by apply IH.
Qed.

Lemma mapPlayer_lookup (idx : nat) (f : Player.t → Player.t)
    (players : list Player.t) (i : nat) :
  mapPlayer idx f players !! i
  = if Nat.eqb i idx then f <$> players !! i else players !! i.
Proof.
  rewrite mapPlayer_alter, list_lookup_alter.
  destruct (Nat.eqb_spec i idx) as [->|Hne], (decide _); congruence.
Qed.

(** What a change of one player's cards does to the cards of all. *)
Lemma mapPlayer_cards (h : Player.t → list Card.t) (idx : nat)
    (f : Player.t → Player.t) (players : list Player.t) (p : Player.t)
    (gained lost : list Card.t) :
  players !! idx = Some p →
  h (f p) ++ lost ≡ₚ h p ++ gained →
  concat (map h (mapPlayer idx f players)) ++ lost
  ≡ₚ concat (map h players) ++ gained.
Proof.
  intros Hp Hperm.
  destruct (mapPlayer_middle idx f players p Hp) as [Hplayers Hmap].
  remember (take idx players) as pre. remember (drop (S idx) players) as post.
  rewrite Hmap, Hplayers.
  rewrite !map_app, !concat_app. simpl.
  rewrite <- !app_assoc.
  apply Permutation_app_head.
  rewrite (Permutation_app_comm (concat _) lost), !app_assoc.
  rewrite Hperm.
  rewrite <- !app_assoc. apply Permutation_app_head, Permutation_app_comm.
Qed.
Lemma mapPlayer_same_cards (h : Player.t → list Card.t) (idx : nat)
    (f : Player.t → Player.t) (players : list Player.t) (p : Player.t) :
  players !! idx = Some p →
  h (f p) = h p →
  map h (mapPlayer idx f players) = map h players.
Proof.
  intros Hp Hf.
  destruct (mapPlayer_middle idx f players p Hp) as [Hplayers Hmap].
  remember (take idx players) as pre. remember (drop (S idx) players) as post.
  rewrite Hmap, Hplayers, !map_app. simpl. by rewrite Hf.
Qed.

(** X12. Drawing in the action phase outside the tutorial, with a valid
    current player: the phase becomes the discard phase; the top card of
    the deck, if there is one, goes to the hand of the current player,
    which is sorted again; no card is lost or made and nothing else of
    the table changes.  On an empty deck the game state is the old one
    with the new phase only: the line logged for it is overwritten. *)
Theorem drawCard_conserves (a : App.t) (gs : GameState.t) (player : Player.t) :
  App.gameState a = Some gs →
  GameState.turnPhase gs = ACTION →
  GameState.isTutorial gs = false →
  GameState.players gs !! GameState.currentPlayerIndex gs = Some player →
  ∃ (a' : App.t) (gs' : GameState.t) (player' : Player.t),
    drawCard a = Ok a'
    ∧ App.gameState a' = Some gs'
    ∧ GameState.turnPhase gs' = DISCARD
    ∧ GameState.deck gs' = drop 1 (GameState.deck gs)
    ∧ GameState.players gs' !! GameState.currentPlayerIndex gs = Some player'
    ∧ Player.hand player' ≡ₚ Player.hand player ++ take 1 (GameState.deck gs)
    ∧ (GameState.deck gs ≠ [] →
         StronglySorted bySortValue (Player.hand player'))
    ∧ (∀ i : nat, i ≠ GameState.currentPlayerIndex gs →
         GameState.players gs' !! i = GameState.players gs !! i)
    ∧ cardsOf gs' ≡ₚ cardsOf gs
    ∧ GameState.currentPlayerIndex gs' = GameState.currentPlayerIndex gs
    ∧ GameState.discardPile gs' = GameState.discardPile gs
    ∧ GameState.boardSequences gs' = GameState.boardSequences gs
    ∧ GameState.jokerDeclarations gs' = GameState.jokerDeclarations gs
    ∧ (GameState.deck gs = [] → gs' = GameState.set_turnPhase DISCARD gs).
Proof.
  intros Hgs Hphase Htut Hplayer. unfold drawCard.
  rewrite Hgs, Hphase, Htut. simpl.
  destruct (GameState.deck gs) as [|card deck] eqn:Hdeck.
  - exists (App.setGameState (Some (GameState.set_turnPhase DISCARD gs))
              (addLog "Deck empty! Skipping draw." a)).
    exists (GameState.set_turnPhase DISCARD gs), player.
    repeat split; try done. by rewrite app_nil_r.
  - rewrite Hplayer.
    eexists _, _, _. split; [done|]. split; [done|]. simpl.
    split; [done|]. split; [done|].
    split.
    { rewrite mapPlayer_lookup, Nat.eqb_refl, Hplayer. done. }
    simpl. split; [apply sortBySortValue_Permutation|].
    split; [intros _; apply sortBySortValue_sorted|].
    split.
    { intros i Hi. rewrite mapPlayer_lookup.
      destruct (Nat.eqb_spec i (GameState.currentPlayerIndex gs)); congruence. }
    split; [|done].
    unfold cardsOf. simpl. rewrite Hdeck.
    rewrite (mapPlayer_same_cards (fun p => concat (Player.melds p)) _ _ _
               player Hplayer) by done.
    pose proof (mapPlayer_cards Player.hand (GameState.currentPlayerIndex gs)
                  (fun _ =>
                     Player.set_hand
                       (sortBySortValue (Player.hand player ++ [card])) player)
                  (GameState.players gs) player [card] [] Hplayer) as Hhands.
    rewrite !app_nil_r in Hhands.
    rewrite Hhands by apply sortBySortValue_Permutation.
    rewrite <- !app_assoc. apply Permutation_app_head.
    simpl. by rewrite Permutation_middle.
Qed.
Lemma drawCard_conserves_witness :
  ∃ (a' : App.t) (gs' : GameState.t),
    drawCard (sampleApp 0) = Ok a'
    ∧ App.gameState a' = Some gs'
    ∧ GameState.turnPhase gs' = DISCARD
    ∧ GameState.deck gs' = [].
Proof.
  destruct (drawCard_conserves (sampleApp 0) (sampleGame 0)
              (Player.mk 0 "You" [heartK; aJoker] true 0 false [])
              eq_refl eq_refl eq_refl eq_refl)
    as (a' & gs' & _ & Hrun & Hgs' & Hphase & Hdeck & _).
  exists a', gs'. split; [exact Hrun|]. split; [exact Hgs'|].
  split; [exact Hphase|exact Hdeck].
Defined.

(** When [drawCard] throws: only in the action phase, and then
    either in the tutorial with a step counter past the script, or with
    a card on the deck and a current player index that names no
    player.  On an empty deck it never throws outside the tutorial. *)
Lemma drawCard_throws (a : App.t) :
  drawCard a = TypeError
  ↔ ∃ gs : GameState.t,
      App.gameState a = Some gs
      ∧ GameState.turnPhase gs = ACTION
      ∧ ((GameState.isTutorial gs = true ∧ tutorialStepOf gs = None)
         ∨ ((GameState.isTutorial gs = false
             ∨ tutorialStepOf gs = Some Action.DRAW)
            ∧ GameState.deck gs ≠ []
            ∧ GameState.players gs !! GameState.currentPlayerIndex gs = None)).
Proof.
  unfold drawCard. destruct (App.gameState a) as [gs|]; [|split].
  2: discriminate.
  2: by intros (gs & Hgs & _).
  split.
  - intros H. exists gs. split; [done|].
    destruct (decide (GameState.turnPhase gs = ACTION)) as [Hphase|Hphase].
    2: { rewrite (bool_decide_eq_false_2 _ Hphase) in H. discriminate. }
    split; [done|].
    rewrite (bool_decide_eq_true_2 _ Hphase) in H. simpl in H.
    destruct (GameState.isTutorial gs).
    + destruct (tutorialStepOf gs) as [action|]; [|by left].
      destruct (decide (action = Action.DRAW)) as [->|Hact].
      * simpl in H. right. split; [by right|].
        destruct (GameState.deck gs); [discriminate|].
        split; [done|].
        by destruct (GameState.players gs !! GameState.currentPlayerIndex gs).
      * rewrite (bool_decide_eq_false_2 _ Hact) in H. discriminate.
    + right. split; [by left|].
      destruct (GameState.deck gs); [discriminate|].
      split; [done|].
      by destruct (GameState.players gs !! GameState.currentPlayerIndex gs).
  - intros (gs0 & Hgs & Hphase & H). injection Hgs as <-.
    rewrite (bool_decide_eq_true_2 _ Hphase). simpl.
    destruct H as [[-> ->]|(Htut & Hdeck & Hplayer)]; [done|].
    assert ((if GameState.isTutorial gs
             then match tutorialStepOf gs with
                  | Some action =>
                      if action !== Action.DRAW
                      then Some (Ok (addLog "Tutorial: Do not draw yet." a))
                      else None
                  | None => Some TypeError
                  end
             else None) = None) as ->.
    { destruct Htut as [->| ->]; [done|]. by destruct (GameState.isTutorial gs). }
    destruct (GameState.deck gs); [done|]. by rewrite Hplayer.
Qed.

(** In a hand whose ids are distinct, [find] by the id of a card gives
    that card, and the hand without that id is the hand less that card. *)
Lemma withoutId_unique (hand : list Card.t) (c : Card.t) :
  NoDup (map Card.id hand) → c ∈ hand →
  List.find (fun x => Card.id x === Card.id c) hand = Some c
  ∧ c :: withoutId (Card.id c) hand ≡ₚ hand.
Proof.
  unfold withoutId.
  induction hand as [|d hand IH]; intros Hnd Hc.
  { by apply elem_of_nil in Hc. }
  simpl in Hnd. apply NoDup_cons in Hnd as [Hd Hnd]. simpl.
  destruct (decide (Card.id d = Card.id c)) as [Hid|Hid].
  - rewrite (bool_decide_eq_true_2 _ Hid). simpl.
    assert (d = c) as ->.
    { apply elem_of_cons in Hc as [->|Hc]; [done|].
      exfalso. apply Hd. rewrite Hid.
      change (map Card.id hand) with (Card.id <$> hand).
      by apply list_elem_of_fmap_2. }
    split; [done|]. apply Permutation_cons; [done|].
    rewrite filter_of_all; [done|].
    apply Forall_forall. intros x Hx.
    apply negb_true_iff, bool_decide_eq_false_2. intros Hx'.
    apply Hd. rewrite <- Hx'.
    change (map Card.id hand) with (Card.id <$> hand).
    by apply list_elem_of_fmap_2.
  - rewrite (bool_decide_eq_false_2 _ Hid). simpl.
    apply elem_of_cons in Hc as [->|Hc]; [done|].
    destruct (IH Hnd Hc) as [Hfind Hperm].
    split; [done|]. by rewrite Permutation_swap, Hperm.
Qed.

(** X13. Discarding outside the tutorial, in the discard phase, the one
    selected card of a hand with distinct ids: the card leaves the hand
    of the human player for the top of the discard pile and becomes the
    pending discard of player 0; the turn passes to the player after the
    current one; no card is lost or made. *)
Theorem discardCard_moves_card (a : App.t) (gs : GameState.t)
    (player : Player.t) (card : Card.t) :
  App.gameState a = Some gs →
  App.selectedCards a = [Card.id card] →
  GameState.turnPhase gs = DISCARD →
  GameState.isTutorial gs = false →
  GameState.players gs !! 0%nat = Some player →
  card ∈ Player.hand player →
  NoDup (map Card.id (Player.hand player)) →
  ∃ (a' : App.t) (gs' : GameState.t) (player' : Player.t),
    discardCard a = Ok a'
    ∧ App.gameState a' = Some gs'
    ∧ App.selectedCards a' = []
    ∧ GameState.players gs' !! 0%nat = Some player'
    ∧ card :: Player.hand player' ≡ₚ Player.hand player
    ∧ GameState.discardPile gs' = card :: GameState.discardPile gs
    ∧ GameState.pendingPong gs' = Some (PendingPong.mk card 0)
    ∧ GameState.currentPlayerIndex gs'
      = ((GameState.currentPlayerIndex gs + 1)
         `mod` length (GameState.players gs))%nat
    ∧ GameState.turnPhase gs' = ACTION
    ∧ cardsOf gs' ≡ₚ cardsOf gs
    ∧ GameState.deck gs' = GameState.deck gs
    ∧ GameState.boardSequences gs' = GameState.boardSequences gs
    ∧ GameState.jokerDeclarations gs' = GameState.jokerDeclarations gs.
Proof.
  intros Hgs Hsel Hphase Htut Hplayer Hcard Hnd. unfold discardCard.
  rewrite Hgs, Hsel, Hphase, Hplayer, Htut. simpl.
  destruct (withoutId_unique _ _ Hnd Hcard) as [-> Hperm].
  eexists _, _, _. split; [done|]. split; [done|]. split; [done|]. simpl.
  split.
  { rewrite mapPlayer_lookup. simpl. by rewrite Hplayer. }
  simpl. split; [done|].
  repeat (split; [done|]). split; [|done].
  unfold cardsOf. simpl.
  rewrite (mapPlayer_same_cards (fun p => concat (Player.melds p)) _ _ _
             player Hplayer) by done.
  pose proof (mapPlayer_cards Player.hand 0
                (Player.set_hand (withoutId (Card.id card) (Player.hand player)))
                (GameState.players gs) player [] [card] Hplayer) as Hhands.
  rewrite !app_nil_r in Hhands.
  rewrite <- Hhands.
  2: { simpl. by rewrite <- Permutation_cons_append. }
  rewrite <- !app_assoc. apply Permutation_app_head.
  symmetry. simpl. rewrite !app_assoc. by apply Permutation_cons_app.
Qed.

Lemma discardCard_moves_card_witness :
  ∃ (a' : App.t) (gs' : GameState.t),
    discardCard
      (App.setSelectedCards ["hK"]
         (App.setGameState
            (Some (GameState.set_turnPhase DISCARD (sampleGame 0)))
            (sampleApp 0)))
    = Ok a'
    ∧ App.gameState a' = Some gs'
    ∧ GameState.discardPile gs' = [heartK]
    ∧ GameState.currentPlayerIndex gs' = 1%nat.
Proof.
  destruct (discardCard_moves_card
              (App.setSelectedCards ["hK"]
                 (App.setGameState
                    (Some (GameState.set_turnPhase DISCARD (sampleGame 0)))
                    (sampleApp 0)))
              (GameState.set_turnPhase DISCARD (sampleGame 0))
              (Player.mk 0 "You" [heartK; aJoker] true 0 false [])
              heartK eq_refl eq_refl eq_refl eq_refl eq_refl)
    as (a' & gs' & _ & Hrun & Hgs' & _ & _ & _ & Hpile & _ & Hcur & _).
  - simpl. apply elem_of_cons. by left.
  - simpl. apply NoDup_cons. split.
    + intros H. apply elem_of_cons in H as [H|H]; [discriminate|].
      by apply elem_of_nil in H.
    + apply NoDup_cons. split; [apply not_elem_of_nil|apply NoDup_nil_2].
  - exists a', gs'. split; [exact Hrun|]. split; [exact Hgs'|].
    split; [exact Hpile|exact Hcur].
Defined.

(** X14. The discard of the human player is never offered back: once
    [discardCard] has put a pending discard in place, the effect on it
    drops it again, in the tutorial too, and leaves the claim dialog as
    it was. *)
Theorem discard_not_offered (a a' : App.t) (gs gs' : GameState.t) :
  App.gameState a = Some gs →
  GameState.pendingPong gs = None →
  discardCard a = Ok a' →
  App.gameState a' = Some gs' →
  GameState.pendingPong gs' ≠ None →
  pongEffect a'
  = Ok (App.updateGameState (GameState.set_pendingPong None) a')
  ∧ App.showPongModal a' = App.showPongModal a.
Proof.
  intros Hgs Hpending Hrun Hgs' Hset. unfold discardCard in Hrun.
  rewrite Hgs in Hrun.
  assert (a' = a → False) as Hne.
  { intros ->. congruence. }
  assert (∀ msg, a' = addLog msg a → False) as Hlog.
  { intros msg ->. unfold addLog, App.updateGameState in Hgs'.
    rewrite Hgs in Hgs'. simpl in Hgs'. injection Hgs' as <-.
    by apply Hset. }
  destruct (App.selectedCards a) as [|cardId [|? ?]];
    try (injection Hrun as <-; by destruct Hne).
  destruct (GameState.turnPhase gs !== DISCARD);
    try (injection Hrun as <-; by destruct Hne).
  destruct (GameState.players gs !! 0%nat) as [player|]; [|discriminate].
  destruct (List.find _ _) as [card|];
    try (injection Hrun as <-; by destruct Hne).
  destruct (GameState.isTutorial gs) eqn:Htut.
  - destruct (tutorialStepOf gs) as [action|]; [|discriminate].
    destruct ((action === Action.DISCARD_K) && (Card.rank card !== Rank.KING)).
    + injection Hrun as <-. by destruct (Hlog _ eq_refl).
    + injection Hrun as <-. simpl in Hgs'. injection Hgs' as <-.
      unfold pongEffect. simpl. by rewrite Htut.
  - injection Hrun as <-. simpl in Hgs'. injection Hgs' as <-.
    unfold pongEffect. simpl. by rewrite Htut.
Qed.

Lemma discard_not_offered_witness :
  ∃ a' : App.t,
    discardCard
      (App.setSelectedCards ["hK"]
         (App.setGameState
            (Some (GameState.set_turnPhase DISCARD (sampleGame 0)))
            (sampleApp 0)))
    = Ok a'
    ∧ pongEffect a'
      = Ok (App.updateGameState (GameState.set_pendingPong None) a').
Proof.
  eexists. split; [reflexivity|].
  eapply (discard_not_offered
            (App.setSelectedCards ["hK"]
               (App.setGameState
                  (Some (GameState.set_turnPhase DISCARD (sampleGame 0)))
                  (sampleApp 0)))).
  - reflexivity.
  - reflexivity.
  - reflexivity.
  - reflexivity.
  - discriminate.
Defined.
Lemma filter_partition {A : Type} (f : A → bool) (l : list A) :
  List.filter f l ++ List.filter (fun x => negb (f x)) l ≡ₚ l.
Proof.
  induction l as [|x l IH]; [done|]. simpl.
  destruct (f x); simpl.
  - by rewrite IH.
  - by rewrite <- Permutation_middle, IH.
Qed.

Lemma indexed_fst {A : Type} (l : list A) (k : nat) :
  map fst (imap (fun i x => (k + i, x)%nat) l) = seq k (length l).
Proof.
  revert k. induction l as [|x l IH]; intros k; [done|].
  simpl. rewrite Nat.add_0_r. f_equal.
  rewrite <- IH. f_equal. apply imap_ext. intros i y _. simpl.
  f_equal. lia.
Qed.

Lemma indexed_NoDup {A : Type} (l : list A) :
  NoDup (map fst (imap pair l)).
Proof.
  rewrite <- (imap_ext (fun i x => (0 + i, x)%nat)) by done.
  rewrite indexed_fst. apply NoDup_seq.
Qed.

Lemma indexed_snd {A : Type} (l : list A) : map snd (imap pair l) = l.
Proof.
  change (map snd ?x) with (snd <$> x). rewrite fmap_imap.
  by apply imap_unchanged.
Qed.

(** Picking out of a list with distinct keys the entries whose key is that
    of an entry of a sublist gives the sublist back. *)
Lemma keyed_pick {A K : Type} (key : A → K) (eqb : K → K → bool)
    (used l : list A) :
  (∀ x y, eqb x y = true ↔ x = y) →
  NoDup (map key l) → used `sublist_of` l →
  List.filter (fun x => existsb (fun u => eqb (key u) (key x)) used) l = used.
Proof.
  intros Heqb Hnd Hsub.
  induction Hsub as [|x used l Hsub IH|x used l Hsub IH].
  - done.
  - simpl in *. apply NoDup_cons in Hnd as [Hx Hnd].
    rewrite (proj2 (Heqb _ _) eq_refl). simpl. f_equal.
    etransitivity; [|by apply IH]. apply filter_ext_in. intros y Hy.
    simpl. destruct (eqb (key x) (key y)) eqn:E; [|done].
    exfalso. apply Hx. apply Heqb in E. rewrite E.
    apply list_elem_of_In in Hy.
    change (map key l) with (key <$> l). by apply list_elem_of_fmap_2.
  - simpl in *. apply NoDup_cons in Hnd as [Hx Hnd].
    assert (existsb (fun u => eqb (key u) (key x)) used = false) as ->.
    { apply not_true_is_false. intros H.
      apply existsb_exists in H as (u & Hu & Heq).
      apply Heqb in Heq. apply Hx. rewrite <- Heq.
      apply list_elem_of_In in Hu.
      change (map key l) with (key <$> l). apply list_elem_of_fmap_2.
      by apply (sublist_subseteq _ _ Hsub). }
    by apply IH.
Qed.

(** The hand that a clean claim leaves, with the cards it took. *)
Lemma indexed_without {A : Type} (hand : list A) (used : list (nat * A)) :
  used `sublist_of` imap pair hand →
  map snd used
  ++ map snd
       (List.filter
          (fun ic => negb (existsb (fun u => Nat.eqb u.1 ic.1) used))
          (imap pair hand))
  ≡ₚ hand.
Proof.
  intros Hsub.
  rewrite <- (keyed_pick fst Nat.eqb used (imap pair hand)) at 1
    by (apply Nat.eqb_eq || apply indexed_NoDup || done).
  rewrite <- map_app.
  rewrite (filter_partition
             (fun ic => existsb (fun u => Nat.eqb u.1 ic.1) used)).
  by rewrite indexed_snd.
Qed.

Lemma natural_matches (hand : list Card.t) (r : Rank.t) :
  List.filter (fun c => (Card.rank c === r) && negb (Card.isJoker c)) hand
  = rankCounts hand r.
Proof.
  unfold rankCounts. apply filter_ext. intros c. apply andb_comm.
Qed.

(** When the claim dialog's rule holds, [doPong] finds its two cards. *)
Lemma cardsToUse_enough (hand : list Card.t) (discard : Card.t) :
  (2 <= length (rankCounts hand (Card.rank discard))
        + length (List.filter (fun c => Card.isJoker c) hand))%nat →
  ∃ used : list (nat * Card.t),
    cardsToUse hand discard = Some used ∧ length used = 2%nat.
Proof.
  intros H. unfold cardsToUse.
  pose proof (indexed_filter_length
                (fun c => (Card.rank c === Card.rank discard)
                          && negb (Card.isJoker c)) hand) as Hn.
  pose proof (indexed_filter_length (fun c => Card.isJoker c) hand) as Hj.
  rewrite natural_matches in Hn.
  cbv beta in Hn, Hj.
  destruct (List.filter
              (fun ic => (Card.rank ic.2 === Card.rank discard)
                         && negb (Card.isJoker ic.2)) (imap pair hand))
    as [|n1 [|n2 ns]];
    destruct (List.filter (fun ic => Card.isJoker ic.2) (imap pair hand))
      as [|j1 [|j2 js]];
    simpl in *; try lia; eexists; (split; [reflexivity|done]).
Qed.
(** X15. Outside the tutorial the claim dialog is opened only for a
    discard of another player that the human player can complete: when
    the effect opens it, [doPong] finds its two cards in the hand and
    does not throw. *)
Theorem pongEffect_guards_doPong (a a' : App.t) (gs : GameState.t) :
  App.gameState a = Some gs →
  GameState.isTutorial gs = false →
  App.showPongModal a = false →
  pongEffect a = Ok a' →
  App.showPongModal a' = true →
  ∃ (pending : PendingPong.t) (human : Player.t)
    (used : list (nat * Card.t)) (a'' : App.t),
    GameState.pendingPong gs = Some pending
    ∧ PendingPong.discarderIndex pending ≠ 0%nat
    ∧ GameState.players gs !! 0%nat = Some human
    ∧ cardsToUse (Player.hand human) (PendingPong.card pending) = Some used
    ∧ length used = 2%nat
    ∧ doPong a' = Ok a''.
Proof.
  intros Hgs Htut Hclosed Hrun Hopen. unfold pongEffect in Hrun.
  rewrite Hgs, Htut in Hrun. cbn [andb] in Hrun.
  destruct (GameState.pendingPong gs) as [pending|] eqn:Hpending.
  2: { injection Hrun as <-. congruence. }
  destruct (Nat.eqb_spec (PendingPong.discarderIndex pending) 0) as [Hd|Hd];
    cbn [negb] in Hrun.
  { injection Hrun as <-. simpl in Hopen. congruence. }
  destruct (GameState.players gs !! 0%nat) as [human|] eqn:Hhuman;
    [|discriminate].
  rewrite natural_matches in Hrun.
  destruct (Nat.leb_spec 2
              (length (rankCounts (Player.hand human)
                         (Card.rank (PendingPong.card pending)))
               + length (List.filter (fun c => Card.isJoker c)
                           (Player.hand human)))) as [Hle|Hlt].
  2: { injection Hrun as <-. simpl in Hopen. congruence. }
  injection Hrun as <-.
  destruct (cardsToUse_enough _ _ Hle) as (used & Hused & Hlen).
  exists pending, human, used.
  unfold doPong. simpl. rewrite Hgs, Hpending, Hhuman, Hused.
  destruct ((Card.rank (PendingPong.card pending) === Rank.SEVEN)
            && (0 <? length (List.filter (fun ic => Card.isJoker ic.2) used))%nat);
    [by eexists|].
  destruct (0 <? length (List.filter (fun ic => Card.isJoker ic.2) used))%nat;
    by eexists.
Qed.

Lemma pongEffect_guards_doPong_witness :
  ∃ a'' : App.t,
    doPong (App.setShowPongModal true (App.setShowPongModal false pongApp))
    = Ok a''.
Proof.
  destruct (pongEffect_guards_doPong (App.setShowPongModal false pongApp)
              (App.setShowPongModal true (App.setShowPongModal false pongApp))
              pongGame eq_refl eq_refl eq_refl eq_refl eq_refl)
    as (_ & _ & _ & a'' & _ & _ & _ & _ & _ & Hrun).
  exists a''. exact Hrun.
Defined.

(** X16. A clean claim: with two natural cards of the rank of the pending
    discard in hand, and that discard on top of the pile, [doPong] lays
    down the first two of them with the discard as a meld of three cards
    of one rank, takes the discard off the pile, and gives the turn to
    the human player in the action phase; no card is lost or made, and
    board and declarations stay as they are. *)
Theorem doPong_clean (a : App.t) (gs : GameState.t) (pending : PendingPong.t)
    (human : Player.t) (pile : list Card.t) :
  App.gameState a = Some gs →
  GameState.pendingPong gs = Some pending →
  GameState.players gs !! 0%nat = Some human →
  (2 <= length (rankCounts (Player.hand human)
                  (Card.rank (PendingPong.card pending))))%nat →
  GameState.discardPile gs = PendingPong.card pending :: pile →
  ∃ (a' : App.t) (gs' : GameState.t) (human' : Player.t) (n1 n2 : Card.t),
    doPong a = Ok a'
    ∧ App.gameState a' = Some gs'
    ∧ App.showPongModal a' = false
    ∧ App.pendingMeldAction a' = App.pendingMeldAction a
    ∧ GameState.players gs' !! 0%nat = Some human'
    ∧ Player.melds human'
      = Player.melds human ++ [[n1; n2; PendingPong.card pending]]
    ∧ take 2 (rankCounts (Player.hand human)
                (Card.rank (PendingPong.card pending))) = [n1; n2]
    ∧ Card.isJoker n1 = false ∧ Card.isJoker n2 = false
    ∧ Card.rank n1 = Card.rank (PendingPong.card pending)
    ∧ Card.rank n2 = Card.rank (PendingPong.card pending)
    ∧ n1 :: n2 :: Player.hand human' ≡ₚ Player.hand human
    ∧ GameState.discardPile gs' = pile
    ∧ GameState.currentPlayerIndex gs' = 0%nat
    ∧ GameState.turnPhase gs' = ACTION
    ∧ GameState.pendingPong gs' = None
    ∧ cardsOf gs' ≡ₚ cardsOf gs
    ∧ GameState.deck gs' = GameState.deck gs
    ∧ GameState.boardSequences gs' = GameState.boardSequences gs
    ∧ GameState.jokerDeclarations gs' = GameState.jokerDeclarations gs.
Proof.
  intros Hgs Hpending Hhuman Htwo Hpile. unfold doPong.
  rewrite Hgs, Hpending, Hhuman.
  set (discard := PendingPong.card pending) in *.
  set (hand := Player.hand human) in *.
  set (naturals :=
         List.filter
           (fun ic => (Card.rank ic.2 === Card.rank discard)
                      && negb (Card.isJoker ic.2)) (imap pair hand)).
  assert (map snd naturals = rankCounts hand (Card.rank discard)) as Hnat.
  { pose proof (indexed_filter
                  (fun c : Card.t =>
                     (Card.rank c === Card.rank discard)
                     && negb (Card.isJoker c)) hand pair) as E.
    subst naturals. rewrite <- natural_matches. by apply E. }
  assert (Forall (fun ic => (Card.rank ic.2 === Card.rank discard)
                            && negb (Card.isJoker ic.2) = true) naturals)
    as Hall.
  { pose proof (filter_all
                  (fun ic : nat * Card.t =>
                     (Card.rank ic.2 === Card.rank discard)
                     && negb (Card.isJoker ic.2)) (imap pair hand)) as E.
    subst naturals. exact E. }
  assert (naturals `sublist_of` imap pair hand) as Hsub.
  { subst naturals. apply filter_sublist. }
  assert (cardsToUse hand discard = Some (take 2 naturals)) as ->.
  { unfold cardsToUse. fold naturals.
    assert (2 <= length naturals)%nat as Hlen.
    { by rewrite <- (length_map snd), Hnat. }
    by apply Nat.leb_le in Hlen as ->. }
  destruct naturals as [|[i1 n1] [|[i2 n2] more]] eqn:Hnaturals.
  1,2: rewrite <- Hnat in Htwo; simpl in Htwo; lia.
  apply Forall_cons in Hall as [H1 Hall].
  apply Forall_cons in Hall as [H2 _].
  apply andb_true_iff in H1 as [Hr1 Hj1], H2 as [Hr2 Hj2].
  apply bool_decide_eq_true in Hr1, Hr2.
  apply negb_true_iff in Hj1, Hj2. simpl in Hr1, Hr2, Hj1, Hj2.
  cbn [take]. cbn [List.filter snd]. rewrite Hj1, Hj2.
  cbn [length Nat.ltb Nat.leb andb].
  rewrite andb_false_r.
  assert ([(i1, n1); (i2, n2)] `sublist_of` imap pair hand) as Hused.
  { etrans; [|exact Hsub].
    apply (sublist_take ((i1, n1) :: (i2, n2) :: more) 2). }
  pose proof (indexed_without hand [(i1, n1); (i2, n2)] Hused) as Hhand.
  simpl in Hhand.
  eexists _, _, _, n1, n2. split; [done|]. split; [done|].
  split; [done|]. split; [done|]. cbn [App.gameState App.setGameState
    App.setShowPongModal].
  split.
  { simpl. rewrite mapPlayer_lookup. simpl. by rewrite Hhuman. }
  split; [done|].
  split; [by rewrite <- Hnat|].
  do 4 (split; [done|]).
  split; [exact Hhand|].
  split; [simpl; by rewrite Hpile|].
  do 3 (split; [done|]). split; [|done].
  unfold cardsOf. cbn [GameState.players GameState.deck GameState.discardPile
    GameState.set_tutorialStep GameState.set_logs GameState.set_pendingPong
    GameState.set_turnPhase GameState.set_currentPlayerIndex
    GameState.set_discardPile GameState.set_players].
  rewrite Hpile. cbn [drop].
  match goal with
  | |- context [mapPlayer 0 ?f _] =>
      pose proof (mapPlayer_cards Player.hand 0 f (GameState.players gs) human
                    [] [n1; n2] Hhuman) as Hhands;
      pose proof (mapPlayer_cards (fun p => concat (Player.melds p)) 0 f
                    (GameState.players gs) human [n1; n2; discard] []
                    Hhuman) as Hmelds
  end.
  rewrite !app_nil_r in Hhands, Hmelds. cbn beta in Hhands, Hmelds.
  rewrite <- Hhands, Hmelds.
  - solve_Permutation.
  - simpl. rewrite concat_app. simpl. by rewrite ?app_nil_r.
  - simpl. fold hand. etrans; [|exact Hhand]. solve_Permutation.
Qed.
Lemma doPong_clean_witness :
  ∃ (a' : App.t) (gs' : GameState.t),
    doPong cleanPongApp = Ok a'
    ∧ App.gameState a' = Some gs'
    ∧ GameState.discardPile gs' = []
    ∧ (Player.hand <$> GameState.players gs' !! 0%nat) = Some [heart8].
Proof.
  destruct (doPong_clean cleanPongApp cleanPongGame (PendingPong.mk spadeK 1)
              cleanPongHuman [] eq_refl eq_refl eq_refl)
    as (a' & gs' & human' & n1 & n2 & Hrun & Hgs' & _ & _ & _ & _ & _ & _ & _
        & _ & _ & _ & Hpile & _).
  - vm_compute. lia.
  - reflexivity.
  - exists a', gs'. split; [exact Hrun|]. split; [exact Hgs'|].
    split; [exact Hpile|].
    vm_compute in Hrun. injection Hrun as <-. simpl in Hgs'.
    injection Hgs' as <-. reflexivity.
Defined.
Lemma declareJokers_enough (jokers : list Card.t)
    (declarations : list (Suit.t * Rank.t)) :
  (length jokers <= length declarations)%nat →
  ∃ decls : list JokerDeclaration.t,
    declareJokers jokers declarations = Some decls
    ∧ map JokerDeclaration.cardId decls = map Card.id jokers
    ∧ map (fun d => (JokerDeclaration.representedSuit d,
                     JokerDeclaration.representedRank d)) decls
      = take (length jokers) declarations.
Proof.
  revert declarations.
  induction jokers as [|j jokers IH]; intros declarations Hlen.
  { exists []. by rewrite take_0. }
  destruct declarations as [|[s r] ds]; simpl in Hlen; [lia|].
  destruct (IH ds) as (decls & Hrun & Hids & Hdecl); [lia|].
  eexists. simpl. rewrite Hrun. simpl. split; [done|]. simpl.
  by rewrite Hids, Hdecl.
Qed.

Lemma declareJokers_short (jokers : list Card.t)
    (declarations : list (Suit.t * Rank.t)) :
  declareJokers jokers declarations = None
  ↔ (length declarations < length jokers)%nat.
Proof.
  split.
  - intros Hnone.
    destruct (Nat.le_gt_cases (length jokers) (length declarations))
      as [Hle|]; [|done].
    destruct (declareJokers_enough _ _ Hle) as (? & ? & _). congruence.
  - revert declarations.
    induction jokers as [|j jokers IH]; intros [|d ds] Hlen;
      simpl in *; try lia; [done|].
    rewrite IH by lia. done.
Qed.

(** X17. When [confirmMeldWithJokers] throws: with a game and a pending
    meld in place, exactly when there is no player 0 or the declarations
    it is given are fewer than the wild cards among the pending cards. *)
Theorem confirmMeldWithJokers_throws (declarations : list (Suit.t * Rank.t))
    (a : App.t) :
  confirmMeldWithJokers declarations a = TypeError
  ↔ ∃ (gs : GameState.t) (pending : PendingMeldAction.t),
      App.gameState a = Some gs
      ∧ App.pendingMeldAction a = Some pending
      ∧ (GameState.players gs !! 0%nat = None
         ∨ (length declarations
            < length (List.filter (fun c => Card.isJoker c)
                        (PendingMeldAction.cards pending)))%nat).
Proof.
  unfold confirmMeldWithJokers.
  destruct (App.gameState a) as [gs|].
  2: { split; [discriminate|]. by intros (? & ? & ? & _). }
  destruct (App.pendingMeldAction a) as [pending|].
  2: { split; [discriminate|]. by intros (? & ? & _ & ? & _). }
  split.
  - intros H. exists gs, pending. split; [done|]. split; [done|].
    destruct (GameState.players gs !! 0%nat) as [player|]; [|by left].
    right. apply declareJokers_short.
    destruct (declareJokers _ declarations); [|done].
    destruct (PendingMeldAction.type pending); [discriminate|].
    by destruct (List.find _ _).
  - intros (gs0 & pending0 & Hgs & Hpending & H).
    injection Hgs as <-. injection Hpending as <-.
    destruct (GameState.players gs !! 0%nat) as [player|]; [|done].
    destruct H as [|Hshort]; [done|].
    apply declareJokers_short in Hshort. by rewrite Hshort.
Qed.

(** X18. Confirming a pending meld of the hand with enough declarations:
    one declaration is appended for every wild card of the meld, in
    order, with the id of that card and the identity given for it; the
    cards go from the hand to the melds of the human player; the board,
    the deck, the discard pile, the phase and the turn stay as they
    are. *)
Theorem confirmMeldWithJokers_meld (declarations : list (Suit.t * Rank.t))
    (a : App.t) (gs : GameState.t) (pending : PendingMeldAction.t)
    (player : Player.t) :
  App.gameState a = Some gs →
  App.pendingMeldAction a = Some pending →
  PendingMeldAction.type pending = MELD →
  GameState.players gs !! 0%nat = Some player →
  PendingMeldAction.cards pending `sublist_of` Player.hand player →
  NoDup (map Card.id (Player.hand player)) →
  (length (List.filter (fun c => Card.isJoker c)
             (PendingMeldAction.cards pending))
   <= length declarations)%nat →
  ∃ (a' : App.t) (gs' : GameState.t) (player' : Player.t)
    (decls : list JokerDeclaration.t),
    confirmMeldWithJokers declarations a = Ok a'
    ∧ App.gameState a' = Some gs'
    ∧ App.pendingMeldAction a' = None
    ∧ App.selectedCards a' = []
    ∧ GameState.jokerDeclarations gs' = GameState.jokerDeclarations gs ++ decls
    ∧ map JokerDeclaration.cardId decls
      = map Card.id
          (List.filter (fun c => Card.isJoker c)
             (PendingMeldAction.cards pending))
    ∧ map (fun d => (JokerDeclaration.representedSuit d,
                     JokerDeclaration.representedRank d)) decls
      = take (length (List.filter (fun c => Card.isJoker c)
                        (PendingMeldAction.cards pending))) declarations
    ∧ GameState.players gs' !! 0%nat = Some player'
    ∧ Player.melds player'
      = Player.melds player ++ [PendingMeldAction.cards pending]
    ∧ PendingMeldAction.cards pending ++ Player.hand player'
      ≡ₚ Player.hand player
    ∧ cardsOf gs' ≡ₚ cardsOf gs
    ∧ GameState.boardSequences gs' = GameState.boardSequences gs
    ∧ GameState.deck gs' = GameState.deck gs
    ∧ GameState.discardPile gs' = GameState.discardPile gs
    ∧ GameState.turnPhase gs' = GameState.turnPhase gs
    ∧ GameState.currentPlayerIndex gs' = GameState.currentPlayerIndex gs.
Proof.
  intros Hgs Hpending Htype Hplayer Hsub Hnd Hlen.
  unfold confirmMeldWithJokers. rewrite Hgs, Hpending, Hplayer, Htype.
  destruct (declareJokers_enough _ _ Hlen) as (decls & -> & Hids & Hdecl).
  set (cards := PendingMeldAction.cards pending) in *.
  assert (cards ++ withoutCards cards (Player.hand player)
          ≡ₚ Player.hand player) as Hhand.
  { unfold withoutCards.
    rewrite <- (keyed_pick Card.id (fun x y => bool_decide (x = y)) cards
                  (Player.hand player)) at 1; [|intros x y|done|done].
    - apply (filter_partition
               (fun c =>
                  existsb (fun played => Card.id played === Card.id c) cards)).
    - apply bool_decide_eq_true. }
  eexists _, _, _, decls. split; [done|]. split; [done|].
  split; [done|]. split; [done|]. cbn [App.gameState App.setGameState
    App.setShowPongModal App.setSelectedCards App.setPendingMeldAction].
  split; [done|]. split; [done|]. split; [done|].
  split.
  { simpl. rewrite mapPlayer_lookup. simpl. by rewrite Hplayer. }
  split; [done|]. split; [exact Hhand|]. split; [|done].
  unfold cardsOf. cbn [GameState.players GameState.deck GameState.discardPile
    GameState.set_jokerDeclarations GameState.set_logs GameState.set_players].
  match goal with
  | |- context [mapPlayer 0 ?f _] =>
      pose proof (mapPlayer_cards Player.hand 0 f (GameState.players gs) player
                    [] cards Hplayer) as Hhands;
      pose proof (mapPlayer_cards (fun p => concat (Player.melds p)) 0 f
                    (GameState.players gs) player cards [] Hplayer) as Hmelds
  end.
  rewrite !app_nil_r in Hhands, Hmelds. cbn beta in Hhands, Hmelds.
  rewrite <- Hhands, Hmelds.
  - solve_Permutation.
  - simpl. rewrite concat_app. simpl. by rewrite ?app_nil_r.
  - simpl. etrans; [|exact Hhand]. solve_Permutation.
Qed.
Lemma tutorialInterception_result (a a' : App.t) (gs : GameState.t)
    (selected0 : string) :
  tutorialInterception a gs selected0 = Some (Ok a') →
  a' = a ∨ ∃ msg : string, a' = addLog msg a.
Proof.
  unfold tutorialInterception. intros H.
  repeat (case_match; simplify_eq); eauto.
Qed.

Lemma tutorialInterception_goes_on (a : App.t) (gs : GameState.t)
    (selected0 : string) :
  tutorialInterception a gs selected0 = None →
  GameState.isTutorial gs = false
  ∨ ∃ (p0 : Player.t) (card : Card.t) (action : Action.t),
      GameState.isTutorial gs = true
      ∧ GameState.players gs !! 0%nat = Some p0
      ∧ card ∈ Player.hand p0
      ∧ Card.id card = selected0
      ∧ tutorialStepOf gs = Some action
      ∧ ((action = Action.PLAY_7 ∧ Card.rank card = Rank.SEVEN
          ∧ Card.suit card = Suit.HEARTS)
         ∨ (action = Action.PLAY_8 ∧ Card.rank card = Rank.EIGHT
            ∧ Card.suit card = Suit.HEARTS)
         ∨ (action = Action.PLAY_JOKER ∧ Card.isJoker card = true)).
Proof.
  unfold tutorialInterception. intros H.
  destruct (GameState.isTutorial gs); [right|by left]. simpl in H.
  destruct (GameState.players gs !! 0%nat) as [p0|]; [|done].
  destruct (List.find _ _) as [card|] eqn:Hfind; [|done].
  apply find_some in Hfind as [Hin Hid].
  apply list_elem_of_In in Hin. apply bool_decide_eq_true in Hid.
  destruct (tutorialStepOf gs) as [action|]; [|done].
  exists p0, card, action. do 5 (split; [done|]).
  destruct (decide (action = Action.PLAY_7)) as [->|H7].
  { left. simpl in H.
    destruct (decide (Card.rank card = Rank.SEVEN)) as [Hr|Hr];
      [|by rewrite (bool_decide_eq_false_2 _ Hr) in H].
    destruct (decide (Card.suit card = Suit.HEARTS)) as [Hs|Hs]; [done|].
    rewrite (bool_decide_eq_false_2 _ Hs), orb_true_r in H. done. }
  rewrite (bool_decide_eq_false_2 _ H7) in H.
  destruct (decide (action = Action.PLAY_8)) as [->|H8].
  { right; left. simpl in H.
    destruct (decide (Card.rank card = Rank.EIGHT)) as [Hr|Hr];
      [|by rewrite (bool_decide_eq_false_2 _ Hr) in H].
    destruct (decide (Card.suit card = Suit.HEARTS)) as [Hs|Hs]; [done|].
    rewrite (bool_decide_eq_false_2 _ Hs), orb_true_r in H. done. }
  rewrite (bool_decide_eq_false_2 _ H8) in H.
  destruct (decide (action = Action.PLAY_JOKER)) as [->|HJ].
  { right; right. simpl in H. by destruct (Card.isJoker card). }
  rewrite (bool_decide_eq_false_2 _ HJ) in H. done.
Qed.

Lemma filter_none_all {A : Type} (f : A → bool) (l : list A) :
  List.filter (fun x => negb (f x)) l = [] → List.filter f l = l.
Proof.
  induction l as [|x l IH]; [done|]. simpl.
  destruct (f x); simpl; [|done]. intros H. by rewrite IH.
Qed.

(** What [playSelectedCards] comes to, case by case: nothing, a line in
    the log, the dialog for a single joker, a natural card on the board,
    a pending meld with jokers, or a meld of three natural cards. *)
Lemma playSelectedCards_cases (a a' : App.t) :
  playSelectedCards a = Ok a' →
  a' = a
  ∨ (∃ msg : string, a' = addLog msg a)
  ∨ ∃ (gs : GameState.t) (player : Player.t),
      App.gameState a = Some gs
      ∧ GameState.players gs !! 0%nat = Some player
      ∧ let cardsToPlay :=
          List.filter (fun c => includes (App.selectedCards a) (Card.id c))
            (Player.hand player) in
        (∃ card : Card.t,
           cardsToPlay = [card] ∧ Card.isJoker card = true
           ∧ suitsWithSeven (GameState.boardSequences gs) ≠ []
           ∧ a' = App.setShowSingleJokerModal true
                    (App.setPendingSingleJokerMove (Some card) a))
        ∨ (∃ (card : Card.t) (newSequences : Sequences.t) (log : string),
             cardsToPlay = [card] ∧ Card.isJoker card = false
             ∧ placeCard card (GameState.boardSequences gs) = Some newSequences
             ∧ a' = App.setSelectedCards []
                      (App.setGameState
                         (Some
                            (GameState.set_tutorialStep (nextStep gs)
                               (GameState.set_logs (GameState.logs gs ++ [log])
                                  (GameState.set_boardSequences newSequences
                                     (GameState.set_players
                                        (mapPlayer 0
                                           (Player.set_hand
                                              (withoutId (Card.id card)
                                                 (Player.hand player)))
                                           (GameState.players gs))
                                        gs)))))
                         a))
        ∨ (length cardsToPlay = 3%nat
           ∧ GameState.isTutorial gs = false
           ∧ ∃ naturalRank : option Rank.t,
               a' = App.setPendingMeldAction
                      (Some (PendingMeldAction.mk MELD cardsToPlay naturalRank
                               (length
                                  (List.filter (fun c => Card.isJoker c)
                                     cardsToPlay))))
                      a
               ∧ (1 <= length (List.filter (fun c => Card.isJoker c)
                                 cardsToPlay))%nat
               ∧ naturalRank ≠ Some Rank.SEVEN
               ∧ (naturalRank = None →
                    List.filter (fun c => Card.isJoker c) cardsToPlay
                    = cardsToPlay)
               ∧ ∀ r : Rank.t, naturalRank = Some r →
                   (∃ c : Card.t, c ∈ cardsToPlay ∧ Card.isJoker c = false)
                   ∧ ∀ c : Card.t, c ∈ cardsToPlay → Card.isJoker c = false →
                       Card.rank c = r)
        ∨ (length cardsToPlay = 3%nat
           ∧ GameState.isTutorial gs = false
           ∧ ∃ (r : Rank.t) (log : string),
               (∀ c : Card.t, c ∈ cardsToPlay →
                  Card.isJoker c = false ∧ Card.rank c = r)
               ∧ a' = App.setSelectedCards []
                        (App.setGameState
                           (Some
                              (GameState.set_logs (GameState.logs gs ++ [log])
                                 (GameState.set_players
                                    (mapPlayer 0
                                       (fun p =>
                                          Player.set_melds
                                            (Player.melds player ++ [cardsToPlay])
                                            (Player.set_hand
                                               (List.filter
                                                  (fun c =>
                                                     negb
                                                       (includes
                                                          (App.selectedCards a)
                                                          (Card.id c)))
                                                  (Player.hand player))
                                               p))
                                       (GameState.players gs))
                                    gs)))
                           a)).
Proof.
  intros H. unfold playSelectedCards in H.
  destruct (App.gameState a) as [gs|] eqn:Hgs; [|left; congruence].
  destruct (App.selectedCards a) as [|selected0 selected] eqn:Hsel;
    [left; congruence|].
  destruct (tutorialInterception a gs selected0) as [r|] eqn:Hti.
  { subst r. apply tutorialInterception_result in Hti as [->|[msg ->]];
      [by left|right; left; by exists msg]. }
  destruct (GameState.players gs !! 0%nat) as [player|] eqn:Hplayer;
    [|discriminate].
  set (cardsToPlay :=
         List.filter (fun c => includes (selected0 :: selected) (Card.id c))
           (Player.hand player)) in *.
  destruct cardsToPlay as [|card [|c2 [|c3 [|c4 more]]]] eqn:Hcards;
    try (right; left; injection H as <-; by eexists).
  - (* one card *)
    unfold playSingle in H.
    destruct (Card.isJoker card) eqn:Hjoker.
    + destruct (Nat.eqb_spec
                  (length (suitsWithSeven (GameState.boardSequences gs))) 0)
        as [Hnone|Hsome].
      { right; left; injection H as <-; by eexists. }
      right; right. exists gs, player.
      do 2 (split; [done|]). cbv zeta. fold cardsToPlay. rewrite Hcards.
      left. exists card. injection H as <-.
      repeat split; try done. intros E. by rewrite E in Hsome.
    + destruct (placeCard card (GameState.boardSequences gs))
        as [newSequences|] eqn:Hplace.
      2: { right; left; injection H as <-; by eexists. }
      right; right. exists gs, player.
      do 2 (split; [done|]). cbv zeta. fold cardsToPlay. rewrite Hcards.
      right; left. injection H as <-. by eexists card, newSequences, _.
  - (* three cards *)
    unfold playMeld in H. rewrite Hsel in H.
    destruct (GameState.isTutorial gs) eqn:Htut.
    { right; left; injection H as <-; by eexists. }
    set (cards := [card; c2; c3]) in *.
    pose proof (filter_split_length (fun c => Card.isJoker c) cards) as Hsplit.
    destruct (List.filter (fun c => negb (Card.isJoker c)) cards)
      as [|first naturals] eqn:Hnat.
    + right; right. exists gs, player.
      do 2 (split; [done|]). cbv zeta. fold cardsToPlay. rewrite Hcards.
      do 2 right; left. split; [done|]. split; [done|].
      exists None. injection H as <-.
      rewrite (filter_none_all (fun c => Card.isJoker c) _ Hnat).
      repeat split; try done. simpl. lia.
    + set (targetRank := Card.rank first) in *.
      destruct (forallb (fun c => Card.rank c === targetRank)
                  (first :: naturals)) eqn:Hall; cbn [negb] in H.
      2: { right; left; injection H as <-; by eexists. }
      assert (∀ c : Card.t, c ∈ cards → Card.isJoker c = false →
              Card.rank c = targetRank) as Hranks.
      { intros c Hc Hj.
        assert (In c (first :: naturals)) as Hin.
        { rewrite <- Hnat. apply filter_In. split.
          - by apply list_elem_of_In.
          - by rewrite Hj. }
        rewrite forallb_forall in Hall.
        apply Hall in Hin. by apply bool_decide_eq_true in Hin. }
      assert (first ∈ cards ∧ Card.isJoker first = false) as [Hfirst Hfj].
      { assert (In first (List.filter (fun c => negb (Card.isJoker c)) cards))
          as Hin by (rewrite Hnat; by left).
        apply filter_In in Hin as [Hin Hj]. split.
        - by apply list_elem_of_In.
        - by apply negb_true_iff. }
      destruct (Nat.ltb_spec 0
                  (length (List.filter (fun c => Card.isJoker c) cards)))
        as [Hjokers|Hnone].
      * destruct (decide (targetRank = Rank.SEVEN)) as [Hseven|Hseven].
        { rewrite (bool_decide_eq_true_2 _ Hseven) in H.
          right; left; injection H as <-; by eexists. }
        rewrite (bool_decide_eq_false_2 _ Hseven) in H. cbn [andb] in H.
        right; right. exists gs, player.
        do 2 (split; [done|]). cbv zeta. fold cardsToPlay. rewrite Hcards.
        do 2 right; left. split; [done|]. split; [done|].
        exists (Some targetRank). injection H as <-.
        split; [done|]. split; [lia|]. split; [congruence|].
        split; [done|]. intros r [= <-]. split; [by exists first|done].
      * rewrite andb_false_r in H.
        right; right. exists gs, player.
        do 2 (split; [done|]). cbv zeta. fold cardsToPlay. rewrite Hcards.
        do 3 right. split; [done|]. split; [done|].
        exists targetRank. injection H as <-. eexists. split; [|done].
        intros c Hc.
        assert (Card.isJoker c = false) as Hj.
        { destruct (Card.isJoker c) eqn:Hj; [|done].
          assert (In c (List.filter (fun c => Card.isJoker c) cards)) as Hin.
          { apply filter_In. split; [by apply list_elem_of_In|done]. }
          destruct (List.filter (fun c => Card.isJoker c) cards);
            [done|simpl in Hnone; lia]. }
        split; [done|]. by apply Hranks.
Qed.
Lemma confirmMeldWithJokers_meld_witness :
  ∃ (a' : App.t) (gs' : GameState.t),
    confirmMeldWithJokers [(Suit.SPADES, Rank.KING)] meldApp = Ok a'
    ∧ App.gameState a' = Some gs'
    ∧ GameState.jokerDeclarations gs'
      = [JokerDeclaration.mk "JOKER-1-0" Suit.SPADES Rank.KING].
Proof.
  destruct (confirmMeldWithJokers_meld [(Suit.SPADES, Rank.KING)] meldApp
              meldGame meldPending meldHuman eq_refl eq_refl eq_refl eq_refl)
    as (a' & gs' & player' & decls & Hrun & Hgs' & _).
  - apply sublist_skip, sublist_skip, sublist_skip, sublist_nil_l.
  - apply (bool_decide_unpack _). vm_compute. exact I.
  - simpl. lia.
  - exists a', gs'. split; [exact Hrun|]. split; [exact Hgs'|].
    vm_compute in Hrun. injection Hrun as <-. simpl in Hgs'.
    injection Hgs' as <-. reflexivity.
Defined.

(** X19. A pending meld that [playSelectedCards] sets up: three cards of
    the hand of the human player, at least one of them wild, the count of
    the wild ones recorded; its natural rank is never the seven, and it
    is the rank of every natural card of the three; the game state is
    untouched; and confirming it with as many declarations as the count
    does not throw. *)
Theorem playSelectedCards_pending (a a' : App.t)
    (pending : PendingMeldAction.t) :
  App.pendingMeldAction a = None →
  playSelectedCards a = Ok a' →
  App.pendingMeldAction a' = Some pending →
  ∃ (gs : GameState.t) (player : Player.t),
    App.gameState a = Some gs
    ∧ App.gameState a' = Some gs
    ∧ GameState.players gs !! 0%nat = Some player
    ∧ PendingMeldAction.type pending = MELD
    ∧ PendingMeldAction.cards pending `sublist_of` Player.hand player
    ∧ length (PendingMeldAction.cards pending) = 3%nat
    ∧ PendingMeldAction.jokersCount pending
      = length (List.filter (fun c => Card.isJoker c)
                  (PendingMeldAction.cards pending))
    ∧ (1 <= PendingMeldAction.jokersCount pending)%nat
    ∧ PendingMeldAction.naturalRank pending ≠ Some Rank.SEVEN
    ∧ (∀ r : Rank.t, PendingMeldAction.naturalRank pending = Some r →
         ∀ c : Card.t, c ∈ PendingMeldAction.cards pending →
           Card.isJoker c = false → Card.rank c = r)
    ∧ ∀ declarations : list (Suit.t * Rank.t),
        length declarations = PendingMeldAction.jokersCount pending →
        ∃ a'' : App.t, confirmMeldWithJokers declarations a' = Ok a''.
Proof.
  intros Hnone Hrun Hpending.
  destruct (playSelectedCards_cases a a' Hrun)
    as [->|[[msg ->]|(gs & player & Hgs & Hplayer & Hcases)]].
  { congruence. }
  { unfold addLog, App.updateGameState in Hpending. simpl in Hpending.
    congruence. }
  cbv zeta in Hcases.
  destruct Hcases as [(card & _ & _ & _ & ->)
                     |[(card & m & log & _ & _ & _ & ->)
                      |[(Hlen & Htut & nr & -> & Hcount & Hseven & _ & Hranks)
                       |(_ & _ & r & log & _ & ->)]]];
    simpl in Hpending; try congruence.
  injection Hpending as <-. exists gs, player. simpl.
  split; [done|]. split; [done|]. split; [done|]. split; [done|].
  split; [apply filter_sublist|]. split; [done|]. split; [done|].
  split; [done|]. split; [done|].
  split.
  { intros r Hr c Hc Hj. by apply (Hranks r Hr). }
  intros declarations Hdecl.
  unfold confirmMeldWithJokers. simpl. rewrite Hgs, Hplayer.
  destruct (declareJokers_enough
              (List.filter (fun c => Card.isJoker c)
                 (List.filter
                    (fun c => includes (App.selectedCards a) (Card.id c))
                    (Player.hand player)))
              declarations) as (decls & -> & _); [lia|].
  by eexists.
Qed.

Lemma playSelectedCards_pending_witness :
  ∃ a'' : App.t,
    confirmMeldWithJokers [(Suit.SPADES, Rank.KING)] meldApp = Ok a''.
Proof.
  destruct (playSelectedCards_pending meldSelected meldApp meldPending
              eq_refl eq_refl eq_refl)
    as (gs & player & _ & _ & _ & _ & _ & _ & _ & _ & _ & _ & Hconfirm).
  apply (Hconfirm [(Suit.SPADES, Rank.KING)]). reflexivity.
Defined.

(** X20. A meld of three natural cards: outside the tutorial, when the
    selection picks out of the hand exactly three natural cards of one
    rank, [playSelectedCards] moves them, in hand order, from the hand to
    the melds of the human player, clears the selection, and changes no
    other card, nor the board, the phase or the turn. *)
Theorem playSelectedCards_natural_meld (a : App.t) (gs : GameState.t)
    (player : Player.t) (c1 c2 c3 : Card.t) :
  App.gameState a = Some gs →
  GameState.isTutorial gs = false →
  GameState.players gs !! 0%nat = Some player →
  List.filter (fun c => includes (App.selectedCards a) (Card.id c))
    (Player.hand player) = [c1; c2; c3] →
  Card.isJoker c1 = false → Card.isJoker c2 = false →
  Card.isJoker c3 = false →
  Card.rank c2 = Card.rank c1 → Card.rank c3 = Card.rank c1 →
  ∃ (a' : App.t) (gs' : GameState.t) (player' : Player.t),
    playSelectedCards a = Ok a'
    ∧ App.gameState a' = Some gs'
    ∧ App.selectedCards a' = []
    ∧ App.pendingMeldAction a' = App.pendingMeldAction a
    ∧ GameState.players gs' !! 0%nat = Some player'
    ∧ Player.melds player' = Player.melds player ++ [[c1; c2; c3]]
    ∧ [c1; c2; c3] ++ Player.hand player' ≡ₚ Player.hand player
    ∧ Player.hand player' `sublist_of` Player.hand player
    ∧ cardsOf gs' ≡ₚ cardsOf gs
    ∧ GameState.boardSequences gs' = GameState.boardSequences gs
    ∧ GameState.jokerDeclarations gs' = GameState.jokerDeclarations gs
    ∧ GameState.turnPhase gs' = GameState.turnPhase gs
    ∧ GameState.currentPlayerIndex gs' = GameState.currentPlayerIndex gs.
Proof.
  intros Hgs Htut Hplayer Hcards Hj1 Hj2 Hj3 Hr2 Hr3.
  unfold playSelectedCards. rewrite Hgs.
  destruct (App.selectedCards a) as [|selected0 selected] eqn:Hsel.
  { exfalso. clear -Hcards.
    induction (Player.hand player) as [|x l IH]; simpl in Hcards;
      [discriminate|auto]. }
  unfold tutorialInterception. rewrite Htut. cbn [negb].
  rewrite Hplayer, Hcards.
  unfold playMeld. rewrite Htut. simpl.
  rewrite Hj1, Hj2, Hj3. simpl.
  rewrite bool_decide_eq_true_2 by done.
  rewrite (bool_decide_eq_true_2 _ Hr2), (bool_decide_eq_true_2 _ Hr3).
  simpl. rewrite andb_false_r.
  pose proof (filter_partition
                (fun c => includes (selected0 :: selected) (Card.id c))
                (Player.hand player)) as Hhand.
  rewrite Hcards in Hhand.
  eexists _, _, _. split; [rewrite Hsel; reflexivity|]. split; [done|].
  split; [done|]. split; [done|].
  cbn [App.gameState App.setGameState App.setSelectedCards].
  split.
  { simpl. rewrite mapPlayer_lookup. simpl. by rewrite Hplayer. }
  split; [done|]. split; [exact Hhand|].
  split; [apply filter_sublist|]. split; [|done].
  unfold cardsOf. cbn [GameState.players GameState.deck GameState.discardPile
    GameState.set_logs GameState.set_players].
  match goal with
  | |- context [mapPlayer 0 ?f _] =>
      pose proof (mapPlayer_cards Player.hand 0 f (GameState.players gs) player
                    [] [c1; c2; c3] Hplayer) as Hhands;
      pose proof (mapPlayer_cards (fun p => concat (Player.melds p)) 0 f
                    (GameState.players gs) player [c1; c2; c3] [] Hplayer)
        as Hmelds
  end.
  rewrite !app_nil_r in Hhands, Hmelds. cbn beta in Hhands, Hmelds.
  rewrite <- Hhands, Hmelds.
  - solve_Permutation.
  - simpl. rewrite concat_app. simpl. by rewrite ?app_nil_r.
  - simpl. etrans; [|exact Hhand]. solve_Permutation.
Qed.

Lemma playSelectedCards_natural_meld_witness :
  ∃ (a' : App.t) (gs' : GameState.t),
    playSelectedCards kingsApp = Ok a'
    ∧ App.gameState a' = Some gs'
    ∧ (Player.hand <$> GameState.players gs' !! 0%nat) = Some [heart8].
Proof.
  destruct (playSelectedCards_natural_meld kingsApp kingsGame kingsHuman
              heartK diamondK spadeK eq_refl eq_refl eq_refl eq_refl eq_refl
              eq_refl eq_refl eq_refl eq_refl)
    as (a' & gs' & player' & Hrun & Hgs' & _).
  exists a', gs'. split; [exact Hrun|]. split; [exact Hgs'|].
  vm_compute in Hrun. injection Hrun as <-. simpl in Hgs'.
  injection Hgs' as <-. reflexivity.
Defined.

(** X21. What [playSelectedCards] never touches: the deck, the discard
    pile, the declarations, the phase, the turn, the round and the
    pending discard; the players other than the human one; and the
    score and the melds already laid of the human player, whose hand can
    only lose cards. *)
Theorem playSelectedCards_frame (a a' : App.t) (gs gs' : GameState.t) :
  App.gameState a = Some gs →
  playSelectedCards a = Ok a' →
  App.gameState a' = Some gs' →
  GameState.deck gs' = GameState.deck gs
  ∧ GameState.discardPile gs' = GameState.discardPile gs
  ∧ GameState.jokerDeclarations gs' = GameState.jokerDeclarations gs
  ∧ GameState.turnPhase gs' = GameState.turnPhase gs
  ∧ GameState.currentPlayerIndex gs' = GameState.currentPlayerIndex gs
  ∧ GameState.round gs' = GameState.round gs
  ∧ GameState.pendingPong gs' = GameState.pendingPong gs
  ∧ length (GameState.players gs') = length (GameState.players gs)
  ∧ (∀ i : nat, i ≠ 0%nat →
       GameState.players gs' !! i = GameState.players gs !! i)
  ∧ ∀ p p' : Player.t,
      GameState.players gs !! 0%nat = Some p →
      GameState.players gs' !! 0%nat = Some p' →
      Player.score p' = Player.score p
      ∧ Player.id p' = Player.id p
      ∧ Player.hand p' `sublist_of` Player.hand p
      ∧ Player.melds p `prefix_of` Player.melds p'.
Proof.
  intros Hgs Hrun Hgs'.
  assert (∀ (f : Player.t → Player.t) (player : Player.t),
            GameState.players gs !! 0%nat = Some player →
            Player.score (f player) = Player.score player →
            Player.id (f player) = Player.id player →
            Player.hand (f player) `sublist_of` Player.hand player →
            Player.melds player `prefix_of` Player.melds (f player) →
            length (mapPlayer 0 f (GameState.players gs))
            = length (GameState.players gs)
            ∧ (∀ i : nat, i ≠ 0%nat →
                 mapPlayer 0 f (GameState.players gs) !! i
                 = GameState.players gs !! i)
            ∧ ∀ p p' : Player.t,
                GameState.players gs !! 0%nat = Some p →
                mapPlayer 0 f (GameState.players gs) !! 0%nat = Some p' →
                Player.score p' = Player.score p
                ∧ Player.id p' = Player.id p
                ∧ Player.hand p' `sublist_of` Player.hand p
                ∧ Player.melds p `prefix_of` Player.melds p') as Hmap.
  { intros f player Hplayer Hscore Hid Hhand Hmelds.
    split; [unfold mapPlayer; apply length_imap|]. split.
    - intros i Hi. rewrite mapPlayer_lookup.
      by destruct (Nat.eqb_spec i 0).
    - intros p p'. rewrite mapPlayer_lookup, Hplayer. simpl.
      by intros [= <-] [= <-]. }
  assert (∀ p p' : Player.t,
            GameState.players gs !! 0%nat = Some p →
            GameState.players gs !! 0%nat = Some p' →
            Player.score p' = Player.score p
            ∧ Player.id p' = Player.id p
            ∧ Player.hand p' `sublist_of` Player.hand p
            ∧ Player.melds p `prefix_of` Player.melds p') as Hsame.
  { intros p p' Hp Hp'. rewrite Hp in Hp'. by injection Hp' as <-. }
  destruct (playSelectedCards_cases a a' Hrun)
    as [->|[[msg ->]|(gs0 & player & Hgs0 & Hplayer & Hcases)]].
  - rewrite Hgs in Hgs'. injection Hgs' as <-. do 9 (split; [done|]). exact Hsame.
  - unfold addLog, App.updateGameState in Hgs'. rewrite Hgs in Hgs'.
    simpl in Hgs'. injection Hgs' as <-. do 9 (split; [done|]). exact Hsame.
  - rewrite Hgs in Hgs0. injection Hgs0 as <-. cbv zeta in Hcases.
    destruct Hcases as [(card & _ & _ & _ & ->)
                       |[(card & m & log & _ & _ & _ & ->)
                        |[(_ & _ & nr & -> & _)
                         |(_ & _ & r & log & _ & ->)]]];
      simpl in Hgs'.
    + rewrite Hgs in Hgs'. injection Hgs' as <-. do 9 (split; [done|]). exact Hsame.
    + injection Hgs' as <-. simpl. do 7 (split; [done|]).
      apply (Hmap _ player Hplayer); try done.
      apply filter_sublist.
    + rewrite Hgs in Hgs'. injection Hgs' as <-. do 9 (split; [done|]). exact Hsame.
    + injection Hgs' as <-. simpl. do 7 (split; [done|]).
      apply (Hmap _ player Hplayer); try done.
      * apply filter_sublist.
      * by apply prefix_app_r.
Qed.

Lemma playSelectedCards_frame_witness :
  ∃ (a' : App.t) (gs' : GameState.t),
    playSelectedCards kingsApp = Ok a'
    ∧ App.gameState a' = Some gs'
    ∧ GameState.deck gs' = GameState.deck kingsGame
    ∧ GameState.turnPhase gs' = ACTION.
Proof.
  eexists _, _. split; [reflexivity|]. split; [reflexivity|].
  destruct (playSelectedCards_frame kingsApp _ kingsGame _ eq_refl eq_refl
              eq_refl) as (Hdeck & _ & _ & Hphase & _).
  split; [exact Hdeck|exact Hphase].
Defined.
Lemma indexed_elem {A : Type} (l : list A) (ic : nat * A) :
  ic ∈ imap pair l → ic.2 ∈ l.
Proof.
  intros H. rewrite <- (indexed_snd l).
  change (map snd ?x) with (snd <$> x). by apply list_elem_of_fmap_2.
Qed.

(** The cards [doPong] takes are cards of the hand, each taken once, at
    most two of them, and a natural one has the rank of the discard. *)
Lemma cardsToUse_shape (hand : list Card.t) (discard : Card.t)
    (used : list (nat * Card.t)) :
  cardsToUse hand discard = Some used →
  map snd used ⊆+ hand
  ∧ (length used <= 2)%nat
  ∧ ∀ c : Card.t, c ∈ map snd used → Card.isJoker c = false →
      Card.rank c = Card.rank discard.
Proof.
  unfold cardsToUse.
  set (naturals :=
         List.filter
           (fun ic => (Card.rank ic.2 === Card.rank discard)
                      && negb (Card.isJoker ic.2)) (imap pair hand)).
  set (jokers := List.filter (fun ic => Card.isJoker ic.2) (imap pair hand)).
  assert (naturals `sublist_of` imap pair hand) as Hn
    by apply filter_sublist.
  assert (jokers `sublist_of` imap pair hand) as Hj by apply filter_sublist.
  assert (Forall (fun ic => Card.rank ic.2 = Card.rank discard
                            ∧ Card.isJoker ic.2 = false) naturals) as Hnat.
  { pose proof (filter_all
                  (fun ic : nat * Card.t =>
                     (Card.rank ic.2 === Card.rank discard)
                     && negb (Card.isJoker ic.2)) (imap pair hand)) as E.
    eapply Forall_impl; [exact E|]. intros ic H. simpl in H.
    apply andb_true_iff in H as [Hr Hjk].
    apply bool_decide_eq_true in Hr. by apply negb_true_iff in Hjk. }
  assert (Forall (fun ic => Card.isJoker ic.2 = true) jokers) as Hjok.
  { apply (filter_all (fun ic : nat * Card.t => Card.isJoker ic.2)). }
  assert (∀ l : list (nat * Card.t),
            l `sublist_of` imap pair hand → map snd l ⊆+ hand) as Hsub.
  { intros l Hl. apply sublist_submseteq.
    pose proof (fmap_sublist snd _ _ Hl) as H.
    change (snd <$> imap pair hand) with (map snd (imap pair hand)) in H.
    by rewrite indexed_snd in H. }
  assert (∀ (P : nat * Card.t → Prop) (l : list (nat * Card.t)) (n : nat)
            (c : Card.t),
            Forall P l → c ∈ map snd (take n l) →
            ∃ ic, P ic ∧ ic.2 = c) as Htake.
  { intros P l n c HP Hc. change (map snd ?x) with (snd <$> x) in Hc.
    apply list_elem_of_fmap in Hc as (ic & -> & Hic).
    exists ic. split; [|done].
    rewrite Forall_forall in HP. apply HP.
    by apply (sublist_subseteq _ _ (sublist_take l n)). }
  destruct (Nat.leb_spec 2 (length naturals)) as [Htwo|Hfew].
  { intros [= <-]. split; [|split].
    - apply Hsub. etrans; [apply sublist_take|done].
    - rewrite length_take. lia.
    - intros c Hc _. by destruct (Htake _ _ _ _ Hnat Hc) as (ic & [? _] & <-). }
  destruct naturals as [|n [|n2 more]] eqn:En; [| |simpl in Hfew; lia].
  - intros [= <-]. split; [|split].
    + apply Hsub. etrans; [apply sublist_take|done].
    + rewrite length_take. lia.
    + intros c Hc Hnj.
      destruct (Htake _ _ _ _ Hjok Hc) as (ic & Hic & <-). congruence.
  - destruct jokers as [|j more] eqn:Ej; [done|]. intros [= <-].
    apply Forall_cons in Hnat as [[Hr Hnj] _].
    apply Forall_cons in Hjok as [Hjj _].
    split; [|split; [done|]].
    + assert ([n; j] ⊆+ imap pair hand) as Hboth.
      { apply NoDup_submseteq.
        - apply NoDup_cons. split; [|apply NoDup_singleton].
          intros H. apply list_elem_of_singleton in H. congruence.
        - intros x Hx. apply elem_of_cons in Hx as [->|Hx].
          + apply (sublist_subseteq _ _ Hn). by left.
          + apply list_elem_of_singleton in Hx as ->.
            apply (sublist_subseteq _ _ Hj). by left. }
      pose proof (fmap_submseteq snd _ _ Hboth) as H.
      change (snd <$> imap pair hand) with (map snd (imap pair hand)) in H.
      by rewrite indexed_snd in H.
    + intros c Hc Hcj. simpl in Hc.
      apply elem_of_cons in Hc as [->|Hc]; [done|].
      apply elem_of_cons in Hc as [->|Hc]; [congruence|].
      by apply elem_of_nil in Hc.
Qed.
Lemma filter_map_snd (f : Card.t → bool) (l : list (nat * Card.t)) :
  List.filter f (map snd l) = map snd (List.filter (fun ic => f ic.2) l).
Proof.
  induction l as [|ic l IH]; [done|]. simpl.
  destruct (f ic.2); simpl; by rewrite IH.
Qed.

(** What [doPong] comes to when it sets up a pending action: the cards it
    takes from the hand with the discard after them, the count of the
    wild cards taken, and the rank of the discard as natural rank. *)
Lemma doPong_pending_shape (a a1 : App.t) (action : PendingMeldAction.t) :
  App.pendingMeldAction a = None →
  doPong a = Ok a1 →
  App.pendingMeldAction a1 = Some action →
  ∃ (gs : GameState.t) (pending : PendingPong.t) (human : Player.t)
    (used : list Card.t),
    App.gameState a = Some gs
    ∧ GameState.pendingPong gs = Some pending
    ∧ GameState.players gs !! 0%nat = Some human
    ∧ a1 = App.setShowPongModal false
             (App.setPendingMeldAction (Some action) a)
    ∧ action
      = PendingMeldAction.mk PONG (used ++ [PendingPong.card pending])
          (Some (Card.rank (PendingPong.card pending)))
          (length (List.filter (fun c => Card.isJoker c) used))
    ∧ used ⊆+ Player.hand human
    ∧ (length used <= 2)%nat
    ∧ (1 <= length (List.filter (fun c => Card.isJoker c) used))%nat
    ∧ Card.rank (PendingPong.card pending) ≠ Rank.SEVEN
    ∧ ∀ c : Card.t, c ∈ used → Card.isJoker c = false →
        Card.rank c = Card.rank (PendingPong.card pending).
Proof.
  intros Hnone Hrun Haction. unfold doPong in Hrun.
  destruct (App.gameState a) as [gs|] eqn:Hgs; [|congruence].
  destruct (GameState.pendingPong gs) as [pending|] eqn:Hpending;
    [|congruence].
  destruct (GameState.players gs !! 0%nat) as [human|] eqn:Hhuman;
    [|discriminate].
  destruct (cardsToUse (Player.hand human) (PendingPong.card pending))
    as [used|] eqn:Hused; [|discriminate].
  destruct (cardsToUse_shape _ _ _ Hused) as (Hsub & Hlen & Hranks).
  pose proof (filter_map_snd (fun c => Card.isJoker c) used) as Hjokers.
  cbv beta in Hjokers.
  assert (length (List.filter (fun ic => Card.isJoker ic.2) used)
          = length (List.filter (fun c => Card.isJoker c) (map snd used)))
    as Hcount.
  { by rewrite Hjokers, length_map. }
  destruct (Nat.ltb_spec 0
              (length (List.filter (fun ic => Card.isJoker ic.2) used)))
    as [Hsome|Hzero].
  - destruct (decide (Card.rank (PendingPong.card pending) = Rank.SEVEN))
      as [Hseven|Hseven].
    { rewrite (bool_decide_eq_true_2 _ Hseven) in Hrun. simpl in Hrun.
      injection Hrun as <-.
      unfold cancelPong, addLog, App.updateGameState in Haction.
      rewrite Hgs in Haction. simpl in Haction.
      destruct (GameState.isTutorial gs); simpl in Haction; congruence. }
    rewrite (bool_decide_eq_false_2 _ Hseven) in Hrun. simpl in Hrun.
    injection Hrun as <-. simpl in Haction. injection Haction as <-.
    exists gs, pending, human, (map snd used).
    rewrite <- Hcount, length_map. repeat split; try done.
  - rewrite andb_false_r in Hrun. injection Hrun as <-. simpl in Haction.
    congruence.
Qed.

Lemma withoutCards_taken (hand used extra : list Card.t) :
  NoDup (map Card.id hand) →
  used ⊆+ hand →
  (∀ c h : Card.t, c ∈ extra → h ∈ hand → Card.id c ≠ Card.id h) →
  used ++ withoutCards (used ++ extra) hand ≡ₚ hand.
Proof.
  intros Hnd Hsub Hextra.
  apply submseteq_sublist_r in Hsub as (picked & Hperm & Hpicked).
  assert (withoutCards (used ++ extra) hand
          = List.filter
              (fun c =>
                 negb (existsb (fun played => Card.id played === Card.id c)
                         picked)) hand) as ->.
  { unfold withoutCards. apply filter_ext_in. intros c Hc. f_equal.
    apply list_elem_of_In in Hc.
    rewrite existsb_app.
    assert (existsb (fun played => Card.id played === Card.id c) extra = false)
      as ->.
    { apply not_true_is_false. intros H.
      apply existsb_exists in H as (x & Hx & Hid).
      apply bool_decide_eq_true in Hid. apply list_elem_of_In in Hx.
      by apply (Hextra x c). }
    rewrite orb_false_r.
    apply eq_true_iff_eq. rewrite !existsb_exists.
    split; intros (x & Hx & Hid); exists x; (split; [|done]);
      apply list_elem_of_In; apply list_elem_of_In in Hx.
    - by rewrite <- Hperm.
    - by rewrite Hperm. }
  rewrite Hperm.
  rewrite <- (keyed_pick Card.id (fun x y => bool_decide (x = y)) picked hand)
    at 1; [|intros x y; apply bool_decide_eq_true|done|done].
  apply (filter_partition
           (fun c =>
              existsb (fun played => Card.id played === Card.id c) picked)).
Qed.

(** X22. A pending claim that [doPong] sets up, when the discard is a
    natural card: at most two cards of the hand with the discard after
    them, at least one of them wild and the count of the wild ones
    recorded; the natural rank is the rank of the discard and never the
    seven; the game state is untouched and the claim dialog closed; and
    confirming with as many declarations as the count does not throw. *)
Theorem doPong_pending (a a1 : App.t) (action : PendingMeldAction.t)
    (gs : GameState.t) (pending : PendingPong.t) :
  App.gameState a = Some gs →
  GameState.pendingPong gs = Some pending →
  Card.isJoker (PendingPong.card pending) = false →
  App.pendingMeldAction a = None →
  doPong a = Ok a1 →
  App.pendingMeldAction a1 = Some action →
  ∃ (human : Player.t) (used : list Card.t),
    GameState.players gs !! 0%nat = Some human
    ∧ App.gameState a1 = Some gs
    ∧ App.showPongModal a1 = false
    ∧ PendingMeldAction.type action = PONG
    ∧ PendingMeldAction.cards action = used ++ [PendingPong.card pending]
    ∧ used ⊆+ Player.hand human
    ∧ (length used <= 2)%nat
    ∧ PendingMeldAction.jokersCount action
      = length (List.filter (fun c => Card.isJoker c)
                  (PendingMeldAction.cards action))
    ∧ (1 <= PendingMeldAction.jokersCount action)%nat
    ∧ PendingMeldAction.naturalRank action
      = Some (Card.rank (PendingPong.card pending))
    ∧ Card.rank (PendingPong.card pending) ≠ Rank.SEVEN
    ∧ (∀ c : Card.t, c ∈ PendingMeldAction.cards action →
         Card.isJoker c = false →
         Card.rank c = Card.rank (PendingPong.card pending))
    ∧ ∀ declarations : list (Suit.t * Rank.t),
        length declarations = PendingMeldAction.jokersCount action →
        ∃ a2 : App.t, confirmMeldWithJokers declarations a1 = Ok a2.
Proof.
  intros Hgs Hpending Hnatural Hnone Hrun Haction.
  destruct (doPong_pending_shape a a1 action Hnone Hrun Haction)
    as (gs0 & pending0 & human & used & Hgs0 & Hpending0 & Hhuman & -> & ->
        & Hsub & Hlen & Hcount & Hseven & Hranks).
  rewrite Hgs in Hgs0. injection Hgs0 as <-.
  rewrite Hpending in Hpending0. injection Hpending0 as <-.
  exists human, used. simpl.
  assert (List.filter (fun c => Card.isJoker c)
            (used ++ [PendingPong.card pending])
          = List.filter (fun c => Card.isJoker c) used) as Hjokers.
  { rewrite List.filter_app. simpl. rewrite Hnatural. apply app_nil_r. }
  do 7 (split; [done|]). split; [by rewrite Hjokers|].
  do 3 (split; [done|]). split.
  { intros c Hc Hj. apply elem_of_app in Hc as [Hc|Hc]; [by apply Hranks|].
    by apply list_elem_of_singleton in Hc as ->. }
  intros declarations Hdecl.
  unfold confirmMeldWithJokers. simpl. rewrite Hgs, Hhuman, Hjokers.
  destruct (declareJokers_enough (List.filter (fun c => Card.isJoker c) used)
              declarations) as (decls & -> & _); [lia|].
  destruct (List.find _ _); by eexists.
Qed.

Lemma doPong_pending_witness :
  ∃ (a1 a2 : App.t),
    doPong mixedPongApp = Ok a1
    ∧ confirmMeldWithJokers [(Suit.DIAMONDS, Rank.KING)] a1 = Ok a2.
Proof.
  eexists _, _. split; [reflexivity|].
  destruct (doPong_pending mixedPongApp _ _ mixedPongGame
              (PendingPong.mk spadeK 1) eq_refl eq_refl eq_refl eq_refl eq_refl
              eq_refl)
    as (human & used & _ & _ & _ & _ & _ & _ & _ & _ & _ & _ & _ & _ & Hconfirm).
  destruct (Hconfirm [(Suit.DIAMONDS, Rank.KING)] eq_refl) as [a2 Ha2].
  vm_compute in Ha2. injection Ha2 as <-. reflexivity.
Defined.

(** X23. Claiming a discarded joker: the pending action [doPong] sets up
    then holds one wild card more than the count it records, and
    [confirmMeldWithJokers], given as many declarations as the count,
    which is what the declaration dialog gives it, throws. *)
Theorem doPong_joker_discard_throws (a a1 : App.t)
    (action : PendingMeldAction.t) (gs : GameState.t)
    (pending : PendingPong.t) :
  App.gameState a = Some gs →
  GameState.pendingPong gs = Some pending →
  Card.isJoker (PendingPong.card pending) = true →
  App.pendingMeldAction a = None →
  doPong a = Ok a1 →
  App.pendingMeldAction a1 = Some action →
  PendingMeldAction.type action = PONG
  ∧ length (List.filter (fun c => Card.isJoker c)
              (PendingMeldAction.cards action))
    = S (PendingMeldAction.jokersCount action)
  ∧ ∀ (selectedRank : Rank.t) (suits : list Suit.t),
      length suits = PendingMeldAction.jokersCount action →
      confirmMeldWithJokers (dialogDeclarations action selectedRank suits) a1
      = TypeError.
Proof.
  intros Hgs Hpending Hjoker Hnone Hrun Haction.
  destruct (doPong_pending_shape a a1 action Hnone Hrun Haction)
    as (gs0 & pending0 & human & used & Hgs0 & Hpending0 & Hhuman & -> & ->
        & Hsub & Hlen & Hcount & Hseven & Hranks).
  rewrite Hgs in Hgs0. injection Hgs0 as <-.
  rewrite Hpending in Hpending0. injection Hpending0 as <-.
  simpl.
  assert (length (List.filter (fun c => Card.isJoker c)
                    (used ++ [PendingPong.card pending]))
          = S (length (List.filter (fun c => Card.isJoker c) used))) as Hjokers.
  { rewrite List.filter_app. simpl. rewrite Hjoker, length_app. simpl. lia. }
  split; [done|]. split; [done|].
  intros selectedRank suits Hsuits.
  unfold confirmMeldWithJokers. simpl. rewrite Hgs, Hhuman.
  assert (declareJokers
            (List.filter (fun c => Card.isJoker c)
               (used ++ [PendingPong.card pending]))
            (dialogDeclarations
               (PendingMeldAction.mk PONG (used ++ [PendingPong.card pending])
                  (Some (Card.rank (PendingPong.card pending)))
                  (length (List.filter (fun c => Card.isJoker c) used)))
               selectedRank suits) = None) as ->; [|done].
  apply declareJokers_short.
  unfold dialogDeclarations. rewrite length_map, Hjokers. lia.
Qed.

Lemma doPong_joker_discard_throws_witness :
  ∃ a1 : App.t,
    doPong jokerPongApp = Ok a1
    ∧ confirmMeldWithJokers [(Suit.HEARTS, Rank.JOKER); (Suit.SPADES, Rank.JOKER)]
        a1 = TypeError.
Proof.
  eexists. split; [reflexivity|].
  destruct (doPong_joker_discard_throws jokerPongApp _ _ jokerPongGame
              (PendingPong.mk thirdJoker 1) eq_refl eq_refl eq_refl eq_refl
              eq_refl eq_refl) as (_ & _ & Hthrows).
  exact (Hthrows Rank.ACE [Suit.HEARTS; Suit.SPADES] eq_refl).
Defined.
(** X24. Confirming a pending claim: the cards taken from the hand and
    the discard are laid down as one meld, the discard leaves the top of
    the pile, one declaration is recorded for every wild card of the
    meld, and the turn goes to the human player in the action phase; no
    card is lost or made, and the board and the deck stay as they are. *)
Theorem confirmMeldWithJokers_pong (declarations : list (Suit.t * Rank.t))
    (a : App.t) (gs : GameState.t) (action : PendingMeldAction.t)
    (player : Player.t) (used pile : list Card.t) (discard : Card.t) :
  App.gameState a = Some gs →
  App.pendingMeldAction a = Some action →
  PendingMeldAction.type action = PONG →
  PendingMeldAction.cards action = used ++ [discard] →
  GameState.players gs !! 0%nat = Some player →
  used ⊆+ Player.hand player →
  NoDup (map Card.id (Player.hand player)) →
  (∀ h : Card.t, h ∈ Player.hand player → Card.id discard ≠ Card.id h) →
  GameState.discardPile gs = discard :: pile →
  (length (List.filter (fun c => Card.isJoker c) (used ++ [discard]))
   <= length declarations)%nat →
  ∃ (a' : App.t) (gs' : GameState.t) (player' : Player.t)
    (decls : list JokerDeclaration.t),
    confirmMeldWithJokers declarations a = Ok a'
    ∧ App.gameState a' = Some gs'
    ∧ App.pendingMeldAction a' = None
    ∧ App.showPongModal a' = false
    ∧ GameState.jokerDeclarations gs' = GameState.jokerDeclarations gs ++ decls
    ∧ map JokerDeclaration.cardId decls
      = map Card.id (List.filter (fun c => Card.isJoker c) (used ++ [discard]))
    ∧ GameState.players gs' !! 0%nat = Some player'
    ∧ Player.melds player' = Player.melds player ++ [used ++ [discard]]
    ∧ used ++ Player.hand player' ≡ₚ Player.hand player
    ∧ GameState.discardPile gs' = pile
    ∧ GameState.currentPlayerIndex gs' = 0%nat
    ∧ GameState.turnPhase gs' = ACTION
    ∧ GameState.pendingPong gs' = None
    ∧ cardsOf gs' ≡ₚ cardsOf gs
    ∧ GameState.boardSequences gs' = GameState.boardSequences gs
    ∧ GameState.deck gs' = GameState.deck gs.
Proof.
  intros Hgs Haction Htype Hcards Hplayer Hsub Hnd Hfresh Hpile Hlen.
  unfold confirmMeldWithJokers.
  rewrite Hgs, Haction, Hplayer, Htype, Hcards.
  destruct (declareJokers_enough _ _ Hlen) as (decls & -> & Hids & _).
  assert (used ++ withoutCards (used ++ [discard]) (Player.hand player)
          ≡ₚ Player.hand player) as Hhand.
  { apply withoutCards_taken; [done|done|].
    intros c h Hc Hh. apply list_elem_of_singleton in Hc as ->.
    by apply Hfresh. }
  destruct (List.find _ (used ++ [discard])) as [found|] eqn:Hfind.
  2: { exfalso.
       pose proof (find_none _ _ Hfind discard) as Hd. simpl in Hd.
       assert (In discard (used ++ [discard])) as Hin.
       { apply in_or_app. right. by left. }
       apply Hd in Hin. apply negb_false_iff in Hin.
       apply existsb_exists in Hin as (h & Hh & Hid).
       apply bool_decide_eq_true in Hid. apply list_elem_of_In in Hh.
       by apply (Hfresh h Hh). }
  eexists _, _, _, decls. split; [done|]. split; [done|].
  split; [done|]. split; [done|].
  cbn [App.gameState App.setGameState App.setShowPongModal
    App.setSelectedCards App.setPendingMeldAction].
  split; [done|]. split; [done|].
  split.
  { simpl. rewrite mapPlayer_lookup. simpl. by rewrite Hplayer. }
  split; [done|]. split; [exact Hhand|].
  split; [simpl; by rewrite Hpile|].
  do 3 (split; [done|]). split; [|done].
  unfold cardsOf. cbn [GameState.players GameState.deck GameState.discardPile
    GameState.set_jokerDeclarations GameState.set_logs GameState.set_players
    GameState.set_pendingPong GameState.set_currentPlayerIndex
    GameState.set_turnPhase GameState.set_discardPile].
  rewrite Hpile. cbn [drop].
  match goal with
  | |- context [mapPlayer 0 ?f _] =>
      pose proof (mapPlayer_cards Player.hand 0 f (GameState.players gs) player
                    [] used Hplayer) as Hhands;
      pose proof (mapPlayer_cards (fun p => concat (Player.melds p)) 0 f
                    (GameState.players gs) player (used ++ [discard]) []
                    Hplayer) as Hmelds
  end.
  rewrite !app_nil_r in Hhands, Hmelds. cbn beta in Hhands, Hmelds.
  rewrite <- Hhands, Hmelds.
  - solve_Permutation.
  - simpl. rewrite concat_app. simpl. by rewrite ?app_nil_r.
  - simpl. etrans; [|exact Hhand]. solve_Permutation.
Qed.

Lemma confirmMeldWithJokers_pong_witness :
  ∃ (a' : App.t) (gs' : GameState.t),
    confirmMeldWithJokers [(Suit.DIAMONDS, Rank.KING)]
      (App.setShowPongModal false
         (App.setPendingMeldAction
            (Some (PendingMeldAction.mk PONG [heartK; aJoker; spadeK]
                     (Some Rank.KING) 1))
            mixedPongApp))
    = Ok a'
    ∧ App.gameState a' = Some gs'
    ∧ GameState.discardPile gs' = []
    ∧ GameState.currentPlayerIndex gs' = 0%nat.
Proof.
  destruct (confirmMeldWithJokers_pong [(Suit.DIAMONDS, Rank.KING)]
              (App.setShowPongModal false
                 (App.setPendingMeldAction
                    (Some (PendingMeldAction.mk PONG [heartK; aJoker; spadeK]
                             (Some Rank.KING) 1))
                    mixedPongApp))
              mixedPongGame
              (PendingMeldAction.mk PONG [heartK; aJoker; spadeK]
                 (Some Rank.KING) 1)
              mixedPongHuman [heartK; aJoker] [] spadeK
              eq_refl eq_refl eq_refl eq_refl eq_refl)
    as (a' & gs' & player' & decls & Hrun & Hgs' & _ & _ & _ & _ & _ & _ & _
        & Hpile & Hcur & _).
  - apply sublist_submseteq.
    apply sublist_cons, sublist_skip, sublist_skip, sublist_nil_l.
  - apply (bool_decide_unpack _). vm_compute. exact I.
  - intros h Hh. simpl in Hh.
    repeat (apply elem_of_cons in Hh as [->|Hh]; [discriminate|]).
    by apply elem_of_nil in Hh.
  - reflexivity.
  - simpl. lia.
  - exists a', gs'. split; [exact Hrun|]. split; [exact Hgs'|].
    split; [exact Hpile|exact Hcur].
Defined.

Lemma botLoop_exit (botName : string) (fuel : nat) (st st' : BotLoop.t) :
  botLoop fuel botName st = Ok st' → botStep botName st' = None.
Proof.
  revert st. induction fuel as [|fuel IH]; intros st; simpl; [done|].
  destruct (botStep botName st) as [st1|] eqn:Hs.
  - apply IH.
  - by intros [= <-].
Qed.

Lemma scanHand_none (botName : string) (i : nat) (cards : list Card.t)
    (sequences : Sequences.t) :
  scanHand botName i cards sequences = None →
  ∀ c : Card.t, c ∈ cards → tryCard botName c sequences = None.
Proof.
  revert i. induction cards as [|d cards IH]; intros i H c Hc.
  { by apply elem_of_nil in Hc. }
  simpl in H. destruct (tryCard botName d sequences) eqn:Hd; [done|].
  apply elem_of_cons in Hc as [->|Hc]; [done|]. by apply (IH (S i)).
Qed.

Lemma firstOccurrences_complete (seen l : list Rank.t) (r : Rank.t) :
  r ∈ l → r ∈ seen ∨ r ∈ firstOccurrences seen l.
Proof.
  revert seen. induction l as [|x l IH]; intros seen Hr.
  { by apply elem_of_nil in Hr. }
  simpl. destruct (existsb (fun y => y === x) seen) eqn:Hseen.
  - apply elem_of_cons in Hr as [->|Hr]; [|by apply IH].
    left. apply existsb_exists in Hseen as (y & Hy & Hxy).
    apply bool_decide_eq_true in Hxy as ->. by apply list_elem_of_In.
  - apply elem_of_cons in Hr as [->|Hr]; [right; by left|].
    destruct (IH (x :: seen) Hr) as [Hin|Hin].
    + apply elem_of_cons in Hin as [->|Hin]; [right; by left|by left].
    + right. by right.
Qed.

(** Every rank of a natural card of the hand is a key of [rankCounts]. *)
Lemma rankKeys_complete (hand : list Card.t) (r : Rank.t) :
  rankCounts hand r ≠ [] → r ∈ rankKeys hand.
Proof.
  intros Hne. unfold rankKeys.
  set (present :=
         map Card.rank (List.filter (fun c => negb (Card.isJoker c)) hand)).
  assert (r ∈ present) as Hr.
  { unfold rankCounts in Hne.
    destruct (List.filter _ hand) as [|c rest] eqn:E; [done|].
    assert (In c (List.filter
                    (fun c => negb (Card.isJoker c) && (Card.rank c === r))
                    hand)) as Hin by (rewrite E; by left).
    apply filter_In in Hin as [Hin Hc].
    apply andb_true_iff in Hc as [Hj Hrank].
    apply bool_decide_eq_true in Hrank as <-.
    subst present. change (map Card.rank ?l) with (Card.rank <$> l).
    apply list_elem_of_fmap_2, list_elem_of_In, filter_In. by split. }
  apply elem_of_app.
  destruct (isNumeral r) eqn:Hnum.
  - left. apply list_elem_of_In, filter_In. split.
    + unfold isNumeral in Hnum.
      apply existsb_exists in Hnum as (n & Hn & Heq).
      by apply bool_decide_eq_true in Heq as ->.
    + apply existsb_exists. exists r. split.
      * by apply list_elem_of_In.
      * by apply bool_decide_eq_true_2.
  - right.
    destruct (firstOccurrences_complete []
                (List.filter (fun r => negb (isNumeral r)) present) r)
      as [Hin|Hin]; [|by apply elem_of_nil in Hin|done].
    apply list_elem_of_In, filter_In. split.
    + by apply list_elem_of_In.
    + by rewrite Hnum.
Qed.

Lemma findMeld_none (hand : list Card.t) :
  findMeld hand = None →
  ∀ r : Rank.t, (length (rankCounts hand r) < 3)%nat.
Proof.
  intros Hnone r. unfold findMeld in Hnone.
  destruct (rankCounts hand r) as [|c rest] eqn:E; [simpl; lia|].
  assert (r ∈ rankKeys hand) as Hr.
  { apply rankKeys_complete. by rewrite E. }
  apply list_elem_of_In in Hr.
  pose proof (find_none _ _ Hnone r Hr) as H. cbv beta in H.
  rewrite E in H. by apply Nat.leb_gt in H.
Qed.

(** On a suit whose bounds enclose the seven, the bot finds no place for
    a joker only when the suit is complete. *)
Lemma placeJokerOn_none (c : Card.t) (validSuits : list Suit.t)
    (sequences : Sequences.t) :
  (∀ s, s ∈ validSuits → around_seven (Sequences.get sequences s)) →
  placeJokerOn c validSuits sequences = None →
  ∀ s : Suit.t, s ∈ validSuits →
    BoardSequence.low (Sequences.get sequences s) <= 1
    ∧ 13 <= BoardSequence.high (Sequences.get sequences s).
Proof.
  induction validSuits as [|suit rest IH]; intros Hok Hnone s Hs.
  { by apply elem_of_nil in Hs. }
  simpl in Hnone.
  assert (around_seven (Sequences.get sequences suit)) as [Hlow Hhigh].
  { apply Hok. by left. }
  assert (placeJokerOn c rest sequences = None
          ∧ BoardSequence.low (Sequences.get sequences suit) <= 1
          ∧ 13 <= BoardSequence.high (Sequences.get sequences suit))
    as (Hrest & Hl & Hh).
  { destruct (Z.ltb_spec (BoardSequence.high (Sequences.get sequences suit)) 13)
      as [Hlt|Hge].
    - exfalso.
      destruct (RANKS_at (BoardSequence.high (Sequences.get sequences suit)))
        as [r|] eqn:Hr.
      + apply RANKS_at_sortValue in Hr as [_ Hv].
        destruct (decide (r = Rank.SEVEN)) as [->|Hne].
        * assert (getSortValue Rank.SEVEN = 7) as E by reflexivity. lia.
        * by rewrite (bool_decide_eq_false_2 _ Hne) in Hnone.
      + unfold RANKS_at in Hr.
        destruct (Z.ltb_spec
                    (BoardSequence.high (Sequences.get sequences suit)) 0);
          [lia|].
        apply lookup_ge_None in Hr. simpl in Hr. lia.
    - destruct (Z.ltb_spec 1 (BoardSequence.low (Sequences.get sequences suit)))
        as [Hlt|Hle]; [|by (split; [|lia])].
      exfalso.
      destruct (RANKS_at (BoardSequence.low (Sequences.get sequences suit) - 2))
        as [r|] eqn:Hr.
      + apply RANKS_at_sortValue in Hr as [_ Hv].
        destruct (decide (r = Rank.SEVEN)) as [->|Hne].
        * assert (getSortValue Rank.SEVEN = 7) as E by reflexivity. lia.
        * by rewrite (bool_decide_eq_false_2 _ Hne) in Hnone.
      + unfold RANKS_at in Hr.
        destruct (Z.ltb_spec
                    (BoardSequence.low (Sequences.get sequences suit) - 2) 0);
          [lia|].
        apply lookup_ge_None in Hr. simpl in Hr. lia. }
  apply elem_of_cons in Hs as [->|Hs]; [done|].
  apply IH; [|done|done]. intros s' Hs'. apply Hok. by right.
Qed.
Lemma botStep_board_ok (botName : string) (st st' : BotLoop.t) :
  botStep botName st = Some st' →
  board_ok (BotLoop.newSequences st) → board_ok (BotLoop.newSequences st').
Proof.
  unfold botStep. intros H Hok. destruct (findMeld _).
  - by injection H as <-.
  - destruct (scanHand _ _ _ _) as [[i [[m d] msg]]|] eqn:Hs; [|done].
    injection H as <-. simpl.
    apply scanHand_board in Hs as (c & _ & [(Hj & _ & Hp)|(d' & _ & Hp)]).
    + by apply (board_ok_placeCard c (BotLoop.newSequences st)).
    + by apply (board_ok_placeJoker c (BotLoop.newSequences st) m d').
Qed.

Lemma botLoop_board_ok (botName : string) (fuel : nat) (st st' : BotLoop.t) :
  botLoop fuel botName st = Ok st' →
  board_ok (BotLoop.newSequences st) → board_ok (BotLoop.newSequences st').
Proof.
  revert st. induction fuel as [|fuel IH]; intros st; simpl; [done|].
  destruct (botStep botName st) as [st1|] eqn:Hs.
  - intros H Hok. apply (IH st1 H). by apply (botStep_board_ok botName st).
  - by intros [= <-].
Qed.

Lemma placeCard_none (c : Card.t) (sequences : Sequences.t) :
  Card.isJoker c = false →
  placeCard c sequences = None → canPlayOnBoard c sequences = false.
Proof.
  intros Hj. unfold placeCard.
  destruct ((Card.rank c === Rank.SEVEN)
            && negb (BoardSequence.hasSeven
                       (Sequences.get sequences (Card.suit c)))); [done|].
  by destruct (canPlayOnBoard c sequences).
Qed.

(** X25. The loop of the bot is greedy to the end: when it stops, the
    hand holds no three natural cards of one rank and no natural card
    that the board takes, and, on a board whose bounds enclose the
    sevens, a joker is left in the hand only if every suit with its
    seven down is complete from ace to king. *)
Theorem botLoop_greedy (botName : string) (fuel : nat) (st st' : BotLoop.t) :
  board_ok (BotLoop.newSequences st) →
  botLoop fuel botName st = Ok st' →
  (∀ r : Rank.t, (length (rankCounts (BotLoop.newHand st') r) < 3)%nat)
  ∧ (∀ c : Card.t, c ∈ BotLoop.newHand st' → Card.isJoker c = false →
       canPlayOnBoard c (BotLoop.newSequences st') = false)
  ∧ ((∃ c : Card.t, c ∈ BotLoop.newHand st' ∧ Card.isJoker c = true) →
     ∀ s : Suit.t, s ∈ suitsWithSeven (BotLoop.newSequences st') →
       BoardSequence.low (Sequences.get (BotLoop.newSequences st') s) <= 1
       ∧ 13 <= BoardSequence.high (Sequences.get (BotLoop.newSequences st') s)).
Proof.
  intros Hok Hrun.
  pose proof (botLoop_board_ok _ _ _ _ Hrun Hok) as Hok'.
  apply botLoop_exit in Hrun. unfold botStep in Hrun.
  destruct (findMeld (BotLoop.newHand st')) eqn:Hmeld; [done|].
  destruct (scanHand botName 0 (BotLoop.newHand st') (BotLoop.newSequences st'))
    as [[i [[m d] msg]]|] eqn:Hscan; [done|].
  pose proof (scanHand_none _ _ _ _ Hscan) as Hnone.
  split; [by apply findMeld_none|]. split.
  - intros c Hc Hj. specialize (Hnone c Hc). unfold tryCard in Hnone.
    rewrite Hj in Hnone. simpl in Hnone.
    apply placeCard_none; [done|].
    destruct (placeCard c (BotLoop.newSequences st')); [|done].
    by destruct (_ && _).
  - intros (c & Hc & Hj) s Hs. specialize (Hnone c Hc).
    unfold tryCard in Hnone. rewrite Hj in Hnone. simpl in Hnone.
    destruct (placeJoker c (BotLoop.newSequences st')) as [[m d]|] eqn:Hp;
      [done|].
    apply (placeJokerOn_none c (suitsWithSeven (BotLoop.newSequences st')));
      [|done|done].
    intros s' Hs'. apply Hok'. by apply suitsWithSeven_spec in Hs' as [? _].
Qed.

Lemma botLoop_greedy_witness :
  ∃ st' : BotLoop.t,
    botLoop 3 "Bot 1"
      (BotLoop.mk [heartK; heart7; heart8] [] initialSequences [] 0
         (sampleApp 1))
    = Ok st'
    ∧ BotLoop.newHand st' = [heartK]
    ∧ canPlayOnBoard heartK (BotLoop.newSequences st') = false.
Proof.
  eexists. split; [reflexivity|]. split; [reflexivity|].
  destruct (botLoop_greedy "Bot 1" 3
              (BotLoop.mk [heartK; heart7; heart8] [] initialSequences [] 0
                 (sampleApp 1))
              _ board_ok_initial eq_refl) as (_ & Hnatural & _).
  apply Hnatural; [|reflexivity]. simpl. by left.
Defined.
Lemma sublist_into_filter {A : Type} (f : A → bool) (l1 l2 : list A) :
  l1 `sublist_of` l2 → Forall (fun x => f x = true) l1 →
  l1 `sublist_of` List.filter f l2.
Proof.
  intros Hsub. induction Hsub as [|x l1 l2 Hsub IH|x l1 l2 Hsub IH];
    intros Hall; simpl.
  - apply sublist_nil_l.
  - apply Forall_cons in Hall as [-> Hall]. by apply sublist_skip, IH.
  - destruct (f x); [apply sublist_cons|]; by apply IH.
Qed.

Lemma placeJokerOn_declares (c : Card.t) (validSuits : list Suit.t)
    (sequences sequences' : Sequences.t) (decl : JokerDeclaration.t) :
  placeJokerOn c validSuits sequences = Some (sequences', decl) →
  JokerDeclaration.cardId decl = Card.id c
  ∧ JokerDeclaration.representedRank decl ≠ Rank.SEVEN
  ∧ JokerDeclaration.representedSuit decl ∈ validSuits.
Proof.
  induction validSuits as [|suit rest IH]; simpl; [done|].
  set (targetRank := if _ <? 13 then _ else _).
  destruct targetRank as [r|].
  - destruct (decide (r = Rank.SEVEN)) as [->|Hne].
    + rewrite bool_decide_eq_true_2 by done. simpl. intros H.
      destruct (IH H) as (? & ? & ?). repeat split; try done. by right.
    + rewrite (bool_decide_eq_false_2 _ Hne). simpl.
      intros [= <- <-]. simpl. repeat split; try done. by left.
  - intros H. destruct (IH H) as (? & ? & ?). repeat split; try done. by right.
Qed.

Lemma scanHand_declares (botName : string) (i0 : nat) (cards : list Card.t)
    (sequences sequences' : Sequences.t) (i : nat)
    (decl : option JokerDeclaration.t) (msg : string) :
  scanHand botName i0 cards sequences = Some (i, (sequences', decl, msg)) →
  ∀ d : JokerDeclaration.t, decl = Some d →
    JokerDeclaration.representedRank d ≠ Rank.SEVEN
    ∧ ∃ c : Card.t,
        c ∈ cards ∧ Card.isJoker c = true
        ∧ Card.id c = JokerDeclaration.cardId d.
Proof.
  revert i0. induction cards as [|c rest IH]; intros i0; simpl; [done|].
  destruct (tryCard botName c sequences) as [[[m d'] s]|] eqn:Htry.
  - intros [= <- <- <- <-] d ->.
    unfold tryCard in Htry. destruct (Card.isJoker c) eqn:Hj; simpl in Htry.
    + destruct (placeJoker c sequences) as [[m' d']|] eqn:Hp; [|done].
      injection Htry as <- <- _.
      apply placeJokerOn_declares in Hp as (Hid & Hr & _).
      split; [done|]. exists c. split; [by left|done].
    + destruct (placeCard c sequences); [|done]. by destruct (_ && _).
  - intros H d Hd. destruct (IH _ H d Hd) as (Hr & c' & Hc' & Hj & Hid).
    split; [done|]. exists c'. split; [by right|done].
Qed.

(** What one pass of the loop does with the cards of the bot. *)
Lemma botStep_cards (botName : string) (st st' : BotLoop.t) :
  botStep botName st = Some st' →
  ∃ (laid : list (list Card.t)) (declared : list JokerDeclaration.t),
    BotLoop.newMelds st' = BotLoop.newMelds st ++ laid
    ∧ BotLoop.newJokerDeclarations st'
      = BotLoop.newJokerDeclarations st ++ declared
    ∧ Forall (fun m => length m = 3%nat
                       ∧ ∃ r : Rank.t, ∀ c : Card.t, c ∈ m →
                           Card.isJoker c = false ∧ Card.rank c = r) laid
    ∧ concat laid ++ BotLoop.newHand st' ⊆+ BotLoop.newHand st
    ∧ Forall (fun d => JokerDeclaration.representedRank d ≠ Rank.SEVEN
                       ∧ ∃ c : Card.t,
                           c ∈ BotLoop.newHand st ∧ Card.isJoker c = true
                           ∧ Card.id c = JokerDeclaration.cardId d) declared.
Proof.
  unfold botStep. intros H.
  destruct (findMeld (BotLoop.newHand st)) as [r|] eqn:Hmeld.
  - injection H as <-. simpl.
    set (hand := BotLoop.newHand st) in *.
    set (meldCards := take 3 (rankCounts hand r)).
    destruct (meld_shrinks hand r Hmeld) as [Hlen _]. fold meldCards in Hlen.
    exists [meldCards], []. rewrite app_nil_r.
    split; [done|]. split; [done|].
    assert (meldCards `sublist_of` hand) as Hsub.
    { etrans; [apply sublist_take|apply filter_sublist]. }
    assert (Forall (fun c => negb (Card.isJoker c) && (Card.rank c === r) = true)
              meldCards) as Hall.
    { apply Forall_take.
      apply (filter_all
               (fun c => negb (Card.isJoker c) && (Card.rank c === r))). }
    split; [|split; [|done]].
    + apply Forall_singleton. split; [done|]. exists r. intros c Hc.
      rewrite Forall_forall in Hall. apply Hall in Hc.
      apply andb_true_iff in Hc as [Hj Hr].
      apply negb_true_iff in Hj. by apply bool_decide_eq_true in Hr.
    + simpl. rewrite app_nil_r.
      set (f := fun c : Card.t => includes (map Card.id meldCards) (Card.id c)).
      trans (List.filter f hand ++ List.filter (fun c => negb (f c)) hand);
        [|apply Permutation_submseteq, filter_partition].
      apply submseteq_app; [|done].
      apply sublist_submseteq, sublist_into_filter; [done|].
      apply Forall_forall. intros c Hc. subst f. simpl.
      apply includes_spec.
      change (map Card.id meldCards) with (Card.id <$> meldCards).
      by apply list_elem_of_fmap_2.
  - destruct (scanHand _ _ _ _) as [[i [[m d] msg]]|] eqn:Hs; [|done].
    injection H as <-. simpl.
    exists [], (option_list d). rewrite app_nil_r.
    split; [done|]. split; [done|]. split; [done|].
    split; [apply sublist_submseteq, sublist_delete|].
    destruct d as [d|]; [|done]. apply Forall_singleton.
    by apply (scanHand_declares _ _ _ _ _ _ _ _ Hs).
Qed.

(** X26. The loop of the bot makes no card: the melds it lays down are
    triples of natural cards of one rank, and these with the hand it is
    left with are, counted with repeats, cards of the hand it started
    with; earlier melds and declarations stay in place, and every
    declaration it adds names a joker of the hand and a rank other than
    the seven. *)
Theorem botLoop_cards (botName : string) (fuel : nat) (st st' : BotLoop.t) :
  botLoop fuel botName st = Ok st' →
  ∃ (laid : list (list Card.t)) (declared : list JokerDeclaration.t),
    BotLoop.newMelds st' = BotLoop.newMelds st ++ laid
    ∧ BotLoop.newJokerDeclarations st'
      = BotLoop.newJokerDeclarations st ++ declared
    ∧ Forall (fun m => length m = 3%nat
                       ∧ ∃ r : Rank.t, ∀ c : Card.t, c ∈ m →
                           Card.isJoker c = false ∧ Card.rank c = r) laid
    ∧ concat laid ++ BotLoop.newHand st' ⊆+ BotLoop.newHand st
    ∧ Forall (fun d => JokerDeclaration.representedRank d ≠ Rank.SEVEN
                       ∧ ∃ c : Card.t,
                           c ∈ BotLoop.newHand st ∧ Card.isJoker c = true
                           ∧ Card.id c = JokerDeclaration.cardId d) declared.
Proof.
  revert st. induction fuel as [|fuel IH]; intros st; simpl; [done|].
  destruct (botStep botName st) as [st1|] eqn:Hs.
  - intros Hrun.
    destruct (botStep_cards _ _ _ Hs)
      as (laid1 & declared1 & Hm1 & Hd1 & Hok1 & Hsub1 & Hdecl1).
    destruct (IH st1 Hrun)
      as (laid2 & declared2 & Hm2 & Hd2 & Hok2 & Hsub2 & Hdecl2).
    exists (laid1 ++ laid2), (declared1 ++ declared2).
    split; [by rewrite Hm2, Hm1, app_assoc|].
    split; [by rewrite Hd2, Hd1, app_assoc|].
    split; [by apply Forall_app|]. split.
    + rewrite concat_app, <- app_assoc. etrans; [|exact Hsub1].
      by apply submseteq_app.
    + apply Forall_app. split; [done|].
      eapply Forall_impl; [exact Hdecl2|]. simpl.
      intros d (Hr & c & Hc & Hj & Hid). split; [done|].
      exists c. split; [|done].
      apply (elem_of_submseteq (concat laid1 ++ BotLoop.newHand st1));
        [|done].
      apply elem_of_app. by right.
  - intros [= <-]. exists [], []. rewrite !app_nil_r. simpl.
    by repeat split.
Qed.
Lemma botLoop_cards_witness :
  ∃ st' : BotLoop.t,
    botLoop 5 "Bot 1"
      (BotLoop.mk [heartK; diamondK; spadeK; heart8] [] initialSequences [] 0
         (sampleApp 1))
    = Ok st'
    ∧ BotLoop.newMelds st' = [[heartK; diamondK; spadeK]]
    ∧ BotLoop.newHand st' = [heart8].
Proof.
  eexists. split; [reflexivity|].
  destruct (botLoop_cards "Bot 1" 5
              (BotLoop.mk [heartK; diamondK; spadeK; heart8] []
                 initialSequences [] 0 (sampleApp 1))
              _ eq_refl) as (laid & declared & Hmelds & _).
  split; [|reflexivity].
  rewrite Hmelds. vm_compute in Hmelds.
  destruct laid as [|m [|m' laid]]; try discriminate.
  injection Hmelds as <-. reflexivity.
Defined.

(** The scan of [pickDiscardIndex] from an arbitrary start: the value kept
    is the greatest seen, and the index kept is the first that holds
    it. *)
Lemma discard_scan_max (l : list Card.t) (k : nat) (acc : nat * Z) :
  let r :=
    fold_left
      (fun '(discardIndex, maxVal) '(i, c) =>
         if (maxVal <? Card.value c)%Z then (i, Card.value c)
         else (discardIndex, maxVal))
      (imap (fun i c => ((k + i)%nat, c)) l) acc in
  (∀ d : Card.t, d ∈ l → Card.value d <= r.2)
  ∧ acc.2 <= r.2
  ∧ ((r = acc)
     ∨ ∃ (j : nat) (c : Card.t),
         l !! j = Some c ∧ r = ((k + j)%nat, Card.value c)
         ∧ acc.2 < Card.value c
         ∧ ∀ (j' : nat) (d : Card.t), (j' < j)%nat → l !! j' = Some d →
             Card.value d < Card.value c).
Proof.
  revert k acc. induction l as [|x l IH]; intros k [i0 m0]; cbv zeta.
  { simpl. split; [|split; [lia|by left]].
    intros d Hd. by apply elem_of_nil in Hd. }
  cbn [imap fold_left].
  rewrite (imap_ext _ (fun i c => ((S k + i)%nat, c))).
  2: { intros i c _. simpl. f_equal. lia. }
  rewrite Nat.add_0_r.
  destruct (Z.ltb_spec m0 (Card.value x)) as [Hlt|Hge].
  - specialize (IH (S k) (k, Card.value x)). cbv zeta in IH.
    set (r := fold_left _ _ (k, Card.value x)) in *.
    destruct IH as (Hmax & Hacc & Hcase). cbn [snd] in Hacc.
    split; [|split].
    + intros d Hd. apply elem_of_cons in Hd as [->|Hd]; [done|by apply Hmax].
    + cbn [snd]. lia.
    + right. destruct Hcase as [->|(j & c & Hj & -> & Hc & Hfirst)].
      * exists 0%nat, x. rewrite Nat.add_0_r. repeat split; try done.
        intros j' d Hj'. lia.
      * exists (S j), c. cbn [snd] in Hc |- *.
        split; [done|]. split; [f_equal; lia|]. split; [lia|].
        intros [|j'] d Hj' Hd; simpl in Hd.
        -- injection Hd as <-. done.
        -- apply (Hfirst j' d); [lia|done].
  - specialize (IH (S k) (i0, m0)). cbv zeta in IH.
    set (r := fold_left _ _ (i0, m0)) in *.
    destruct IH as (Hmax & Hacc & Hcase). cbn [snd] in Hacc.
    split; [|split].
    + intros d Hd. apply elem_of_cons in Hd as [->|Hd]; [lia|by apply Hmax].
    + cbn [snd]. lia.
    + destruct Hcase as [->|(j & c & Hj & -> & Hc & Hfirst)]; [by left|].
      right. exists (S j), c. cbn [snd] in Hc |- *.
      split; [done|]. split; [f_equal; lia|]. split; [lia|].
      intros [|j'] d Hj' Hd; simpl in Hd.
      * injection Hd as <-. lia.
      * apply (Hfirst j' d); [lia|done].
Qed.

Lemma pickDiscardIndex_max (hand : list Card.t) :
  hand ≠ [] →
  (∀ c : Card.t, c ∈ hand → 0 <= Card.value c) →
  ∃ c : Card.t,
    hand !! pickDiscardIndex hand = Some c
    ∧ (∀ d : Card.t, d ∈ hand → Card.value d <= Card.value c)
    ∧ ∀ (j : nat) (d : Card.t), (j < pickDiscardIndex hand)%nat →
        hand !! j = Some d → Card.value d < Card.value c.
Proof.
  intros Hne Hpos. unfold pickDiscardIndex.
  pose proof (discard_scan_max hand 0 (0%nat, -1)) as H. cbv zeta in H.
  rewrite (imap_ext _ pair) in H by done.
  destruct H as (Hmax & _ & [Hacc|(j & c & Hj & Hr & _ & Hfirst)]).
  - exfalso. rewrite Hacc in Hmax. simpl in Hmax.
    destruct hand as [|x hand]; [done|].
    assert (x ∈ x :: hand) as Hx by by left.
    specialize (Hmax x Hx). specialize (Hpos x Hx). lia.
  - rewrite Hr in Hmax |- *. simpl in *. exists c.
    split; [done|]. split; [done|]. exact Hfirst.
Qed.

(** X27. The card the bot discards: in a hand that is not empty and has
    no value under zero, [pickDiscardIndex] is the position of a card of
    the greatest value, and the first such position. *)
Theorem pickDiscardIndex_first_max (hand : list Card.t) :
  hand ≠ [] →
  (∀ c : Card.t, c ∈ hand → 0 <= Card.value c) →
  ∃ c : Card.t,
    hand !! pickDiscardIndex hand = Some c
    ∧ (∀ d : Card.t, d ∈ hand → Card.value d <= Card.value c)
    ∧ ∀ (j : nat) (d : Card.t), (j < pickDiscardIndex hand)%nat →
        hand !! j = Some d → Card.value d < Card.value c.
Proof. apply pickDiscardIndex_max. Qed.

Lemma pickDiscardIndex_first_max_witness :
  ∃ c : Card.t,
    [heart8; heartK; diamondK] !! pickDiscardIndex [heart8; heartK; diamondK]
    = Some c
    ∧ Card.value heart8 < Card.value c.
Proof.
  destruct (pickDiscardIndex_first_max [heart8; heartK; diamondK])
    as (c & Hc & _ & Hfirst).
  - discriminate.
  - intros c Hc.
    repeat (apply elem_of_cons in Hc as [->|Hc]; [vm_compute; discriminate|]).
    by apply elem_of_nil in Hc.
  - exists c. split; [exact Hc|].
    apply (Hfirst 0%nat heart8); [vm_compute; lia|reflexivity].
Defined.
(** X28. A turn of the bot that does not end in a knock: the bot draws
    the top card of the deck, if there is one, and discards one card of
    the hand it then holds, which goes on top of the discard pile and
    becomes the pending discard of that bot; the turn passes to the next
    player; the other players are untouched; and when no card has a
    value under zero, no card the bot keeps is worth more than the one
    it discards. *)
Theorem normalBot_discards (a : App.t) (gs : GameState.t) (bot : Player.t) :
  App.gameState a = Some gs →
  GameState.players gs !! GameState.currentPlayerIndex gs = Some bot →
  ∃ (st : BotLoop.t) (a' : App.t) (gs' : GameState.t),
    botLoop (S (length (Player.hand bot))) (Player.name bot)
      (BotLoop.mk (Player.hand bot) (Player.melds bot)
         (GameState.boardSequences gs) (GameState.jokerDeclarations gs) 0 a)
    = Ok st
    ∧ normalBot a gs = Ok a'
    ∧ App.gameState a' = Some gs'
    ∧ (5 < calculateHandPoints (BotLoop.newHand st) →
       ∃ (discarded : Card.t) (bot' : Player.t),
         GameState.discardPile gs' = discarded :: GameState.discardPile gs
         ∧ GameState.pendingPong gs'
           = Some (PendingPong.mk discarded (GameState.currentPlayerIndex gs))
         ∧ GameState.currentPlayerIndex gs'
           = ((GameState.currentPlayerIndex gs + 1)
              `mod` length (GameState.players gs))%nat
         ∧ GameState.deck gs' = drop 1 (GameState.deck gs)
         ∧ GameState.players gs' !! GameState.currentPlayerIndex gs = Some bot'
         ∧ Player.melds bot' = BotLoop.newMelds st
         ∧ discarded :: Player.hand bot'
           ≡ₚ BotLoop.newHand st ++ take 1 (GameState.deck gs)
         ∧ (∀ i : nat, i ≠ GameState.currentPlayerIndex gs →
              GameState.players gs' !! i = GameState.players gs !! i)
         ∧ GameState.boardSequences gs' = BotLoop.newSequences st
         ∧ GameState.jokerDeclarations gs' = BotLoop.newJokerDeclarations st
         ∧ ((∀ c : Card.t,
               c ∈ BotLoop.newHand st ++ take 1 (GameState.deck gs) →
               0 <= Card.value c) →
            ∀ c : Card.t, c ∈ Player.hand bot' →
              Card.value c <= Card.value discarded)).
Proof.
  intros Hgs Hbot.
  set (st0 := BotLoop.mk (Player.hand bot) (Player.melds bot)
                (GameState.boardSequences gs) (GameState.jokerDeclarations gs)
                0 a).
  destruct (botLoop_enough (Player.name bot) st0) as (st & Hrun & _).
  change (BotLoop.newHand st0) with (Player.hand bot) in Hrun.
  assert (logs_only a (BotLoop.app st)) as [l Happ].
  { apply (botLoop_logs_only _ a _ st0 st Hrun). by apply (logs_only_refl a gs). }
  exists st. unfold normalBot. rewrite Hbot. fold st0. rewrite Hrun.
  destruct (Z.leb_spec (calculateHandPoints (BotLoop.newHand st)) 5) as [Hle|Hgt].
  { eexists _, _. split; [done|]. split; [done|].
    rewrite Happ. destruct a as [g ? ? ? ? ? ? ?]. simpl in Hgs. subst g.
    simpl. split; [done|]. lia. }
  assert (BotLoop.newHand st ≠ []) as Hne.
  { intros E. rewrite E, handPoints_nil in Hgt. lia. }
  assert (∀ (drawnHand : list Card.t) (deck : list Card.t) (a1 : App.t),
            drawnHand ≡ₚ BotLoop.newHand st ++ take 1 (GameState.deck gs) →
            deck = drop 1 (GameState.deck gs) →
            logs_only a a1 →
            ∃ (a' : App.t) (gs' : GameState.t),
              match drawnHand !! pickDiscardIndex drawnHand with
              | Some discardedCard =>
                  Ok (App.updateGameState
                        (fun prev =>
                           GameState.set_pendingPong
                             (Some (PendingPong.mk discardedCard
                                      (GameState.currentPlayerIndex gs)))
                             (GameState.set_logs
                                (GameState.logs prev
                                   ++ [Player.name bot +:+ " discarded "
                                         +:+ Rank.str (Card.rank discardedCard)
                                         +:+ " "
                                         +:+ Suit.str (Card.suit discardedCard)])
                                (GameState.set_currentPlayerIndex
                                   ((GameState.currentPlayerIndex gs + 1)
                                    `mod` length (GameState.players gs))%nat
                                   (GameState.set_discardPile
                                      (discardedCard :: GameState.discardPile prev)
                                      (GameState.set_deck deck
                                         (GameState.set_jokerDeclarations
                                            (BotLoop.newJokerDeclarations st)
                                            (GameState.set_boardSequences
                                               (BotLoop.newSequences st)
                                               (GameState.set_players
                                                  (mapPlayer
                                                     (GameState.currentPlayerIndex gs)
                                                     (fun p =>
                                                        Player.set_melds
                                                          (BotLoop.newMelds st)
                                                          (Player.set_hand
                                                             (delete
                                                                (pickDiscardIndex
                                                                   drawnHand)
                                                                drawnHand)
                                                             p))
                                                     (GameState.players prev))
                                                  prev))))))))
                        a1)
              | None => TypeError
              end = Ok a'
              ∧ App.gameState a' = Some gs'
              ∧ (5 < calculateHandPoints (BotLoop.newHand st) →
                 ∃ (discarded : Card.t) (bot' : Player.t),
                   GameState.discardPile gs'
                   = discarded :: GameState.discardPile gs
                   ∧ GameState.pendingPong gs'
                     = Some (PendingPong.mk discarded
                               (GameState.currentPlayerIndex gs))
                   ∧ GameState.currentPlayerIndex gs'
                     = ((GameState.currentPlayerIndex gs + 1)
                        `mod` length (GameState.players gs))%nat
                   ∧ GameState.deck gs' = drop 1 (GameState.deck gs)
                   ∧ GameState.players gs' !! GameState.currentPlayerIndex gs
                     = Some bot'
                   ∧ Player.melds bot' = BotLoop.newMelds st
                   ∧ discarded :: Player.hand bot'
                     ≡ₚ BotLoop.newHand st ++ take 1 (GameState.deck gs)
                   ∧ (∀ i : nat, i ≠ GameState.currentPlayerIndex gs →
                        GameState.players gs' !! i = GameState.players gs !! i)
                   ∧ GameState.boardSequences gs' = BotLoop.newSequences st
                   ∧ GameState.jokerDeclarations gs'
                     = BotLoop.newJokerDeclarations st
                   ∧ ((∀ c : Card.t,
                         c ∈ BotLoop.newHand st ++ take 1 (GameState.deck gs) →
                         0 <= Card.value c) →
                      ∀ c : Card.t, c ∈ Player.hand bot' →
                        Card.value c <= Card.value discarded))) as Hfinish.
  { intros drawnHand deck a1 Hperm -> [l1 ->].
    assert (drawnHand ≠ []) as Hne'.
    { intros E. rewrite E in Hperm. apply Permutation_nil_l in Hperm.
      by destruct (BotLoop.newHand st). }
    destruct (lookup_lt_is_Some_2 _ _ (pickDiscardIndex_lt _ Hne')) as [d Hd].
    rewrite Hd. eexists _, _. split; [done|].
    destruct a as [g ? ? ? ? ? ? ?]. simpl in Hgs. subst g.
    split; [done|]. intros _. simpl.
    eexists d, _. do 4 (split; [done|]).
    split.
    { rewrite mapPlayer_lookup, Nat.eqb_refl, Hbot. done. }
    simpl. split; [done|].
    split; [rewrite <- Hperm; symmetry; by apply delete_Permutation|].
    split.
    { intros i Hi. rewrite mapPlayer_lookup.
      destruct (Nat.eqb_spec i (GameState.currentPlayerIndex gs)); congruence. }
    split; [done|]. split; [done|].
    intros Hpos c Hc.
    destruct (pickDiscardIndex_max drawnHand Hne') as (d' & Hd' & Hmax & _).
    { intros x Hx. apply Hpos. by rewrite <- Hperm. }
    rewrite Hd in Hd'. injection Hd' as <-. apply Hmax.
    by apply (sublist_subseteq _ _
                (sublist_delete drawnHand (pickDiscardIndex drawnHand))). }
  destruct (GameState.deck gs) as [|drawn deck'] eqn:Hdeck.
  - destruct (Hfinish (BotLoop.newHand st) [] (addLog "Deck empty." (BotLoop.app st)))
      as (a' & gs' & Ha' & Hgs' & Hrest).
    + by rewrite app_nil_r.
    + done.
    + apply logs_only_addLog. by exists l.
    + exists a', gs'. done.
  - destruct (Hfinish (sortBySortValue (BotLoop.newHand st ++ [drawn])) deck'
                (addLog (Player.name bot +:+ " drew a card.") (BotLoop.app st)))
      as (a' & gs' & Ha' & Hgs' & Hrest).
    + apply sortBySortValue_Permutation.
    + done.
    + apply logs_only_addLog. by exists l.
    + exists a', gs'. done.
Qed.

Lemma normalBot_discards_witness :
  ∃ (a' : App.t) (gs' : GameState.t),
    normalBot idleBotApp idleBotGame = Ok a'
    ∧ App.gameState a' = Some gs'
    ∧ GameState.discardPile gs' = [heartK]
    ∧ GameState.currentPlayerIndex gs' = 0%nat.
Proof.
  destruct (normalBot_discards idleBotApp idleBotGame idleBot eq_refl eq_refl)
    as (st & a' & gs' & _ & Hrun & Hgs' & _).
  exists a', gs'. split; [exact Hrun|]. split; [exact Hgs'|].
  vm_compute in Hrun. injection Hrun as <-. simpl in Hgs'.
  injection Hgs' as <-. split; reflexivity.
Defined.
(** X29. Clicking a card twice, on the turn of the human player, when its
    id is not yet selected: in the action phase the second click undoes
    the first; in the discard phase the first click replaces the
    selection by the card and the second leaves it empty. *)
Theorem handleCardClick_toggle (card : Card.t) (a : App.t)
    (gs : GameState.t) :
  App.gameState a = Some gs →
  GameState.currentPlayerIndex gs = 0%nat →
  Card.id card ∉ App.selectedCards a →
  (GameState.turnPhase gs = ACTION →
     App.selectedCards (handleCardClick card a)
     = App.selectedCards a ++ [Card.id card]
     ∧ handleCardClick card (handleCardClick card a) = a)
  ∧ (GameState.turnPhase gs = DISCARD →
       App.selectedCards (handleCardClick card a) = [Card.id card]
       ∧ handleCardClick card (handleCardClick card a)
         = App.setSelectedCards [] a).
Proof.
  intros Hgs Hcur Hnew.
  assert (includes (App.selectedCards a) (Card.id card) = false) as Hinc.
  { apply not_true_is_false. intros H. by apply includes_spec in H. }
  assert (List.filter (fun id => id !== Card.id card) (App.selectedCards a)
          = App.selectedCards a) as Hfilter.
  { apply filter_of_all. apply Forall_forall. intros x Hx.
    apply negb_true_iff, bool_decide_eq_false_2. by intros ->. }
  split; intros Hphase.
  - assert (handleCardClick card a
            = App.setSelectedCards (App.selectedCards a ++ [Card.id card]) a)
      as ->.
    { unfold handleCardClick. by rewrite Hgs, Hphase, Hcur, Hinc. }
    split; [done|].
    unfold handleCardClick. simpl. rewrite Hgs, Hphase, Hcur. simpl.
    assert (includes (App.selectedCards a ++ [Card.id card]) (Card.id card)
            = true) as ->.
    { apply includes_spec, elem_of_app. right. by left. }
    rewrite List.filter_app, Hfilter. simpl.
    rewrite bool_decide_eq_true_2 by done. simpl. rewrite app_nil_r.
    by destruct a.
  - assert (handleCardClick card a = App.setSelectedCards [Card.id card] a)
      as ->.
    { unfold handleCardClick. by rewrite Hgs, Hphase, Hcur, Hinc. }
    split; [done|].
    unfold handleCardClick. simpl. rewrite Hgs, Hphase, Hcur. simpl.
    rewrite !bool_decide_eq_true_2 by done. simpl. done.
Qed.

Lemma handleCardClick_toggle_witness :
  handleCardClick heartK (handleCardClick heartK (sampleApp 0)) = sampleApp 0.
Proof.
  destruct (handleCardClick_toggle heartK (sampleApp 0) (sampleGame 0) eq_refl
              eq_refl) as [Haction _].
  - apply not_elem_of_nil.
  - by destruct (Haction eq_refl) as [_ H].
Defined.

Lemma sortValue_range (r : Rank.t) :
  1 <= getSortValue r ∧ (r ≠ Rank.JOKER → getSortValue r <= 13).
Proof. destruct r; vm_compute; split; try done; intros; congruence. Qed.

Lemma extendBounds_in_range (val : Z) (seq : BoardSequence.t) :
  1 <= val →
  (val <= 13 ∨ 14 < val) →
  1 <= BoardSequence.low seq ∧ BoardSequence.high seq <= 13 →
  1 <= BoardSequence.low (extendBounds val seq)
  ∧ BoardSequence.high (extendBounds val seq) <= 13.
Proof.
  intros Hval Hrange [Hlow Hhigh]. unfold extendBounds.
  destruct (Z.eqb_spec val (BoardSequence.high seq + 1)) as [Hh|Hh];
    cbn [BoardSequence.low BoardSequence.set_high];
    destruct (Z.eqb_spec val (BoardSequence.low seq - 1)) as [Hl|Hl];
    simpl; lia.
Qed.

Lemma board_in_range_set (s : Suit.t) (v : BoardSequence.t) (m : Sequences.t) :
  board_in_range m →
  (1 <= BoardSequence.low v ∧ BoardSequence.high v <= 13) →
  board_in_range (Sequences.set s v m).
Proof.
  intros Hm Hv s' Hs'. destruct (decide (s = s')) as [<-|Hne].
  - by rewrite get_set_eq.
  - rewrite get_set_ne by done. by apply Hm.
Qed.

Lemma placeJokerOn_in_range (c : Card.t) (validSuits : list Suit.t)
    (sequences sequences' : Sequences.t) (decl : JokerDeclaration.t) :
  board_in_range sequences →
  (∀ s, s ∈ validSuits → s ∈ SUITS) →
  placeJokerOn c validSuits sequences = Some (sequences', decl) →
  board_in_range sequences'.
Proof.
  intros Hok.
  induction validSuits as [|suit rest IH]; intros Hsuits; simpl; [done|].
  assert (suit ∈ SUITS) as Hsuit by (apply Hsuits; by left).
  destruct (Hok suit Hsuit) as [Hlow Hhigh].
  assert (∀ s, s ∈ rest → s ∈ SUITS) as Hrest.
  { intros s Hs. apply Hsuits. by right. }
  set (seq := Sequences.get sequences suit) in *.
  set (targetRank := if _ <? 13 then _ else _).
  assert (∀ r, targetRank = Some r → 1 <= getSortValue r <= 13) as Htarget.
  { intros r Hr. subst targetRank.
    destruct (BoardSequence.high seq <? 13).
    - apply RANKS_at_sortValue in Hr. lia.
    - destruct (1 <? BoardSequence.low seq); [|done].
      apply RANKS_at_sortValue in Hr. lia. }
  destruct targetRank as [r|]; [|by apply IH].
  destruct (r !== Rank.SEVEN); [|by apply IH].
  specialize (Htarget r eq_refl).
  intros [= <- _]. apply board_in_range_set; [done|].
  destruct (BoardSequence.high seq <? getSortValue r); simpl; lia.
Qed.

(** X30. The bounds of the board never leave the range from ace to king:
    a board whose bounds are within 1 and 13 on every suit stays so when
    a natural card with a sort value in that range is placed, when the
    bot places a joker, and when the human player declares a joker,
    whatever the identity declared. *)
Theorem board_in_range_preserved (sequences : Sequences.t) :
  board_in_range sequences →
  (∀ (c : Card.t) (sequences' : Sequences.t),
     1 <= Card.sortValue c <= 13 →
     placeCard c sequences = Some sequences' → board_in_range sequences')
  ∧ (∀ (c : Card.t) (sequences' : Sequences.t) (decl : JokerDeclaration.t),
       placeJoker c sequences = Some (sequences', decl) →
       board_in_range sequences')
  ∧ ∀ (declaredSuit : Suit.t) (declaredRank : Rank.t),
      board_in_range (declareOnBoard declaredSuit declaredRank sequences).
Proof.
  intros Hok. split; [|split].
  - intros c sequences' Hval. unfold placeCard.
    destruct (_ && _).
    + intros [= <-]. intros s Hs.
      destruct (decide (Card.suit c = s)) as [<-|Hne].
      * rewrite get_set_eq. simpl. by apply Hok.
      * rewrite get_set_ne by done. by apply Hok.
    + destruct (canPlayOnBoard c sequences); [|done].
      intros [= <-]. intros s Hs.
      destruct (decide (Card.suit c = s)) as [<-|Hne].
      * rewrite get_set_eq. apply extendBounds_in_range; [lia|lia|].
        by apply Hok.
      * rewrite get_set_ne by done. by apply Hok.
  - intros c sequences' decl. unfold placeJoker.
    apply placeJokerOn_in_range; [done|].
    intros s Hs. by apply suitsWithSeven_spec in Hs as [? _].
  - intros declaredSuit declaredRank s Hs. unfold declareOnBoard.
    destruct (decide (declaredSuit = s)) as [<-|Hne].
    + rewrite get_set_eq.
      destruct (sortValue_range declaredRank) as [Hlow Hhigh].
      apply extendBounds_in_range; [done| |by apply Hok].
      destruct (decide (declaredRank = Rank.JOKER)) as [->|Hr].
      * right. vm_compute. done.
      * left. by apply Hhigh.
    + rewrite get_set_ne by done. by apply Hok.
Qed.

Lemma board_in_range_preserved_witness :
  board_in_range (declareOnBoard Suit.HEARTS Rank.EIGHT heartsOpen).
Proof.
  apply (board_in_range_preserved heartsOpen).
  intros s Hs. apply in_SUITS in Hs.
  destruct s; try done; vm_compute; split; discriminate.
Defined.
